(** * SAPPHIRES dashboard: the filter-state alert and reminder callback

    A shallow embedding of the decision logic of [filterdashmanual.py]:
    the SQLite helper functions ([get_last_filter_state],
    [is_event_processed], [add_reminder], ...) and the Dash callback
    [handle_filter_state_event] that drives the three dialogs.

    - The database is a record of four tables, each a list of rows.
    - Every helper opens its own connection, runs one statement inside
      [try ... except ... finally: conn.close()], and so can fail in two
      ways: the statement raises and the helper's handler answers with
      its default, or an exception leaves the helper altogether.  Both
      are part of the circumstances ([call]) of a helper call.
    - Python code that reads and writes the database is a function from
      the database to an outcome and a database ([Py]). *)

From Stdlib Require Import ZArith List Bool String Ascii Lia.
Import ListNotations.
Local Open Scope string_scope.
Local Open Scope Z_scope.

(* ================================================================== *)
(** ** Timestamps: [datetime], [strftime], [timedelta(minutes=...)]    *)
(* ================================================================== *)

Module Clock.

(** A naive [datetime.datetime] value: the seven fields it stores. *)
Record datetime : Type := mkDatetime {
  year : Z;
  month : Z;
  day : Z;
  hour : Z;
  minute : Z;
  second : Z;
  microsecond : Z
}.

Definition is_leap (y : Z) : bool :=
  ((y mod 4 =? 0) && negb (y mod 100 =? 0)) || (y mod 400 =? 0).

Definition days_in_month (y m : Z) : Z :=
  if m =? 2 then (if is_leap y then 29 else 28)
  else if (m =? 4) || (m =? 6) || (m =? 9) || (m =? 11) then 30
  else 31.

Definition MINYEAR : Z := 1.
Definition MAXYEAR : Z := 9999.

(** The values the [datetime] constructor accepts. *)
Definition valid (t : datetime) : Prop :=
  MINYEAR <= year t <= MAXYEAR /\
  1 <= month t <= 12 /\
  1 <= day t <= days_in_month (year t) (month t) /\
  0 <= hour t < 24 /\
  0 <= minute t < 60 /\
  0 <= second t < 60 /\
  0 <= microsecond t < 1000000.

Definition validb (t : datetime) : bool :=
  (MINYEAR <=? year t) && (year t <=? MAXYEAR) &&
  (1 <=? month t) && (month t <=? 12) &&
  (1 <=? day t) && (day t <=? days_in_month (year t) (month t)) &&
  (0 <=? hour t) && (hour t <? 24) &&
  (0 <=? minute t) && (minute t <? 60) &&
  (0 <=? second t) && (second t <? 60) &&
  (0 <=? microsecond t) && (microsecond t <? 1000000).

(** [t1 <= t2] on datetimes: Python compares the seven fields in order. *)
Fixpoint lex_le (xs ys : list Z) : Prop :=
  match xs, ys with
  | x :: xs', y :: ys' => x < y \/ (x = y /\ lex_le xs' ys')
  | _, _ => True
  end.

Definition fields (t : datetime) : list Z :=
  [year t; month t; day t; hour t; minute t; second t; microsecond t].

Definition le (t1 t2 : datetime) : Prop := lex_le (fields t1) (fields t2).

(** *** [strftime("%Y-%m-%d %H:%M:%S")] *)

Definition digit (d : Z) : ascii := ascii_of_N (48 + Z.to_N d).

(** Decimal digits of a non-negative number, most significant first;
    the fuel bounds the number of digits. *)
Fixpoint decimal_aux (fuel : nat) (n : Z) (acc : string) : string :=
  match fuel with
  | O => acc
  | S fuel' =>
      let acc' := String (digit (n mod 10)) acc in
      if n <? 10 then acc' else decimal_aux fuel' (n / 10) acc'
  end.

Definition decimal (n : Z) : string :=
  decimal_aux (S (Z.to_nat (Z.log2 n))) n "".

(** [str(n)] and [f"{n}"] for an integer. *)
Definition str_of_int (n : Z) : string :=
  if n <? 0 then String "-" (decimal (- n)) else decimal n.

(** [%m], [%d], [%H], [%M], [%S]: two digits, zero padded. *)
Definition two_digits (n : Z) (rest : string) : string :=
  String (digit (n / 10)) (String (digit (n mod 10)) rest).

(** [%Y] is the year in decimal (four digits from year 1000 on). *)
Definition strftime (t : datetime) : string :=
  decimal (year t) ++ "-" ++
  two_digits (month t) ("-" ++
  two_digits (day t) (" " ++
  two_digits (hour t) (":" ++
  two_digits (minute t) (":" ++
  two_digits (second t) "")))).

(** *** [t + datetime.timedelta(minutes=m)] *)

(** The day after a date; [None] past the last day of [MAXYEAR]
    (Python raises [OverflowError]). *)
Definition next_day (d : Z * Z * Z) : option (Z * Z * Z) :=
  let '(y, m, dd) := d in
  if dd <? days_in_month y m then Some (y, m, dd + 1)
  else if m <? 12 then Some (y, m + 1, 1)
  else if y <? MAXYEAR then Some (y + 1, 1, 1)
  else None.

Fixpoint add_days (n : nat) (d : Z * Z * Z) : option (Z * Z * Z) :=
  match n with
  | O => Some d
  | S n' => match next_day d with
            | Some d' => add_days n' d'
            | None => None
            end
  end.

Definition add_minutes (t : datetime) (m : Z) : option datetime :=
  let total := hour t * 60 + minute t + m in
  let hours := total / 60 in
  match add_days (Z.to_nat (hours / 24)) (year t, month t, day t) with
  | Some (y, mo, d) =>
      Some (mkDatetime y mo d (hours mod 24) (total mod 60)
                       (second t) (microsecond t))
  | None => None
  end.

(** The instant with its microseconds dropped, which is all that the
    format above keeps. *)
Definition whole_second (t : datetime) : datetime :=
  mkDatetime (year t) (month t) (day t) (hour t) (minute t) (second t) 0.

(** Years that [%Y] renders with four digits. *)
Definition four_digit_year (t : datetime) : Prop := 1000 <= year t.

End Clock.

(* ================================================================== *)
(** ** The SQLite database                                             *)
(* ================================================================== *)

(** Rows of the four tables the callback touches.  Each table is the
    list of its rows in rowid order, the order in which a table scan
    visits them; the [seq_] fields are the [sqlite_sequence] counters
    behind [AUTOINCREMENT]. *)

Record filter_state_row : Type := mkFilterState {
  fs_id : Z;
  fs_timestamp : string;
  fs_filter_state : string
}.

Record user_control_row : Type := mkUserControl {
  uc_id : Z;
  uc_timestamp : string;
  uc_user_input : string
}.

Record processed_event_row : Type := mkProcessed {
  pe_processed_id : Z;
  pe_event_id : Z;
  pe_action : string;
  pe_processed_timestamp : string
}.

Record reminder_row : Type := mkReminder {
  rm_reminder_id : Z;
  rm_event_id : Z;
  rm_reminder_time : string;
  rm_reminder_type : string
}.

Record database : Type := mkDatabase {
  filter_state : list filter_state_row;
  user_control : list user_control_row;
  processed_events : list processed_event_row;
  reminders : list reminder_row;
  seq_filter_state : Z;
  seq_user_control : Z;
  seq_processed_events : Z;
  seq_reminders : Z
}.

(** The rowid an [AUTOINCREMENT] insert gets: one more than the largest
    rowid the table has ever held. *)
Definition next_rowid (seq : Z) (ids : list Z) : Z :=
  1 + fold_right Z.max seq ids.

(** [ORDER BY id DESC LIMIT 1]: the row with the largest key. *)
Fixpoint order_by_desc_limit_1 {R : Type} (key : R -> Z) (rows : list R)
  : option R :=
  match rows with
  | [] => None
  | r :: rest =>
      match order_by_desc_limit_1 key rest with
      | Some r' => if key r <? key r' then Some r' else Some r
      | None => Some r
      end
  end.

(** [fetchone()] on a statement without [ORDER BY]: the first row of the
    scan that passes the [WHERE] clause. *)
Definition fetchone {R : Type} (where_ : R -> bool) (rows : list R)
  : option R :=
  find where_ rows.

(** A Python value that is an integer or [None]. *)
Definition pyint : Type := option Z.

(** [if x:] on such a value: [None] and [0] are false. *)
Definition truthy (x : pyint) : bool :=
  match x with
  | Some n => negb (n =? 0)
  | None => false
  end.

(** [x == y] on such values. *)
Definition pyint_eqb (x y : pyint) : bool :=
  match x, y with
  | Some a, Some b => a =? b
  | None, None => true
  | _, _ => false
  end.

(* ================================================================== *)
(** ** Python code over the database                                   *)
(* ================================================================== *)

(** A computation either returns a value or raises; the database it
    leaves behind is kept in both cases (nothing is rolled back). *)
Inductive outcome (A : Type) : Type :=
| Returns (a : A)
| Raises.
Arguments Returns {A} a.
Arguments Raises {A}.

Definition Py (A : Type) : Type := database -> outcome A * database.

Definition ret {A : Type} (a : A) : Py A := fun db => (Returns a, db).

Definition bind {A B : Type} (m : Py A) (k : A -> Py B) : Py B :=
  fun db =>
    match m db with
    | (Returns a, db') => k a db'
    | (Raises, db') => (Raises, db')
    end.

Notation "x <- m ;; k" := (bind m (fun x => k))
  (at level 61, m at next level, right associativity).
Notation "' p <- m ;; k" := (bind m (fun p => k))
  (at level 61, p pattern, m at next level, right associativity).
Notation "m ;;; k" := (bind m (fun _ => k))
  (at level 61, right associativity).

(** The circumstances of one helper call: the clock reading of
    [datetime.datetime.now()], whether the statement raises inside the
    [try] (connection refused, database locked, ...), and whether an
    exception leaves the helper (raised by [conn.close()] in the
    [finally] clause, or while logging in a handler). *)
Record call : Type := mkCall {
  now : Clock.datetime;
  db_error : bool;
  escapes : bool
}.

(** The shape all helpers share:
    [try: stmt  except sqlite3.Error / Exception: log; return default
     finally: if conn: conn.close()]. *)
Definition try_except_finally {A : Type} (c : call) (default : A)
    (stmt : database -> A * database) : Py A :=
  fun db =>
    let '(a, db') := if db_error c then (default, db) else stmt db in
    (if escapes c then Raises else Returns a, db').

(** *** The SQL statements *)

(** [SELECT id, filter_state FROM filter_state ORDER BY id DESC LIMIT 1],
    with the helper's answer [(None, 'OFF')] for an empty table. *)
Definition select_last_filter_state (db : database) : pyint * string :=
  match order_by_desc_limit_1 fs_id (filter_state db) with
  | None => (None, "OFF")
  | Some result => (Some (fs_id result), fs_filter_state result)
  end.

(** [SELECT user_input FROM user_control ORDER BY id DESC LIMIT 1] *)
Definition select_latest_user_control (db : database) : string :=
  match order_by_desc_limit_1 uc_id (user_control db) with
  | None => "OFF"
  | Some row => uc_user_input row
  end.

(** [SELECT event_id FROM processed_events WHERE event_id=?], then
    [result is not None]. *)
Definition select_processed (event_id : pyint) (db : database) : bool :=
  match fetchone (fun r => pyint_eqb (Some (pe_event_id r)) event_id)
                 (processed_events db) with
  | Some _ => true
  | None => false
  end.

(** [INSERT INTO processed_events (event_id, action, processed_timestamp)] *)
Definition insert_processed_event (e : Z) (action timestamp : string)
    (db : database) : database :=
  let id := next_rowid (seq_processed_events db)
                       (map pe_processed_id (processed_events db)) in
  mkDatabase (filter_state db) (user_control db)
    (processed_events db ++ [mkProcessed id e action timestamp])%list
    (reminders db)
    (seq_filter_state db) (seq_user_control db) id (seq_reminders db).

(** [INSERT INTO reminders (event_id, reminder_time, reminder_type)] *)
Definition insert_reminder (e : Z) (reminder_time reminder_type : string)
    (db : database) : database :=
  let id := next_rowid (seq_reminders db)
                       (map rm_reminder_id (reminders db)) in
  mkDatabase (filter_state db) (user_control db) (processed_events db)
    (reminders db ++ [mkReminder id e reminder_time reminder_type])%list
    (seq_filter_state db) (seq_user_control db)
    (seq_processed_events db) id.

(** [WHERE reminder_time <= ?]: a comparison of TEXT values, byte by
    byte. *)
Definition is_due (current_time : string) (r : reminder_row) : bool :=
  (rm_reminder_time r <=? current_time)%string.

(** [SELECT event_id, reminder_id FROM reminders WHERE reminder_time <= ?],
    then [result if result else (None, None)]. *)
Definition select_due_reminder (current_time : string) (db : database)
  : pyint * pyint :=
  match fetchone (is_due current_time) (reminders db) with
  | Some result => (Some (rm_event_id result), Some (rm_reminder_id result))
  | None => (None, None)
  end.

(** [DELETE FROM reminders WHERE reminder_id=?] *)
Definition delete_reminder (reminder_id : pyint) (db : database) : database :=
  mkDatabase (filter_state db) (user_control db) (processed_events db)
    (filter (fun r => negb (pyint_eqb (Some (rm_reminder_id r)) reminder_id))
            (reminders db))
    (seq_filter_state db) (seq_user_control db)
    (seq_processed_events db) (seq_reminders db).

(** [INSERT INTO user_control (timestamp, user_input)] *)
Definition insert_user_control (timestamp state : string) (db : database)
  : database :=
  let id := next_rowid (seq_user_control db) (map uc_id (user_control db)) in
  mkDatabase (filter_state db)
    (user_control db ++ [mkUserControl id timestamp state])%list
    (processed_events db) (reminders db)
    (seq_filter_state db) id (seq_processed_events db) (seq_reminders db).

(** *** The helper functions *)

Definition get_last_filter_state (c : call) : Py (pyint * string) :=
  try_except_finally c (None, "OFF")
    (fun db => (select_last_filter_state db, db)).

Definition get_latest_user_control (c : call) : Py string :=
  try_except_finally c "OFF"
    (fun db => (select_latest_user_control db, db)).

Definition is_event_processed (c : call) (event_id : pyint) : Py bool :=
  try_except_finally c false
    (fun db => (select_processed event_id db, db)).

(** [event_id INTEGER NOT NULL]: inserting [None] raises
    [sqlite3.IntegrityError], which the helper logs. *)
Definition record_event_as_processed (c : call) (event_id : pyint)
    (action : string) : Py unit :=
  try_except_finally c tt (fun db =>
    let timestamp := Clock.strftime (now c) in
    match event_id with
    | Some e => (tt, insert_processed_event e action timestamp db)
    | None => (tt, db)
    end).

(** A sum past [MAXYEAR] raises [OverflowError] inside the [try]. *)
Definition add_reminder (c : call) (event_id : pyint) (delay_minutes : Z)
    (reminder_type : string) : Py unit :=
  try_except_finally c tt (fun db =>
    match Clock.add_minutes (now c) delay_minutes, event_id with
    | Some due, Some e =>
        let reminder_time := Clock.strftime due in
        (tt, insert_reminder e reminder_time reminder_type db)
    | _, _ => (tt, db)
    end).

Definition get_due_reminder (c : call) : Py (pyint * pyint) :=
  try_except_finally c (None, None) (fun db =>
    let current_time := Clock.strftime (now c) in
    (select_due_reminder current_time db, db)).

Definition remove_reminder (c : call) (reminder_id : pyint) : Py unit :=
  try_except_finally c tt (fun db => (tt, delete_reminder reminder_id db)).

Definition update_user_control_decision (c : call) (state : string) : Py unit :=
  try_except_finally c tt (fun db =>
    let timestamp := Clock.strftime (now c) in
    (tt, insert_user_control timestamp state db)).

(* ================================================================== *)
(** ** The modal handling callback                                     *)
(* ================================================================== *)

(** What one invocation of the callback meets: the [prop_id]s of
    [callback_context.triggered] and the circumstances of each helper
    call.  No helper is called twice in one invocation. *)
Record env : Type := mkEnv {
  triggered : list string;
  at_get_last_filter_state : call;
  at_get_due_reminder : call;
  at_is_event_processed : call;
  at_record_event_as_processed : call;
  at_add_reminder : call;
  at_remove_reminder : call;
  at_update_user_control_decision : call
}.

(** [prop_id.split(".")[0]] *)
Fixpoint before_dot (s : string) : string :=
  match s with
  | EmptyString => EmptyString
  | String c rest =>
      if Ascii.eqb c "." then EmptyString else String c (before_dot rest)
  end.

(** [callback_context.triggered[0]["prop_id"].split(".")[0]];
    [IndexError] on an empty list. *)
Definition first_triggered_id (ctx : list string) : Py string :=
  match ctx with
  | [] => fun db => (Raises, db)
  | prop_id :: _ => ret (before_dot prop_id)
  end.

(** The local variables of the callback. *)
Record locals : Type := mkLocals {
  modal_open : bool;
  disclaimer_open : bool;
  caution_open : bool;
  status_message : string;
  updated_alert_shown : bool
}.

(** The eight outputs: main modal [is_open], [on-alert-shown],
    [relay-status], disclaimer [is_open], caution [is_open], and the
    three stores [modal-open-state], [disclaimer-modal-open],
    [caution-modal-open]. *)
Definition outputs : Type :=
  (bool * bool * string * bool * bool * bool * bool * bool)%type.

(** "Check if a reminder is due" and "If interval triggered,
    filter_state=ON, and event not processed": the first [if]/[elif]. *)
Definition reminder_or_prompt (e : env) (triggered_id : string)
    (last_event_id : pyint) (last_state : string)
    (due_reminder_event_id reminder_id : pyint) (l : locals) : Py locals :=
  if truthy due_reminder_event_id
     && pyint_eqb due_reminder_event_id last_event_id
     && (last_state =? "ON")%string
  then
    remove_reminder (at_remove_reminder e) reminder_id ;;;
    ret (mkLocals true false false "Reminder due. Showing modal." true)
  else if (triggered_id =? "interval-component")%string
          && (last_state =? "ON")%string
          && truthy last_event_id
  then
    processed <- is_event_processed (at_is_event_processed e) last_event_id ;;
    if negb processed then
      record_event_as_processed (at_record_event_as_processed e)
                                last_event_id "SHOWING_MODAL" ;;;
      ret (mkLocals true false false
             ("Filter ON detected. Event "
                ++ match last_event_id with
                   | Some n => Clock.str_of_int n
                   | None => "None"
                   end
                ++ ". User attention required.")
             true)
    else ret l
  else ret l.

(** "Handle user clicks": the second [if]/[elif] chain. *)
Definition user_clicks (e : env) (triggered_id : string)
    (last_event_id : pyint) (l : locals) : Py locals :=
  if (triggered_id =? "enable-fan-filterstate")%string then
    update_user_control_decision (at_update_user_control_decision e) "ON" ;;;
    (if truthy last_event_id
     then record_event_as_processed (at_record_event_as_processed e)
                                    last_event_id "ON"
     else ret tt) ;;;
    ret (mkLocals false false false "Fan enabled by user choice."
                  (updated_alert_shown l))
  else if (triggered_id =? "keep-fan-off-filterstate")%string then
    ret (mkLocals false true false
                  "User chose to keep fan off, showing disclaimer."
                  (updated_alert_shown l))
  else if (triggered_id =? "remind-me-filterstate")%string then
    (if truthy last_event_id
     then add_reminder (at_add_reminder e) last_event_id 20 "20 minutes" ;;;
          record_event_as_processed (at_record_event_as_processed e)
                                    last_event_id "REMIND_20"
     else ret tt) ;;;
    ret (mkLocals false false false "Reminder set for 20 minutes."
                  (updated_alert_shown l))
  else if (triggered_id =? "remind-me-hour-filterstate")%string then
    (if truthy last_event_id
     then add_reminder (at_add_reminder e) last_event_id 60 "1 hour" ;;;
          record_event_as_processed (at_record_event_as_processed e)
                                    last_event_id "REMIND_60"
     else ret tt) ;;;
    ret (mkLocals false false false "Reminder set for 1 hour."
                  (updated_alert_shown l))
  else if (triggered_id =? "disclaimer-yes")%string then
    update_user_control_decision (at_update_user_control_decision e) "OFF" ;;;
    (if truthy last_event_id
     then record_event_as_processed (at_record_event_as_processed e)
                                    last_event_id "OFF"
     else ret tt) ;;;
    ret (mkLocals false false true
                  "User insisted on keeping fan off, showing caution."
                  (updated_alert_shown l))
  else if (triggered_id =? "disclaimer-no")%string then
    update_user_control_decision (at_update_user_control_decision e) "ON" ;;;
    (if truthy last_event_id
     then record_event_as_processed (at_record_event_as_processed e)
                                    last_event_id "ON"
     else ret tt) ;;;
    ret (mkLocals false false false
                  "User changed mind at disclaimer, fan enabled."
                  (updated_alert_shown l))
  else if (triggered_id =? "caution-close")%string then
    ret (mkLocals false false false
                  "Caution modal closed, user aware fan is off."
                  (updated_alert_shown l))
  else ret l.

Definition returned (l : locals) : outputs :=
  (modal_open l, updated_alert_shown l, status_message l,
   disclaimer_open l, caution_open l,
   modal_open l, disclaimer_open l, caution_open l).

(** The body of the [try]. The click counters and [n_intervals] are
    parameters of the callback that its body never reads. *)
Definition callback_body (e : env)
    (alert_shown modal_open_state disclaimer_open_state caution_open_state : bool)
  : Py outputs :=
  triggered_id <- first_triggered_id (triggered e) ;;
  let start := mkLocals modal_open_state disclaimer_open_state
                        caution_open_state "Monitoring filter state..."
                        alert_shown in
  ' (last_event_id, last_state) <-
      get_last_filter_state (at_get_last_filter_state e) ;;
  ' (due_reminder_event_id, reminder_id) <-
      get_due_reminder (at_get_due_reminder e) ;;
  l1 <- reminder_or_prompt e triggered_id last_event_id last_state
                           due_reminder_event_id reminder_id start ;;
  l2 <- user_clicks e triggered_id last_event_id l1 ;;
  ret (returned l2).

(** [except Exception]: "just return the states unchanged". *)
Definition handle_filter_state_event (e : env)
    (alert_shown modal_open_state disclaimer_open_state caution_open_state : bool)
    (db : database) : outputs * database :=
  match callback_body e alert_shown modal_open_state disclaimer_open_state
                      caution_open_state db with
  | (Returns out, db') => (out, db')
  | (Raises, db') =>
      ((modal_open_state, alert_shown,
        "Error encountered in callback. Check logs.",
        disclaimer_open_state, caution_open_state,
        modal_open_state, disclaimer_open_state, caution_open_state), db')
  end.

(* ================================================================== *)
(** ** The session: the four [dcc.Store]s carried across invocations   *)
(* ================================================================== *)

Record session : Type := mkSession {
  on_alert_shown : bool;
  modal_open_state : bool;
  disclaimer_modal_open : bool;
  caution_modal_open : bool
}.

(** [data=False] for all four stores. *)
Definition initial_session : session := mkSession false false false false.

(** Outputs 2, 6, 7 and 8 are written back to the stores. *)
Definition stored (out : outputs) : session :=
  let '(_, alert, _, _, _, m, d, c) := out in mkSession alert m d c.

Definition invoke (e : env) (s : session) (db : database)
  : outputs * database :=
  handle_filter_state_event e (on_alert_shown s) (modal_open_state s)
    (disclaimer_modal_open s) (caution_modal_open s) db.

(** The four conceptual states, read off the three dialog flags. *)
Inductive dialog : Type := IDLE | PROMPTING | DISCLAIMING | CAUTIONING.

Definition dialog_of (s : session) : option dialog :=
  match modal_open_state s, disclaimer_modal_open s, caution_modal_open s with
  | false, false, false => Some IDLE
  | true, false, false => Some PROMPTING
  | false, true, false => Some DISCLAIMING
  | false, false, true => Some CAUTIONING
  | _, _, _ => None
  end.

(** Between two invocations the sensor pipeline, the only other writer,
    may have replaced the contents of [filter_state]; the callback's own
    tables stay as the callback left them. *)
Record step : Type := mkStep {
  sensor_filter_state : list filter_state_row;
  sensor_seq : Z;
  step_env : env
}.

Definition sensor_writes (st : step) (db : database) : database :=
  mkDatabase (sensor_filter_state st) (user_control db) (processed_events db)
             (reminders db) (sensor_seq st) (seq_user_control db)
             (seq_processed_events db) (seq_reminders db).

Fixpoint run (steps : list step) (s : session) (db : database)
  : session * database :=
  match steps with
  | [] => (s, db)
  | st :: rest =>
      let '(out, db') := invoke (step_env st) s (sensor_writes st db) in
      run rest (stored out) db'
  end.

(* ================================================================== *)
(** ** Vocabulary for the statements                                   *)
(* ================================================================== *)

(** A helper call during which the database behaves. *)
Definition quiet (c : call) : Prop :=
  db_error c = false /\ escapes c = false.

Definition no_faults (e : env) : Prop :=
  quiet (at_get_last_filter_state e) /\
  quiet (at_get_due_reminder e) /\
  quiet (at_is_event_processed e) /\
  quiet (at_record_event_as_processed e) /\
  quiet (at_add_reminder e) /\
  quiet (at_remove_reminder e) /\
  quiet (at_update_user_control_decision e).

(** No exception leaves any helper (statements may still fail inside). *)
Definition nothing_escapes (e : env) : Prop :=
  escapes (at_get_last_filter_state e) = false /\
  escapes (at_get_due_reminder e) = false /\
  escapes (at_is_event_processed e) = false /\
  escapes (at_record_event_as_processed e) = false /\
  escapes (at_add_reminder e) = false /\
  escapes (at_remove_reminder e) = false /\
  escapes (at_update_user_control_decision e) = false.

(** The component whose property fired the callback. *)
Definition triggered_by (e : env) (id : string) : Prop :=
  exists prop_id rest,
    triggered e = prop_id :: rest /\ before_dot prop_id = id.

(** What the due-reminder query answers during invocation [e]. *)
Definition due_now (e : env) (db : database) : pyint * pyint :=
  select_due_reminder (Clock.strftime (now (at_get_due_reminder e))) db.

(** The guard of the reminder branch. *)
Definition reminder_fires (e : env) (db : database) : bool :=
  truthy (fst (due_now e db))
  && pyint_eqb (fst (due_now e db)) (fst (select_last_filter_state db))
  && (snd (select_last_filter_state db) =? "ON")%string.

(** An environment in which every helper call happens at [t] and
    nothing fails. *)
Definition calm (ctx : list string) (t : Clock.datetime) : env :=
  let c := mkCall t false false in mkEnv ctx c c c c c c c.

(** At most one of the three dialogs is open. *)
Definition at_most_one_open (s : session) : Prop :=
  dialog_of s <> None.

(** The local variables as the callback initialises them. *)
Definition start_locals (s : session) : locals :=
  mkLocals (modal_open_state s) (disclaimer_modal_open s)
           (caution_modal_open s) "Monitoring filter state..."
           (on_alert_shown s).

(** The locals once the reminder branch has run. *)
Definition reminder_locals : locals :=
  mkLocals true false false "Reminder due. Showing modal." true.

(** The database once the reminder check has run on a click. *)
Definition consume_due (e : env) (db : database) : database :=
  if reminder_fires e db then delete_reminder (snd (due_now e db)) db else db.

(** The number of [SHOWING_MODAL] rows the ledger holds for an event. *)
Definition shown (eid : Z) (rows : list processed_event_row) : nat :=
  List.length
    (filter (fun r => (pe_event_id r =? eid)
                      && (pe_action r =? "SHOWING_MODAL")%string) rows).

(** First output: [is_open] of the main modal. *)
Definition main_modal (out : outputs) : bool :=
  let '(m, _, _, _, _, _, _, _) := out in m.

(** The [is_open] outputs and the stores written with them agree. *)
Definition coherent (out : outputs) : Prop :=
  let '(m, _, _, d, c, m', d', c') := out in m = m' /\ d = d' /\ c = c'.

(** The same invocation with the statement of a call going through. *)
Definition succeeding (c : call) : call := mkCall (now c) false (escapes c).

(** The same invocation with correct answers from [filter_state] and
    [reminders]. *)
Definition with_correct_reads (e : env) : env :=
  mkEnv (triggered e)
        (succeeding (at_get_last_filter_state e))
        (succeeding (at_get_due_reminder e))
        (at_is_event_processed e) (at_record_event_as_processed e)
        (at_add_reminder e) (at_remove_reminder e)
        (at_update_user_control_decision e).

(** A sustained outage: every read of the invocation fails. *)
Definition reads_fail (e : env) : Prop :=
  db_error (at_get_last_filter_state e) = true /\
  db_error (at_get_due_reminder e) = true /\
  db_error (at_is_event_processed e) = true.

(** Invocation [e] in session [s] on [db] leaves dialog [d] open (or
    none, for [IDLE]) and a database satisfying [post]. *)
Definition transition (e : env) (s : session) (db : database) (d : dialog)
    (post : database -> Prop) : Prop :=
  exists out db',
    invoke e s db = (out, db') /\
    dialog_of (stored out) = Some d /\
    post db'.

(** [db'] is [db] with one more row [state] in [user_control] and one
    more row [(eid, state)] in [processed_events]. *)
Definition decision_recorded (state : string) (eid : Z)
    (db db' : database) : Prop :=
  exists i1 t1 i2 t2,
    user_control db' = (user_control db ++ [mkUserControl i1 t1 state])%list /\
    processed_events db'
    = (processed_events db ++ [mkProcessed i2 eid state t2])%list.

(** A decision as the click handlers leave it: the two rows of
    [decision_recorded], [filter_state] as it was, and the reminders
    that the reminder check of the invocation left. *)
Definition decided (e : env) (state : string) (eid : Z)
    (db db' : database) : Prop :=
  decision_recorded state eid db db' /\
  filter_state db' = filter_state db /\
  reminders db' = reminders (consume_due e db).

(** [db'] is [db] after the reminder check of the invocation alone:
    [db] itself, or [db] less the reminder that fired. *)
Definition reminder_check_only (e : env) (db db' : database) : Prop :=
  db' = consume_due e db.

(** The two deferral buttons: component id, delay in minutes, label of
    the reminder, action recorded in the ledger. *)
Definition deferrals : list (string * Z * string * string) :=
  [("remind-me-filterstate", 20, "20 minutes", "REMIND_20");
   ("remind-me-hour-filterstate", 60, "1 hour", "REMIND_60")].

(** What a deferral leaves behind: one more reminder, one more ledger
    row, and an event that ticks no longer prompt for. *)
Definition deferred (e : env) (db : database) (eid : Z)
    (due : Clock.datetime) (label action : string) (db' : database) : Prop :=
  (exists rid,
      reminders db'
      = (reminders (consume_due e db)
           ++ [mkReminder rid eid (Clock.strftime due) label])%list) /\
  (exists pid ts,
      processed_events db'
      = (processed_events db ++ [mkProcessed pid eid action ts])%list) /\
  (forall e2 s2 db2,
      no_faults e2 ->
      triggered_by e2 "interval-component" ->
      (exists more,
          processed_events db2 = (processed_events db' ++ more)%list) ->
      fst (select_last_filter_state db2) = Some eid ->
      reminder_fires e2 db2 = false ->
      invoke e2 s2 db2 = (returned (start_locals s2), db2)).

(** A triple for code that may fail: from a database satisfying [P],
    [m] either returns [a] and leaves a database with [Q a], or raises
    and leaves a database with [X]. *)
Definition triple {A : Type} (P : database -> Prop) (m : Py A)
    (Q : A -> database -> Prop) (X : database -> Prop) : Prop :=
  forall db, P db ->
    match m db with
    | (Returns a, db') => Q a db'
    | (Raises, db') => X db'
    end.

(** The session the callback hands to the stores when it returns with
    locals [l]. *)
Definition locals_session (l : locals) : session :=
  mkSession (updated_alert_shown l) (modal_open l) (disclaimer_open l)
            (caution_open l).

(** The seven buttons. *)
Definition is_click (triggered_id : string) : bool :=
  existsb (String.eqb triggered_id)
    ["enable-fan-filterstate"; "keep-fan-off-filterstate";
     "remind-me-filterstate"; "remind-me-hour-filterstate";
     "disclaimer-yes"; "disclaimer-no"; "caution-close"].

(** [shown] plus one while the event has no row at all: a quantity no
    step of the callback increases as long as the ledger can be read. *)
Definition potential (eid : Z) (rows : list processed_event_row) : nat :=
  (shown eid rows
   + if existsb (fun r => (pe_event_id r =? eid)%Z) rows then 0 else 1)%nat.

(** The sessions the stores can hold: the initial one, and whatever an
    invocation writes back, under any circumstances and on any
    database. *)
Inductive reachable : session -> Prop :=
| reachable_initial : reachable initial_session
| reachable_invoke (e : env) (s : session) (db : database) :
    reachable s -> reachable (stored (fst (invoke e s db))).

(** What the three reads hand to the callback when no exception
    leaves them: the answer of the statement, or the helper's default
    when the statement fails. *)
Definition seen_last (e : env) (db : database) : pyint * string :=
  if db_error (at_get_last_filter_state e) then (None, "OFF")
  else select_last_filter_state db.

Definition seen_due (e : env) (db : database) : pyint * pyint :=
  if db_error (at_get_due_reminder e) then (None, None) else due_now e db.

Definition seen_processed (e : env) (event_id : pyint) (db : database) : bool :=
  if db_error (at_is_event_processed e) then false
  else select_processed event_id db.

(** The guards of the two branches that open the main modal, on the
    values the callback has seen. *)
Definition reminder_guard (last : pyint) (st : string) (due : pyint) : bool :=
  truthy due && pyint_eqb due last && (st =? "ON")%string.

Definition prompt_guard (triggered_id : string) (last : pyint) (st : string)
  : bool :=
  (triggered_id =? "interval-component")%string && (st =? "ON")%string
  && truthy last.

(** The callback was fired by the interval. *)
Definition is_tick (e : env) : bool :=
  match triggered e with
  | prop_id :: _ => (before_dot prop_id =? "interval-component")%string
  | [] => false
  end.

(** The tick-triggered transition fires for [eid]: on the values the
    callback has seen, the reminder branch is not taken, the [elif] is
    (a tick, [eid] the latest event, ON), and the ledger check answers
    "not processed". *)
Definition auto_prompt_fires (e : env) (db : database) (eid : Z) : bool :=
  is_tick e
  && negb (reminder_guard (fst (seen_last e db)) (snd (seen_last e db))
                          (fst (seen_due e db)))
  && pyint_eqb (fst (seen_last e db)) (Some eid)
  && prompt_guard "interval-component" (Some eid) (snd (seen_last e db))
  && negb (seen_processed e (Some eid) db).

(** How often the transition fires for [eid] along a sequence of
    invocations. *)
Fixpoint firings (eid : Z) (steps : list step) (s : session) (db : database)
  : nat :=
  match steps with
  | [] => 0%nat
  | st :: rest =>
      let '(out, db') := invoke (step_env st) s (sensor_writes st db) in
      ((if auto_prompt_fires (step_env st) (sensor_writes st db) eid
        then 1 else 0)
       + firings eid rest (stored out) db')%nat
  end.

(** No exception leaves a helper, and the ledger can be read and
    written. *)
Definition ledger_works (e : env) : Prop :=
  nothing_escapes e /\
  db_error (at_is_event_processed e) = false /\
  db_error (at_record_event_as_processed e) = false.

(* ================================================================== *)
(** ** A day in the life of the dashboard                              *)
(* ================================================================== *)

Module Scenario.

Definition t0 : Clock.datetime := Clock.mkDatetime 2024 5 17 9 0 0 0.
Definition at_minute (m : Z) : Clock.datetime :=
  Clock.mkDatetime 2024 5 17 9 m 0 0.

Definition tick : list string := ["interval-component.n_intervals"].
Definition approve : list string := ["enable-fan-filterstate.n_clicks"].
Definition decline : list string := ["keep-fan-off-filterstate.n_clicks"].
Definition defer_20 : list string := ["remind-me-filterstate.n_clicks"].
Definition defer_60 : list string := ["remind-me-hour-filterstate.n_clicks"].
Definition disclaimer_confirm : list string := ["disclaimer-yes.n_clicks"].
Definition disclaimer_cancel : list string := ["disclaimer-no.n_clicks"].
Definition caution_acknowledge : list string := ["caution-close.n_clicks"].

Definition empty_db : database := mkDatabase [] [] [] [] 0 0 0 0.

(** Event 5 is ON. *)
Definition fs5 : list filter_state_row :=
  [mkFilterState 4 "2024-05-17 08:00:00" "OFF";
   mkFilterState 5 "2024-05-17 08:59:55" "ON"].

(** The condition has since cleared: event 6 is OFF. *)
Definition fs6 : list filter_state_row :=
  (fs5 ++ [mkFilterState 6 "2024-05-17 09:10:00" "OFF"])%list.

(** Event 5 is the latest condition and nothing has been recorded. *)
Definition db_event5 : database := mkDatabase fs5 [] [] [] 5 0 0 0.

(** The main modal has been shown for event 5. *)
Definition db_event5_shown : database :=
  mkDatabase fs5 []
    [mkProcessed 1 5 "SHOWING_MODAL" "2024-05-17 09:00:00"] [] 5 0 1 0.

(** The operator deferred event 5 at 09:02; the condition cleared at
    09:10, so the reminder of 09:22 is for an event that is no longer
    the latest one. *)
Definition db_stale_reminder : database :=
  mkDatabase fs6 []
    [mkProcessed 1 5 "SHOWING_MODAL" "2024-05-17 09:00:00";
     mkProcessed 2 5 "REMIND_20" "2024-05-17 09:02:00"]
    [mkReminder 1 5 "2024-05-17 09:22:00" "20 minutes"] 6 0 2 1.

(** The reminder for event 5 is pending while event 5 is still ON. *)
Definition db_reminder_pending : database :=
  mkDatabase fs5 []
    [mkProcessed 1 5 "SHOWING_MODAL" "2024-05-17 09:00:00";
     mkProcessed 2 5 "REMIND_20" "2024-05-17 09:02:00"]
    [mkReminder 1 5 "2024-05-17 09:22:00" "20 minutes"] 5 0 2 1.

(** A tick during which [conn.close()] raises in [remove_reminder]. *)
Definition close_raises_in_remove (t : Clock.datetime) : env :=
  let c := mkCall t false false in
  mkEnv tick c c c c c (mkCall t false true) c.

(** A tick during which the ledger cannot be read (database locked,
    say) while every other call goes through. *)
Definition ledger_locked (t : Clock.datetime) : env :=
  let c := mkCall t false false in
  mkEnv tick c c (mkCall t true false) c c c c.

(** A tick during an outage: none of the three reads goes through. *)
Definition outage (t : Clock.datetime) : env :=
  let c := mkCall t false false in
  let down := mkCall t true false in
  mkEnv tick down down down c c c c.

(** A tick during which [filter_state] cannot be read. *)
Definition condition_unreadable (t : Clock.datetime) : env :=
  let c := mkCall t false false in
  mkEnv tick (mkCall t true false) c c c c c c.

(** The operator approved event 5 at 09:01. *)
Definition db_event5_approved : database :=
  mkDatabase fs5
    [mkUserControl 1 "2024-05-17 09:01:00" "ON"]
    [mkProcessed 1 5 "SHOWING_MODAL" "2024-05-17 09:00:00";
     mkProcessed 2 5 "ON" "2024-05-17 09:01:00"] [] 5 1 2 0.

(** The condition returns: event 7 is ON. *)
Definition fs7 : list filter_state_row :=
  (fs6 ++ [mkFilterState 7 "2024-05-17 09:11:30" "ON"])%list.

Definition st (fs : list filter_state_row) (ctx : list string) (m : Z) : step :=
  mkStep fs (fold_right Z.max 0 (map fs_id fs)) (calm ctx (at_minute m)).


(** Event 5 is deferred and clears; event 7 is prompted at 09:12 and
    deferred at 09:13; the tick of 09:40 comes after both reminders are
    due. *)
Definition two_deferrals : list step :=
  [st fs5 tick 0; st fs5 defer_20 2; st fs6 tick 11;
   st fs7 tick 12; st fs7 defer_20 13; st fs7 tick 40].

(** A tick during which the ledger cannot be written while every
    other call goes through. *)
Definition ledger_read_only (t : Clock.datetime) : env :=
  let c := mkCall t false false in
  mkEnv tick c c c (mkCall t true false) c c c.

(** Event 5 is prompted and approved; half an hour later a tick finds
    the ledger locked. *)
Definition approved_then_locked : list step :=
  [st fs5 tick 0; st fs5 approve 1;
   mkStep fs5 5 (ledger_locked (at_minute 30))].

(** The row for event 5 cannot be written at 09:00; the operator
    declines at 09:01 and the next tick comes while the disclaimer is
    open. *)
Definition unrecorded_then_declined : list step :=
  [mkStep fs5 5 (ledger_read_only t0); st fs5 decline 1; st fs5 tick 2].

(** Event 5 is prompted at 09:00; the condition clears (event 6, OFF)
    before the operator answers at 09:01. *)
Definition prompted_then_cleared (answer : list string) : list step :=
  [st fs5 tick 0; st fs6 answer 1].



End Scenario.

(* ================================================================== *)
(** ** The fan status and the gauge colour                             *)
(* ================================================================== *)

(** [html.Span(text, style={"color": color})] *)
Record span : Type := mkSpan {
  span_text : string;
  span_color : string
}.

Definition fan_on : span := mkSpan "Fan is currently ON" "green".
Definition fan_off : span := mkSpan "Fan is currently OFF" "red".
Definition fan_unknown : span := mkSpan "Fan status unknown" "gray".

(** The body of the [try] of [update_fan_status]; [c1] and [c2] are
    the circumstances of its two reads. *)
Definition update_fan_status_body (c1 c2 : call) : Py span :=
  ' (_, last_filter_state) <- get_last_filter_state c1 ;;
  last_user_control <- get_latest_user_control c2 ;;
  if (last_filter_state =? "ON")%string && (last_user_control =? "ON")%string
  then ret fan_on
  else ret fan_off.

(** [except Exception]: "Fallback text". *)
Definition update_fan_status (c1 c2 : call) (db : database) : span :=
  match update_fan_status_body c1 c2 db with
  | (Returns shown_span, _) => shown_span
  | (Raises, _) => fan_unknown
  end.

(** [get_gauge_color(aqi)]; the argument is [round(...)] of a reading,
    an integer. *)
Definition get_gauge_color (aqi : Z) : string :=
  if aqi <? 50 then "green"
  else if aqi <? 100 then "yellow"
  else if aqi <? 150 then "orange"
  else "red".

(** How alarming a gauge colour is. *)
Definition severity (color : string) : Z :=
  if (color =? "green")%string then 0
  else if (color =? "yellow")%string then 1
  else if (color =? "orange")%string then 2
  else 3.

(* ================================================================== *)
(** ** More vocabulary                                                 *)
(* ================================================================== *)

(** Keys as [AUTOINCREMENT] hands them out: positive, increasing in
    rowid order, and not above the counter. *)
Fixpoint increasing_from (lo : Z) (ids : list Z) : Prop :=
  match ids with
  | [] => True
  | i :: rest => lo < i /\ increasing_from i rest
  end.

Definition keys_ok (seq : Z) (ids : list Z) : Prop :=
  increasing_from 0 ids /\ (forall i, In i ids -> i <= seq) /\ 0 <= seq.

(** The three tables the callback writes have such keys. *)
Definition well_keyed (db : database) : Prop :=
  keys_ok (seq_user_control db) (map uc_id (user_control db)) /\
  keys_ok (seq_processed_events db)
          (map pe_processed_id (processed_events db)) /\
  keys_ok (seq_reminders db) (map rm_reminder_id (reminders db)).

(** [db'] has the conditions of [db] and its decisions and ledger rows,
    in place, possibly followed by new ones. *)
Definition grown_from (db db' : database) : Prop :=
  filter_state db' = filter_state db /\
  (exists more, user_control db' = (user_control db ++ more)%list) /\
  (exists more, processed_events db' = (processed_events db ++ more)%list).

(** Third output: the text of [relay-status]. *)
Definition relay_status (out : outputs) : string :=
  let '(_, _, status, _, _, _, _, _) := out in status.

(** The buttons that schedule nothing. *)
Definition answers : list string :=
  ["enable-fan-filterstate"; "keep-fan-off-filterstate";
   "disclaimer-yes"; "disclaimer-no"; "caution-close"].

(** An invocation in which only the statement of [add_reminder] may
    fail. *)
Definition only_add_reminder_fails (e : env) : Prop :=
  quiet (at_get_last_filter_state e) /\
  quiet (at_get_due_reminder e) /\
  quiet (at_is_event_processed e) /\
  quiet (at_record_event_as_processed e) /\
  escapes (at_add_reminder e) = false /\
  quiet (at_remove_reminder e) /\
  quiet (at_update_user_control_decision e).

(** An invocation in which only the statement of
    [record_event_as_processed] fails. *)
Definition only_record_fails (e : env) : Prop :=
  quiet (at_get_last_filter_state e) /\
  quiet (at_get_due_reminder e) /\
  quiet (at_is_event_processed e) /\
  db_error (at_record_event_as_processed e) = true /\
  escapes (at_record_event_as_processed e) = false /\
  quiet (at_add_reminder e) /\
  quiet (at_remove_reminder e) /\
  quiet (at_update_user_control_decision e).

(** A component id without a dot, as every id of the layout is. *)
Fixpoint dot_free (s : string) : bool :=
  match s with
  | EmptyString => true
  | String c rest => negb (Ascii.eqb c ".") && dot_free rest
  end.

(* ================================================================== *)
(** ** The model at work                                               *)
(* ================================================================== *)

Example strftime_pads :
  Clock.strftime (Clock.mkDatetime 2024 3 9 7 5 0 123456)
  = "2024-03-09 07:05:00".
Proof. reflexivity. Qed.

Example add_minutes_new_year :
  Clock.add_minutes (Clock.mkDatetime 2023 12 31 23 50 7 9) 20
  = Some (Clock.mkDatetime 2024 1 1 0 10 7 9).
Proof. reflexivity. Qed.

Example before_dot_prop_id :
  before_dot "remind-me-hour-filterstate.n_clicks"
  = "remind-me-hour-filterstate".
Proof. reflexivity. Qed.

Example latest_row_by_id :
  select_last_filter_state
    (mkDatabase [mkFilterState 9 "2024-05-17 08:00:00" "ON";
                 mkFilterState 3 "2024-05-17 07:00:00" "OFF"]
                [] [] [] 9 0 0 0)
  = (Some 9, "ON").
Proof. reflexivity. Qed.

(** The end-to-end scenario: event 5 is prompted on a tick, deferred
    for 20 minutes, prompted again once the reminder is due, and
    approved. *)
Example end_to_end :
  let steps := [Scenario.st Scenario.fs5 Scenario.tick 0;
                Scenario.st Scenario.fs5 Scenario.defer_20 1;
                Scenario.st Scenario.fs5 Scenario.tick 22;
                Scenario.st Scenario.fs5 Scenario.approve 23] in
  let after n := run (firstn n steps) initial_session Scenario.empty_db in
  map (fun n => dialog_of (fst (after n))) [1; 2; 3; 4]%nat
  = [Some PROMPTING; Some IDLE; Some PROMPTING; Some IDLE] /\
  map rm_event_id (reminders (snd (after 2%nat))) = [5] /\
  reminders (snd (after 3%nat)) = [] /\
  map pe_action (processed_events (snd (after 4%nat)))
  = ["SHOWING_MODAL"; "REMIND_20"; "ON"] /\
  map uc_user_input (user_control (snd (after 4%nat))) = ["ON"].
Proof. vm_compute. repeat split. Qed.

(* ================================================================== *)
(** ** Basic facts about helper calls                                  *)
(* ================================================================== *)

Lemma try_quiet {A : Type} (c : call) (d : A) stmt db :
  quiet c ->
  try_except_finally c d stmt db = (Returns (fst (stmt db)), snd (stmt db)).
Proof.
  intros [E1 E2]. unfold try_except_finally. rewrite E1, E2.
  destruct (stmt db); reflexivity.
Qed.

Lemma bind_returns {A B : Type} (m : Py A) (k : A -> Py B) db a db' :
  m db = (Returns a, db') -> bind m k db = k a db'.
Proof. intros H. unfold bind. rewrite H. reflexivity. Qed.

Lemma truthy_Some (n : Z) : n <> 0 -> truthy (Some n) = true.
Proof. intros H. simpl. apply negb_true_iff, Z.eqb_neq, H. Qed.

Lemma pyint_eqb_eq (x y : pyint) : pyint_eqb x y = true <-> x = y.
Proof.
  destruct x, y; simpl; split; intros H; try discriminate; try reflexivity.
  - apply Z.eqb_eq in H. congruence.
  - inversion H. apply Z.eqb_refl.
Qed.

(* ================================================================== *)
(** ** Row ids                                                         *)
(* ================================================================== *)

(** An [AUTOINCREMENT] key is larger than every key of the table and
    than the counter, so it is positive, and in particular true in an
    [if], in a database whose counters start at 0. *)
Lemma next_rowid_fresh (seq : Z) (ids : list Z) :
  seq < next_rowid seq ids /\ forall i, In i ids -> i < next_rowid seq ids.
Proof.
  unfold next_rowid. induction ids as [|j ids [IH1 IH2]]; cbn [fold_right In].
  - split; [lia|]. intros i [].
  - split; [lia|]. intros i [<- | Hin]; [lia|].
    specialize (IH2 i Hin). lia.
Qed.

Lemma inserted_event_id_true (seq : Z) (ids : list Z) :
  0 <= seq -> truthy (Some (next_rowid seq ids)) = true.
Proof.
  intros H. destruct (next_rowid_fresh seq ids) as [Hseq _].
  apply truthy_Some. lia.
Qed.

Section QuietHelpers.

Variable c : call.
Hypothesis Hc : quiet c.

Lemma get_last_filter_state_quiet db :
  get_last_filter_state c db = (Returns (select_last_filter_state db), db).
Proof. unfold get_last_filter_state. now rewrite try_quiet. Qed.

Lemma get_due_reminder_quiet db :
  get_due_reminder c db
  = (Returns (select_due_reminder (Clock.strftime (now c)) db), db).
Proof. unfold get_due_reminder. now rewrite try_quiet. Qed.

Lemma is_event_processed_quiet event_id db :
  is_event_processed c event_id db
  = (Returns (select_processed event_id db), db).
Proof. unfold is_event_processed. now rewrite try_quiet. Qed.

Lemma record_event_as_processed_quiet n action db :
  record_event_as_processed c (Some n) action db
  = (Returns tt, insert_processed_event n action (Clock.strftime (now c)) db).
Proof. unfold record_event_as_processed. now rewrite try_quiet. Qed.

Lemma add_reminder_quiet n delay label due db :
  Clock.add_minutes (now c) delay = Some due ->
  add_reminder c (Some n) delay label db
  = (Returns tt, insert_reminder n (Clock.strftime due) label db).
Proof.
  intros Hdue. unfold add_reminder. rewrite try_quiet by assumption.
  now rewrite Hdue.
Qed.

Lemma remove_reminder_quiet rid db :
  remove_reminder c rid db = (Returns tt, delete_reminder rid db).
Proof. unfold remove_reminder. now rewrite try_quiet. Qed.

Lemma update_user_control_decision_quiet state db :
  update_user_control_decision c state db
  = (Returns tt, insert_user_control (Clock.strftime (now c)) state db).
Proof. unfold update_user_control_decision. now rewrite try_quiet. Qed.

End QuietHelpers.

(** Replaces closed comparisons of component ids by their value. *)
Ltac compare_ids :=
  repeat match goal with
  | |- context [String.eqb ?a ?b] =>
      let r := eval vm_compute in (String.eqb a b) in
      match r with
      | true => change (String.eqb a b) with true
      | false => change (String.eqb a b) with false
      end
  end;
  cbv beta iota.

(* ================================================================== *)
(** ** The two halves of the callback when nothing fails               *)
(* ================================================================== *)

Lemma invoke_quiet_reads e s db prop_id rest :
  quiet (at_get_last_filter_state e) ->
  quiet (at_get_due_reminder e) ->
  triggered e = prop_id :: rest ->
  callback_body e (on_alert_shown s) (modal_open_state s)
    (disclaimer_modal_open s) (caution_modal_open s) db
  = (l1 <- reminder_or_prompt e (before_dot prop_id)
             (fst (select_last_filter_state db))
             (snd (select_last_filter_state db))
             (fst (due_now e db)) (snd (due_now e db)) (start_locals s) ;;
     l2 <- user_clicks e (before_dot prop_id)
             (fst (select_last_filter_state db)) l1 ;;
     ret (returned l2)) db.
Proof.
  intros Q1 Q2 Htr. unfold callback_body. rewrite Htr.
  unfold first_triggered_id at 1.
  unfold bind at 1, ret at 1.
  erewrite bind_returns by (apply get_last_filter_state_quiet; assumption).
  destruct (select_last_filter_state db) as [last st].
  erewrite bind_returns by (apply get_due_reminder_quiet; assumption).
  unfold due_now.
  destruct (select_due_reminder _ db) as [due rid]. reflexivity.
Qed.

Lemma reminder_branch e tid last st due rid l db :
  quiet (at_remove_reminder e) ->
  truthy due && pyint_eqb due last && (st =? "ON")%string = true ->
  reminder_or_prompt e tid last st due rid l db
  = (Returns (mkLocals true false false "Reminder due. Showing modal." true),
     delete_reminder rid db).
Proof.
  intros Q G. unfold reminder_or_prompt. rewrite G.
  erewrite bind_returns by (apply remove_reminder_quiet; assumption).
  reflexivity.
Qed.

Lemma prompt_branch e last st due rid l db n :
  quiet (at_is_event_processed e) ->
  quiet (at_record_event_as_processed e) ->
  truthy due && pyint_eqb due last && (st =? "ON")%string = false ->
  last = Some n -> n <> 0 -> st = "ON" ->
  select_processed last db = false ->
  reminder_or_prompt e "interval-component" last st due rid l db
  = (Returns (mkLocals true false false
                ("Filter ON detected. Event " ++ Clock.str_of_int n
                   ++ ". User attention required.") true),
     insert_processed_event n "SHOWING_MODAL"
       (Clock.strftime (now (at_record_event_as_processed e))) db).
Proof.
  intros Q1 Q2 G -> Hn -> Hp. unfold reminder_or_prompt. rewrite G.
  rewrite truthy_Some by assumption. compare_ids. cbn [andb].
  erewrite bind_returns by (apply is_event_processed_quiet; assumption).
  rewrite Hp. cbn [negb].
  erewrite bind_returns by (apply record_event_as_processed_quiet; assumption).
  reflexivity.
Qed.

Lemma no_branch e tid last st due rid l db :
  quiet (at_is_event_processed e) ->
  truthy due && pyint_eqb due last && (st =? "ON")%string = false ->
  (tid =? "interval-component")%string && (st =? "ON")%string
     && truthy last && negb (select_processed last db) = false ->
  reminder_or_prompt e tid last st due rid l db = (Returns l, db).
Proof.
  intros Q G1 G2. unfold reminder_or_prompt. rewrite G1.
  destruct ((tid =? "interval-component")%string && (st =? "ON")%string
            && truthy last) eqn:G; [|reflexivity].
  cbn [andb] in G2.
  erewrite bind_returns by (apply is_event_processed_quiet; assumption).
  rewrite G2. reflexivity.
Qed.

Lemma tick_no_click e last l db :
  user_clicks e "interval-component" last l db = (Returns l, db).
Proof. unfold user_clicks. compare_ids. reflexivity. Qed.



(* ================================================================== *)
(** ** The scheduling tick in IDLE                                     *)
(* ================================================================== *)


Lemma calm_no_faults ctx t : no_faults (calm ctx t).
Proof. repeat split. Qed.


(* ================================================================== *)
(** ** Operator actions                                                *)
(* ================================================================== *)

Lemma consume_due_tables e db :
  filter_state (consume_due e db) = filter_state db /\
  user_control (consume_due e db) = user_control db /\
  processed_events (consume_due e db) = processed_events db.
Proof. unfold consume_due. destruct (reminder_fires e db); auto. Qed.

Lemma consume_due_idle e db :
  reminder_fires e db = false -> consume_due e db = db.
Proof. unfold consume_due. now intros ->. Qed.

(** On an operator action the first half of the callback is the
    reminder check alone. *)
Lemma click_reminder_check e tid last st due rid l db :
  quiet (at_remove_reminder e) ->
  (tid =? "interval-component")%string = false ->
  reminder_or_prompt e tid last st due rid l db
  = if truthy due && pyint_eqb due last && (st =? "ON")%string
    then (Returns reminder_locals, delete_reminder rid db)
    else (Returns l, db).
Proof.
  intros Q Htid.
  destruct (truthy due && pyint_eqb due last && (st =? "ON")%string) eqn:G.
  - now apply reminder_branch.
  - unfold reminder_or_prompt. rewrite G, Htid. reflexivity.
Qed.

Lemma invoke_click e s db prop_id rest :
  no_faults e ->
  triggered e = prop_id :: rest ->
  (before_dot prop_id =? "interval-component")%string = false ->
  callback_body e (on_alert_shown s) (modal_open_state s)
    (disclaimer_modal_open s) (caution_modal_open s) db
  = (l2 <- user_clicks e (before_dot prop_id)
             (fst (select_last_filter_state db))
             (if reminder_fires e db then reminder_locals else start_locals s) ;;
     ret (returned l2)) (consume_due e db).
Proof.
  intros (Q1 & Q2 & Q3 & Q4 & Q5 & Q6 & Q7) Htr Htid.
  rewrite (invoke_quiet_reads e s db prop_id rest) by assumption.
  unfold bind at 1.
  rewrite click_reminder_check by assumption.
  unfold consume_due, reminder_fires.
  destruct (truthy (fst (due_now e db))
            && pyint_eqb (fst (due_now e db)) (fst (select_last_filter_state db))
            && (snd (select_last_filter_state db) =? "ON")%string);
    reflexivity.
Qed.

Section Clicks.

Variables (e : env) (eid : Z) (l : locals) (db : database).
Hypothesis NF : no_faults e.
Hypothesis Heid : eid <> 0.

Let ts_record := Clock.strftime (now (at_record_event_as_processed e)).
Let ts_control := Clock.strftime (now (at_update_user_control_decision e)).

Lemma click_enable :
  user_clicks e "enable-fan-filterstate" (Some eid) l db
  = (Returns (mkLocals false false false "Fan enabled by user choice."
                       (updated_alert_shown l)),
     insert_processed_event eid "ON" ts_record
       (insert_user_control ts_control "ON" db)).
Proof.
  destruct NF as (Q1 & Q2 & Q3 & Q4 & Q5 & Q6 & Q7).
  unfold user_clicks. compare_ids.
  erewrite bind_returns by (apply update_user_control_decision_quiet; assumption).
  rewrite truthy_Some by assumption.
  erewrite bind_returns by (apply record_event_as_processed_quiet; assumption).
  reflexivity.
Qed.

Lemma click_keep_off :
  user_clicks e "keep-fan-off-filterstate" (Some eid) l db
  = (Returns (mkLocals false true false
                "User chose to keep fan off, showing disclaimer."
                (updated_alert_shown l)), db).
Proof. unfold user_clicks. compare_ids. reflexivity. Qed.

Lemma click_remind_20 due :
  Clock.add_minutes (now (at_add_reminder e)) 20 = Some due ->
  user_clicks e "remind-me-filterstate" (Some eid) l db
  = (Returns (mkLocals false false false "Reminder set for 20 minutes."
                       (updated_alert_shown l)),
     insert_processed_event eid "REMIND_20" ts_record
       (insert_reminder eid (Clock.strftime due) "20 minutes" db)).
Proof.
  intros Hdue. destruct NF as (Q1 & Q2 & Q3 & Q4 & Q5 & Q6 & Q7).
  unfold user_clicks. compare_ids.
  rewrite truthy_Some by assumption.
  erewrite bind_returns.
  2:{ erewrite bind_returns by (apply add_reminder_quiet; eassumption).
      apply record_event_as_processed_quiet; assumption. }
  reflexivity.
Qed.

Lemma click_remind_60 due :
  Clock.add_minutes (now (at_add_reminder e)) 60 = Some due ->
  user_clicks e "remind-me-hour-filterstate" (Some eid) l db
  = (Returns (mkLocals false false false "Reminder set for 1 hour."
                       (updated_alert_shown l)),
     insert_processed_event eid "REMIND_60" ts_record
       (insert_reminder eid (Clock.strftime due) "1 hour" db)).
Proof.
  intros Hdue. destruct NF as (Q1 & Q2 & Q3 & Q4 & Q5 & Q6 & Q7).
  unfold user_clicks. compare_ids.
  rewrite truthy_Some by assumption.
  erewrite bind_returns.
  2:{ erewrite bind_returns by (apply add_reminder_quiet; eassumption).
      apply record_event_as_processed_quiet; assumption. }
  reflexivity.
Qed.

Lemma click_disclaimer_yes :
  user_clicks e "disclaimer-yes" (Some eid) l db
  = (Returns (mkLocals false false true
                "User insisted on keeping fan off, showing caution."
                (updated_alert_shown l)),
     insert_processed_event eid "OFF" ts_record
       (insert_user_control ts_control "OFF" db)).
Proof.
  destruct NF as (Q1 & Q2 & Q3 & Q4 & Q5 & Q6 & Q7).
  unfold user_clicks. compare_ids.
  erewrite bind_returns by (apply update_user_control_decision_quiet; assumption).
  rewrite truthy_Some by assumption.
  erewrite bind_returns by (apply record_event_as_processed_quiet; assumption).
  reflexivity.
Qed.

Lemma click_disclaimer_no :
  user_clicks e "disclaimer-no" (Some eid) l db
  = (Returns (mkLocals false false false
                "User changed mind at disclaimer, fan enabled."
                (updated_alert_shown l)),
     insert_processed_event eid "ON" ts_record
       (insert_user_control ts_control "ON" db)).
Proof.
  destruct NF as (Q1 & Q2 & Q3 & Q4 & Q5 & Q6 & Q7).
  unfold user_clicks. compare_ids.
  erewrite bind_returns by (apply update_user_control_decision_quiet; assumption).
  rewrite truthy_Some by assumption.
  erewrite bind_returns by (apply record_event_as_processed_quiet; assumption).
  reflexivity.
Qed.

Lemma click_caution_close :
  user_clicks e "caution-close" (Some eid) l db
  = (Returns (mkLocals false false false
                "Caution modal closed, user aware fan is off."
                (updated_alert_shown l)), db).
Proof. unfold user_clicks. compare_ids. reflexivity. Qed.

End Clicks.

(** Runs one operator action: the reminder check, then the handler. *)
Ltac run_click Htr Hid Hlast :=
  unfold invoke, handle_filter_state_event;
  erewrite invoke_click by
    (try eassumption; rewrite Hid; reflexivity);
  rewrite Hid, Hlast; cbn [fst snd].

(* ================================================================== *)
(** ** The ledger suppresses the automatic prompt                      *)
(* ================================================================== *)

Lemma select_processed_true_iff eid db :
  select_processed (Some eid) db = true
  <-> exists r, In r (processed_events db) /\ pe_event_id r = eid.
Proof.
  unfold select_processed, fetchone. split.
  - destruct (find _ (processed_events db)) as [r|] eqn:F; [|discriminate].
    intros _. apply find_some in F. destruct F as [Hin Heq].
    exists r. split; [assumption|]. now apply Z.eqb_eq in Heq.
  - intros (r & Hin & Heq).
    destruct (find _ (processed_events db)) as [r'|] eqn:F; [reflexivity|].
    apply (find_none _ _ F) in Hin. cbn in Hin.
    apply Z.eqb_neq in Hin. contradiction.
Qed.

Lemma select_processed_extends eid db db' more :
  select_processed (Some eid) db = true ->
  processed_events db' = (processed_events db ++ more)%list ->
  select_processed (Some eid) db' = true.
Proof.
  intros H Happ. apply select_processed_true_iff in H.
  destruct H as (r & Hin & Heq). apply select_processed_true_iff.
  exists r. split; [|assumption]. rewrite Happ. apply in_or_app. now left.
Qed.

(** A tick on a processed event, with no reminder firing, changes
    nothing. *)
Lemma tick_on_processed_event e s db :
  no_faults e ->
  triggered_by e "interval-component" ->
  select_processed (fst (select_last_filter_state db)) db = true ->
  reminder_fires e db = false ->
  invoke e s db = (returned (start_locals s), db).
Proof.
  intros (Q1 & Q2 & Q3 & Q4 & Q5 & Q6 & Q7) (p & rest & Htr & Hid) Hp Hr.
  unfold invoke, handle_filter_state_event.
  rewrite (invoke_quiet_reads e s db p rest) by assumption.
  rewrite Hid.
  erewrite bind_returns.
  2:{ apply no_branch; [assumption|exact Hr|].
      rewrite Hp. apply andb_false_r. }
  erewrite bind_returns by apply tick_no_click.
  reflexivity.
Qed.

(* ================================================================== *)
(** ** Deferral                                                        *)
(* ================================================================== *)

(** A click on a deferral button at time [T] with [eid] the latest
    event closes every dialog, appends exactly one reminder
    [(eid, T + delay, label)] and exactly one ledger row
    [(eid, action)]; afterwards, however the ledger grows, a tick with
    [eid] still the latest event changes nothing as long as no reminder
    fires. *)
Lemma defer_click (e : env) (s : session) (db : database)
    (eid : Z) (st button label action : string) (delay : Z)
    (due : Clock.datetime) :
  In (button, delay, label, action) deferrals ->
  no_faults e ->
  triggered_by e button ->
  select_last_filter_state db = (Some eid, st) ->
  eid <> 0 ->
  Clock.add_minutes (now (at_add_reminder e)) delay = Some due ->
  transition e s db IDLE (deferred e db eid due label action).
Proof.
  intros Hin NF (p & rest & Htr & Hid) Hlast Hne Hdue.
  destruct (consume_due_tables e db) as (Hfs & Huc & Hpe).
  assert (Later : forall db',
    (exists pid ts, processed_events db'
       = (processed_events db ++ [mkProcessed pid eid action ts])%list) ->
    forall e2 s2 db2,
      no_faults e2 -> triggered_by e2 "interval-component" ->
      (exists more, processed_events db2 = (processed_events db' ++ more)%list) ->
      fst (select_last_filter_state db2) = Some eid ->
      reminder_fires e2 db2 = false ->
      invoke e2 s2 db2 = (returned (start_locals s2), db2)).
  { intros db' (pid & ts & Hrow) e2 s2 db2 NF2 Htick (more & Hmore) Hl2 Hr2.
    apply tick_on_processed_event; try assumption.
    rewrite Hl2. apply select_processed_true_iff.
    exists (mkProcessed pid eid action ts). split; [|reflexivity].
    rewrite Hmore, Hrow. apply in_or_app. left. apply in_or_app. right.
    now left. }
  unfold transition, deferred.
  destruct Hin as [Hin | [Hin | []]]; injection Hin as <- <- <- <-.
  - run_click Htr Hid Hlast.
    erewrite bind_returns by (apply click_remind_20; eassumption).
    do 2 eexists. split; [reflexivity|]. split; [reflexivity|].
    assert (Hrow : exists pid ts,
      processed_events
        (insert_processed_event eid "REMIND_20"
           (Clock.strftime (now (at_record_event_as_processed e)))
           (insert_reminder eid (Clock.strftime due) "20 minutes"
              (consume_due e db)))
      = (processed_events db ++ [mkProcessed pid eid "REMIND_20" ts])%list).
    { do 2 eexists. cbn. rewrite Hpe. reflexivity. }
    split; [|split; [exact Hrow | apply Later; exact Hrow]].
    eexists. reflexivity.
  - run_click Htr Hid Hlast.
    erewrite bind_returns by (apply click_remind_60; eassumption).
    do 2 eexists. split; [reflexivity|]. split; [reflexivity|].
    assert (Hrow : exists pid ts,
      processed_events
        (insert_processed_event eid "REMIND_60"
           (Clock.strftime (now (at_record_event_as_processed e)))
           (insert_reminder eid (Clock.strftime due) "1 hour"
              (consume_due e db)))
      = (processed_events db ++ [mkProcessed pid eid "REMIND_60" ts])%list).
    { do 2 eexists. cbn. rewrite Hpe. reflexivity. }
    split; [|split; [exact Hrow | apply Later; exact Hrow]].
    eexists. reflexivity.
Qed.

(* ================================================================== *)
(** ** The reminder check                                              *)
(* ================================================================== *)

Lemma delete_reminder_gone rid db r :
  In r (reminders (delete_reminder rid db)) ->
  In r (reminders db) /\ Some (rm_reminder_id r) <> rid.
Proof.
  unfold delete_reminder, reminders at 1.
  intros H. apply filter_In in H. destruct H as [Hin Hne].
  split; [assumption|]. intros Heq.
  apply negb_true_iff in Hne.
  apply pyint_eqb_eq in Heq. congruence.
Qed.

Lemma first_due_fires e db r eid :
  fetchone (is_due (Clock.strftime (now (at_get_due_reminder e))))
           (reminders db) = Some r ->
  rm_event_id r = eid ->
  select_last_filter_state db = (Some eid, "ON") ->
  eid <> 0 ->
  due_now e db = (Some eid, Some (rm_reminder_id r)) /\
  reminder_fires e db = true.
Proof.
  intros Hr He Hl Hne.
  assert (Hdue : due_now e db = (Some eid, Some (rm_reminder_id r))).
  { unfold due_now, select_due_reminder. rewrite Hr, He. reflexivity. }
  split; [exact Hdue|].
  unfold reminder_fires. rewrite Hdue, Hl. cbn [fst snd].
  rewrite truthy_Some by assumption.
  cbn. rewrite Z.eqb_refl. reflexivity.
Qed.


(* ================================================================== *)
(** ** The exception handler of the callback                           *)
(* ================================================================== *)

(** C8. When an exception leaves the body of the callback, the
    callback returns the four states it was given: the main-modal
    flag, the alert-shown flag, the disclaimer flag and the caution
    flag, each also as its [is_open] output, so the stores keep their
    values. *)
Theorem exception_returns_prior_state (e : env)
    (alert_shown modal disclaimer caution : bool) (db db' : database) :
  callback_body e alert_shown modal disclaimer caution db = (Raises, db') ->
  handle_filter_state_event e alert_shown modal disclaimer caution db
  = ((modal, alert_shown, "Error encountered in callback. Check logs.",
      disclaimer, caution, modal, disclaimer, caution), db')
  /\ stored (fst (handle_filter_state_event e alert_shown modal disclaimer
                    caution db))
     = mkSession alert_shown modal disclaimer caution.
Proof.
  intros H. unfold handle_filter_state_event. rewrite H. split; reflexivity.
Qed.

Lemma exception_returns_prior_state_witness :
  let e := Scenario.close_raises_in_remove (Scenario.at_minute 25) in
  let db := Scenario.db_reminder_pending in
  callback_body e true false true false db
  = (Raises, delete_reminder (Some 1) db) /\
  handle_filter_state_event e true false true false db
  = ((false, true, "Error encountered in callback. Check logs.",
      true, false, false, true, false), delete_reminder (Some 1) db).
Proof.
  intros e db.
  split; [reflexivity|].
  apply (exception_returns_prior_state e true false true false db
           (delete_reminder (Some 1) db)).
  reflexivity.
Defined.

(* ================================================================== *)
(** ** A program logic for the callback under arbitrary failures       *)
(* ================================================================== *)

Section Triples.

Context {A B : Type}.

Lemma triple_ret (P : database -> Prop) (a : A) (Q : A -> database -> Prop) X :
  (forall db, P db -> Q a db) -> triple P (ret a) Q X.
Proof. intros H db HP. cbn. auto. Qed.

Lemma triple_bind (P : database -> Prop) (m : Py A) (k : A -> Py B)
    (Q1 : A -> database -> Prop) (Q : B -> database -> Prop) X :
  triple P m Q1 X ->
  (forall a, triple (Q1 a) (k a) Q X) ->
  triple P (bind m k) Q X.
Proof.
  intros Hm Hk db HP. unfold bind. specialize (Hm db HP).
  destruct (m db) as [[a|] db1]; [|exact Hm].
  apply (Hk a db1 Hm).
Qed.

Lemma triple_weaken (P P' : database -> Prop) (m : Py A)
    (Q Q' : A -> database -> Prop) (X X' : database -> Prop) :
  triple P' m Q' X' ->
  (forall db, P db -> P' db) ->
  (forall a db, Q' a db -> Q a db) ->
  (forall db, X' db -> X db) ->
  triple P m Q X.
Proof.
  intros Hm HP HQ HX db Hdb. specialize (Hm db (HP db Hdb)).
  destruct (m db) as [[a|] db1]; auto.
Qed.

Lemma triple_assume (fact : Prop) (P : database -> Prop) (m : Py A)
    (Q : A -> database -> Prop) X :
  (forall db, P db -> fact) ->
  (fact -> triple P m Q X) ->
  triple P m Q X.
Proof. intros H1 H2 db HP. exact (H2 (H1 db HP) db HP). Qed.

(** The one rule about helpers: the statement either fails and leaves
    the default, or runs; then the helper returns or raises. *)
Lemma triple_try (P : database -> Prop) (c : call) (d : A)
    (stmt : database -> A * database) (Q : A -> database -> Prop) X :
  (forall db, P db ->
     let r := if db_error c then (d, db) else stmt db in
     if escapes c then X (snd r) else Q (fst r) (snd r)) ->
  triple P (try_except_finally c d stmt) Q X.
Proof.
  intros H db HP. specialize (H db HP). unfold try_except_finally.
  destruct (db_error c); cbn in H |- *.
  - destruct (escapes c); exact H.
  - destruct (stmt db) as [a db1]. destruct (escapes c); exact H.
Qed.

End Triples.

(** A helper keeps an invariant that its statement keeps. *)
Lemma triple_try_inv {A : Type} (I : database -> Prop) (c : call) (d : A)
    (stmt : database -> A * database) :
  (forall db, I db -> I (snd (stmt db))) ->
  triple I (try_except_finally c d stmt) (fun _ => I) I.
Proof.
  intros H. apply triple_try. intros db HI.
  destruct (db_error c), (escapes c); cbn; auto.
Qed.

(* ================================================================== *)
(** ** At most one dialog                                              *)
(* ================================================================== *)

Section OneDialog.

Variable e : env.
Let any : database -> Prop := fun _ => True.

Lemma any_helper {A : Type} (c : call) (d : A) stmt :
  triple any (try_except_finally c d stmt) (fun _ => any) any.
Proof. apply triple_try_inv. intros; exact I. Qed.

Lemma reminder_or_prompt_one_dialog tid last st due rid l :
  at_most_one_open (locals_session l) ->
  triple any (reminder_or_prompt e tid last st due rid l)
         (fun l' _ => at_most_one_open (locals_session l')) any.
Proof.
  intros Hl. unfold reminder_or_prompt.
  destruct (truthy due && pyint_eqb due last && (st =? "ON")%string).
  - eapply triple_bind; [apply any_helper|]. intros ?.
    apply triple_ret. intros ? ?. cbv. discriminate.
  - destruct ((tid =? "interval-component")%string && (st =? "ON")%string
              && truthy last).
    + eapply triple_bind; [apply any_helper|]. intros processed.
      destruct (negb processed).
      * eapply triple_bind; [apply any_helper|]. intros ?.
        apply triple_ret. intros ? ?. cbv. discriminate.
      * apply triple_ret. auto.
    + apply triple_ret. auto.
Qed.

Lemma guarded_helper (b : bool) (m : Py unit) :
  triple any m (fun _ => any) any ->
  triple any (if b then m else ret tt) (fun _ => any) any.
Proof. intros H. destruct b; [exact H|]. apply triple_ret. auto. Qed.

Lemma user_clicks_one_dialog tid last l :
  at_most_one_open (locals_session l) ->
  triple any (user_clicks e tid last l)
         (fun l' _ => at_most_one_open (locals_session l')) any.
Proof.
  intros Hl. unfold user_clicks.
  repeat match goal with
  | |- triple _ (if (tid =? ?id)%string then _ else _) _ _ =>
      destruct (tid =? id)%string
  | |- triple _ (if truthy _ then _ else _) _ _ =>
      apply guarded_helper
  | |- triple _ (bind _ _) _ _ =>
      eapply triple_bind; [|intros ?]
  | |- triple _ (ret tt) _ _ => apply triple_ret; intros; exact I
  | |- triple _ (ret _) _ _ =>
      apply triple_ret; intros ? ?; try (cbv; discriminate)
  | |- triple _ (update_user_control_decision _ _) _ _ => apply any_helper
  | |- triple _ (record_event_as_processed _ _ _) _ _ => apply any_helper
  | |- triple _ (add_reminder _ _ _ _) _ _ => apply any_helper
  end.
  exact Hl.
Qed.

Lemma callback_body_one_dialog s :
  at_most_one_open s ->
  triple any
    (callback_body e (on_alert_shown s) (modal_open_state s)
       (disclaimer_modal_open s) (caution_modal_open s))
    (fun out _ => at_most_one_open (stored out)) any.
Proof.
  intros Hs. unfold callback_body.
  eapply triple_bind with (Q1 := fun _ => any).
  { unfold first_triggered_id. destruct (triggered e).
    - intros db _. exact I.
    - apply triple_ret. auto. }
  intros tid.
  eapply triple_bind; [apply any_helper|]. intros [last st].
  eapply triple_bind; [apply any_helper|]. intros [due rid].
  eapply triple_bind.
  { apply reminder_or_prompt_one_dialog. destruct s; exact Hs. }
  intros l1. cbv beta.
  eapply triple_bind
    with (Q1 := fun l2 _ => at_most_one_open (locals_session l2)).
  { apply (triple_assume (at_most_one_open (locals_session l1)));
      [auto|]. intros Hl1.
    eapply triple_weaken with (P' := any);
      [apply user_clicks_one_dialog; exact Hl1| | |]; auto.
    intros; exact I. }
  intros l2. apply triple_ret. intros db H. exact H.
Qed.

End OneDialog.

Lemma invoke_one_dialog e s db :
  at_most_one_open s -> at_most_one_open (stored (fst (invoke e s db))).
Proof.
  intros Hs. unfold invoke, handle_filter_state_event.
  pose proof (callback_body_one_dialog e s Hs db I) as H.
  destruct (callback_body _ _ _ _ _ db) as [[out|] db']; cbn.
  - exact H.
  - destruct s; exact Hs.
Qed.

(** C7. In every session reachable from the initial one (all flags
    false) by invocations of the callback, with any trigger, any
    failures and any database, no two of the three dialog flags are
    true: the session is in exactly one of IDLE, PROMPTING,
    DISCLAIMING, CAUTIONING. *)
Theorem one_dialog_at_a_time (s : session) :
  reachable s ->
  modal_open_state s && disclaimer_modal_open s = false /\
  modal_open_state s && caution_modal_open s = false /\
  disclaimer_modal_open s && caution_modal_open s = false /\
  exists! d, dialog_of s = Some d.
Proof.
  intros Hr.
  assert (H : at_most_one_open s).
  { induction Hr.
    - discriminate.
    - now apply invoke_one_dialog. }
  unfold at_most_one_open, dialog_of in *.
  destruct (modal_open_state s), (disclaimer_modal_open s),
    (caution_modal_open s); try (now contradiction H);
    repeat split; try reflexivity;
    eexists; (split; [reflexivity | intros d' Hd'; congruence]).
Qed.

Lemma one_dialog_at_a_time_witness :
  let s := stored (fst (invoke (calm Scenario.decline (Scenario.at_minute 1))
                          (stored (fst (invoke (calm Scenario.tick Scenario.t0)
                                          initial_session Scenario.db_event5)))
                          Scenario.db_event5_shown)) in
  reachable s /\
  dialog_of s = Some DISCLAIMING /\
  modal_open_state s && disclaimer_modal_open s = false /\
  modal_open_state s && caution_modal_open s = false /\
  disclaimer_modal_open s && caution_modal_open s = false.
Proof.
  intros s.
  assert (Hr : reachable s)
    by (apply reachable_invoke, reachable_invoke, reachable_initial).
  split; [exact Hr|]. split; [reflexivity|].
  destruct (one_dialog_at_a_time s Hr) as (H1 & H2 & H3 & _).
  repeat split; assumption.
Defined.

(* ================================================================== *)
(** ** The automatic prompt fires once per event                       *)
(* ================================================================== *)

Lemma select_processed_existsb eid db :
  select_processed (Some eid) db
  = existsb (fun r => pe_event_id r =? eid) (processed_events db).
Proof.
  unfold select_processed, fetchone.
  induction (processed_events db) as [|r rows IH]; [reflexivity|].
  cbn. destruct (pe_event_id r =? eid); [reflexivity|exact IH].
Qed.

Lemma shown_le_potential eid rows : (shown eid rows <= potential eid rows)%nat.
Proof. unfold potential. lia. Qed.

Lemma potential_insert eid n action ts db :
  action <> "SHOWING_MODAL" \/ select_processed (Some n) db = false ->
  (potential eid (processed_events (insert_processed_event n action ts db))
   <= potential eid (processed_events db))%nat.
Proof.
  intros H. unfold insert_processed_event, potential, shown.
  cbn [processed_events].
  rewrite filter_app, length_app, existsb_app. cbn [filter existsb pe_event_id pe_action].
  rewrite orb_false_r.
  destruct (n =? eid) eqn:En.
  - apply Z.eqb_eq in En. subst n. cbn [andb].
    destruct (action =? "SHOWING_MODAL")%string eqn:Ea.
    + apply String.eqb_eq in Ea. destruct H as [H|H]; [contradiction|].
      rewrite select_processed_existsb in H. rewrite H. cbn. lia.
    + rewrite orb_true_r. cbn.
      destruct (existsb _ (processed_events db)); lia.
  - cbn [andb]. rewrite orb_false_r. cbn. lia.
Qed.

Section Ledger.

Variables (eid : Z) (bound : nat) (e : env).
Hypothesis ledger_read : db_error (at_is_event_processed e) = false.

Let inv : database -> Prop :=
  fun db => (potential eid (processed_events db) <= bound)%nat.

Lemma inv_helper {A : Type} (c : call) (d : A) stmt :
  (forall db, processed_events (snd (stmt db)) = processed_events db) ->
  triple inv (try_except_finally c d stmt) (fun _ => inv) inv.
Proof.
  intros H. apply triple_try_inv. intros db Hdb. unfold inv. now rewrite H.
Qed.

Lemma inv_record c x action :
  action <> "SHOWING_MODAL" ->
  triple inv (record_event_as_processed c x action) (fun _ => inv) inv.
Proof.
  intros Ha. apply triple_try_inv. intros db Hdb.
  destruct x as [n|]; [|exact Hdb]. cbn [snd]. unfold inv.
  etransitivity; [apply potential_insert; now left|exact Hdb].
Qed.

Lemma inv_record_unprocessed c x :
  triple (fun db => inv db /\ select_processed x db = false)
         (record_event_as_processed c x "SHOWING_MODAL") (fun _ => inv) inv.
Proof.
  apply triple_try. intros db [Hdb Hx].
  assert (Hins : inv (snd (match x with
                           | Some n => (tt, insert_processed_event n
                                              "SHOWING_MODAL"
                                              (Clock.strftime (now c)) db)
                           | None => (tt, db)
                           end))).
  { destruct x as [n|]; [|exact Hdb]. cbn [snd]. unfold inv.
    etransitivity; [apply potential_insert; now right|exact Hdb]. }
  destruct (db_error c), (escapes c); cbn [fst snd]; assumption.
Qed.

Lemma inv_is_event_processed x :
  triple inv (is_event_processed (at_is_event_processed e) x)
         (fun b db => inv db /\ b = select_processed x db) inv.
Proof.
  apply triple_try. intros db Hdb. rewrite ledger_read.
  destruct (escapes _); cbn; auto.
Qed.

Lemma reminder_or_prompt_inv tid last st due rid l :
  triple inv (reminder_or_prompt e tid last st due rid l) (fun _ => inv) inv.
Proof.
  unfold reminder_or_prompt.
  destruct (truthy due && pyint_eqb due last && (st =? "ON")%string).
  - eapply triple_bind; [apply inv_helper; reflexivity|]. intros ?.
    apply triple_ret. auto.
  - destruct ((tid =? "interval-component")%string && (st =? "ON")%string
              && truthy last).
    + eapply triple_bind; [apply inv_is_event_processed|]. intros processed.
      destruct processed; cbn [negb].
      * apply triple_ret. intros db [H _]. exact H.
      * eapply triple_bind with (Q1 := fun _ => inv).
        { eapply triple_weaken; [apply inv_record_unprocessed| | |]; auto.
          intros db [H1 H2]. split; [exact H1|now symmetry]. }
        intros ?. apply triple_ret. auto.
    + apply triple_ret. auto.
Qed.

Lemma inv_guarded (b : bool) (m : Py unit) :
  triple inv m (fun _ => inv) inv ->
  triple inv (if b then m else ret tt) (fun _ => inv) inv.
Proof. intros H. destruct b; [exact H|]. apply triple_ret. auto. Qed.

Lemma inv_add_reminder c x delay label :
  triple inv (add_reminder c x delay label) (fun _ => inv) inv.
Proof.
  apply inv_helper. intros db.
  destruct (Clock.add_minutes (now c) delay), x; reflexivity.
Qed.

Lemma user_clicks_inv tid last l :
  triple inv (user_clicks e tid last l) (fun _ => inv) inv.
Proof.
  unfold user_clicks.
  repeat match goal with
  | |- triple _ (if (tid =? ?id)%string then _ else _) _ _ =>
      destruct (tid =? id)%string
  | |- triple _ (if truthy _ then _ else _) _ _ => apply inv_guarded
  | |- triple _ (bind _ _) _ _ => eapply triple_bind; [|intros ?]
  | |- triple _ (ret _) _ _ => apply triple_ret; auto
  | |- triple _ (update_user_control_decision _ _) _ _ =>
      apply inv_helper; reflexivity
  | |- triple _ (record_event_as_processed _ _ _) _ _ =>
      apply inv_record; discriminate
  | |- triple _ (add_reminder _ _ _ _) _ _ => apply inv_add_reminder
  end.
Qed.

Lemma invoke_inv s db : inv db -> inv (snd (invoke e s db)).
Proof.
  intros Hdb. unfold invoke, handle_filter_state_event.
  assert (H : triple inv
            (callback_body e (on_alert_shown s) (modal_open_state s)
               (disclaimer_modal_open s) (caution_modal_open s))
            (fun _ => inv) inv).
  { unfold callback_body.
    eapply triple_bind with (Q1 := fun _ => inv).
    { unfold first_triggered_id. destruct (triggered e).
      - intros db0 H0. exact H0.
      - apply triple_ret. auto. }
    intros tid.
    eapply triple_bind; [apply inv_helper; reflexivity|]. intros [last st].
    eapply triple_bind; [apply inv_helper; reflexivity|]. intros [due rid].
    eapply triple_bind; [apply reminder_or_prompt_inv|]. intros l1.
    eapply triple_bind; [apply user_clicks_inv|]. intros l2.
    apply triple_ret. auto. }
  specialize (H db Hdb).
  destruct (callback_body _ _ _ _ _ db) as [[out|] db']; exact H.
Qed.

End Ledger.

Lemma run_potential eid steps : forall s db,
  (forall st, In st steps ->
              db_error (at_is_event_processed (step_env st)) = false) ->
  (potential eid (processed_events (snd (run steps s db)))
   <= potential eid (processed_events db))%nat.
Proof.
  induction steps as [|st rest IH]; intros s db Hread; [cbn; lia|].
  cbn [run].
  pose proof (invoke_inv eid (potential eid (processed_events db))
                (step_env st) (Hread st (or_introl eq_refl)) s
                (sensor_writes st db) (le_n _)) as Hstep.
  destruct (invoke (step_env st) s (sensor_writes st db)) as [out db'].
  cbn [snd] in Hstep.
  etransitivity; [apply IH|exact Hstep].
  intros st' Hin. apply Hread. now right.
Qed.

(** Along any sequence of invocations (the sensor pipeline writing
    [filter_state] in between) during which the ledger can be read,
    the callback appends at most one [SHOWING_MODAL] row for an event,
    and none once the event has any row. *)
Lemma ledger_row_bound (eid : Z) (steps : list step)
    (s : session) (db : database) :
  (forall st, In st steps ->
              db_error (at_is_event_processed (step_env st)) = false) ->
  (shown eid (processed_events (snd (run steps s db)))
   <= shown eid (processed_events db)
      + (if select_processed (Some eid) db then 0 else 1))%nat.
Proof.
  intros Hread. rewrite select_processed_existsb.
  etransitivity; [apply shown_le_potential|].
  apply (run_potential eid steps s db Hread).
Qed.

(* ================================================================== *)
(** ** Failing reads                                                   *)
(* ================================================================== *)

Lemma try_no_escape {A : Type} (c : call) (d : A) stmt db :
  escapes c = false ->
  try_except_finally c d stmt db
  = (Returns (fst (if db_error c then (d, db) else stmt db)),
     snd (if db_error c then (d, db) else stmt db)).
Proof.
  intros E. unfold try_except_finally. rewrite E.
  destruct (db_error c); [reflexivity|]. now destruct (stmt db).
Qed.

Lemma every_triple_holds {A : Type} (m : Py A) :
  triple (fun _ => True) m (fun _ _ => True) (fun _ => True).
Proof. intros db _. destruct (m db) as [[a|] db']; exact I. Qed.

Lemma callback_returns_locals e a m d c db out db' :
  callback_body e a m d c db = (Returns out, db') ->
  exists l, out = returned l.
Proof.
  assert (H : triple (fun _ => True) (callback_body e a m d c)
                (fun out _ => exists l, out = returned l) (fun _ => True)).
  { unfold callback_body.
    repeat (eapply triple_bind; [apply every_triple_holds|]; intros ?).
    cbv beta. destruct a1 as [last st].
    eapply triple_bind; [apply every_triple_holds|]. intros [due rid].
    repeat (eapply triple_bind; [apply every_triple_holds|]; intros ?).
    apply triple_ret. intros. now eexists. }
  intros Hb. specialize (H db I). rewrite Hb in H. exact H.
Qed.

Lemma invoke_coherent e s db : coherent (fst (invoke e s db)).
Proof.
  unfold invoke, handle_filter_state_event.
  destruct (callback_body _ _ _ _ _ db) as [[out|] db'] eqn:Hb; cbn.
  - apply callback_returns_locals in Hb. destruct Hb as [l ->].
    cbn. auto.
  - auto.
Qed.

Section NoEscape.

Variable e : env.
Hypothesis NE : nothing_escapes e.

Lemma invoke_no_escape s db prop_id rest :
  triggered e = prop_id :: rest ->
  callback_body e (on_alert_shown s) (modal_open_state s)
    (disclaimer_modal_open s) (caution_modal_open s) db
  = (l1 <- reminder_or_prompt e (before_dot prop_id)
             (fst (seen_last e db)) (snd (seen_last e db))
             (fst (seen_due e db)) (snd (seen_due e db)) (start_locals s) ;;
     l2 <- user_clicks e (before_dot prop_id) (fst (seen_last e db)) l1 ;;
     ret (returned l2)) db.
Proof.
  destruct NE as (E1 & E2 & _).
  intros Htr. unfold callback_body. rewrite Htr.
  unfold first_triggered_id at 1. unfold bind at 1, ret at 1.
  unfold get_last_filter_state, get_due_reminder, seen_last, seen_due, due_now.
  unfold bind at 1. rewrite try_no_escape by assumption.
  destruct (db_error (at_get_last_filter_state e)); cbn [fst snd].
  - unfold bind at 1. rewrite try_no_escape by assumption.
    destruct (db_error (at_get_due_reminder e)); cbn [fst snd]; [reflexivity|].
    now destruct (select_due_reminder _ db).
  - destruct (select_last_filter_state db) as [last st].
    unfold bind at 1. rewrite try_no_escape by assumption.
    destruct (db_error (at_get_due_reminder e)); cbn [fst snd]; [reflexivity|].
    now destruct (select_due_reminder _ db).
Qed.

(** The main modal flag after the first [if]/[elif]. *)
Lemma reminder_or_prompt_modal tid last st due rid l db :
  exists l1 db1,
    reminder_or_prompt e tid last st due rid l db = (Returns l1, db1) /\
    modal_open l1
    = reminder_guard last st due
      || (prompt_guard tid last st && negb (seen_processed e last db))
      || modal_open l.
Proof.
  destruct NE as (E1 & E2 & E3 & E4 & E5 & E6 & E7).
  unfold reminder_or_prompt, reminder_guard, prompt_guard, seen_processed.
  destruct (truthy due && pyint_eqb due last && (st =? "ON")%string).
  - unfold bind, remove_reminder. rewrite try_no_escape by assumption.
    do 2 eexists. split; reflexivity.
  - destruct ((tid =? "interval-component")%string && (st =? "ON")%string
              && truthy last).
    + unfold bind at 1, is_event_processed.
      rewrite try_no_escape by assumption.
      destruct (db_error (at_is_event_processed e)); cbn [fst snd negb].
      * unfold bind, record_event_as_processed.
        rewrite try_no_escape by assumption.
        do 2 eexists. split; reflexivity.
      * destruct (select_processed last db); cbn [negb].
        -- do 2 eexists. split; [reflexivity|]. reflexivity.
        -- unfold bind, record_event_as_processed.
           rewrite try_no_escape by assumption.
           do 2 eexists. split; reflexivity.
    + do 2 eexists. split; reflexivity.
Qed.

(** The main modal flag after the click handlers. *)
Lemma user_clicks_modal tid last l db :
  exists l2 db2,
    user_clicks e tid last l db = (Returns l2, db2) /\
    modal_open l2 = negb (is_click tid) && modal_open l /\
    (is_click tid = false -> l2 = l /\ db2 = db).
Proof.
  destruct NE as (E1 & E2 & E3 & E4 & E5 & E6 & E7).
  unfold user_clicks, is_click. cbn [existsb].
  repeat match goal with
  | |- context [if (tid =? ?id)%string then _ else _] =>
      destruct (tid =? id)%string
  end;
  cbn [orb negb andb];
  unfold bind, update_user_control_decision, record_event_as_processed,
    add_reminder, ret;
  repeat match goal with
  | |- context [if truthy ?x then _ else _] => destruct (truthy x)
  | |- context [try_except_finally ?c _ _ _] =>
      rewrite (try_no_escape c) by assumption; cbv beta iota
  end;
  do 2 eexists; (split; [reflexivity|]); (split; [reflexivity|]);
  intros; try discriminate; split; reflexivity.
Qed.

(** The first output of an invocation that no exception leaves. *)
Lemma main_modal_equation s db prop_id rest :
  triggered e = prop_id :: rest ->
  let tid := before_dot prop_id in
  let last := fst (seen_last e db) in
  let st := snd (seen_last e db) in
  main_modal (fst (invoke e s db))
  = negb (is_click tid)
    && (reminder_guard last st (fst (seen_due e db))
        || (prompt_guard tid last st && negb (seen_processed e last db))
        || modal_open_state s).
Proof.
  intros Htr tid last st.
  unfold invoke, handle_filter_state_event.
  rewrite (invoke_no_escape s db prop_id rest Htr).
  destruct (reminder_or_prompt_modal tid last st (fst (seen_due e db))
              (snd (seen_due e db)) (start_locals s) db)
    as (l1 & db1 & H1 & M1).
  fold tid last st.
  erewrite bind_returns by exact H1.
  destruct (user_clicks_modal tid last l1 db1) as (l2 & db2 & H2 & M2 & _).
  erewrite bind_returns by exact H2.
  cbn. rewrite M2, M1. reflexivity.
Qed.

End NoEscape.

Lemma reminder_guard_off last due : reminder_guard last "OFF" due = false.
Proof. unfold reminder_guard. compare_ids. apply andb_false_r. Qed.

Lemma prompt_guard_off tid last : prompt_guard tid last "OFF" = false.
Proof.
  unfold prompt_guard. compare_ids. now rewrite andb_false_r.
Qed.

Lemma reminder_guard_none last st : reminder_guard last st None = false.
Proof. reflexivity. Qed.

Lemma invoke_nothing_triggered e s db :
  triggered e = [] ->
  invoke e s db
  = ((modal_open_state s, on_alert_shown s,
      "Error encountered in callback. Check logs.",
      disclaimer_modal_open s, caution_modal_open s,
      modal_open_state s, disclaimer_modal_open s, caution_modal_open s), db).
Proof.
  intros H. unfold invoke, handle_filter_state_event, callback_body.
  rewrite H. reflexivity.
Qed.

Lemma with_correct_reads_seen e db :
  seen_last (with_correct_reads e) db = select_last_filter_state db /\
  seen_due (with_correct_reads e) db = due_now e db /\
  (forall x, seen_processed (with_correct_reads e) x db = seen_processed e x db).
Proof. repeat split. Qed.

Lemma with_correct_reads_no_escape e :
  nothing_escapes e -> nothing_escapes (with_correct_reads e).
Proof. intros (E1 & E2 & E3 & E4 & E5 & E6 & E7). repeat split; assumption. Qed.

(** C2, as the code has it.  When a read fails without an exception
    leaving the helper, the helper answers with its default:
    [(None, 'OFF')] for the condition, [(None, None)] for the due
    reminder, and [False], "not processed", for the ledger.  The
    callback returns a tuple whose [is_open] outputs agree with the
    stores.  (The latest operator decision, which the callback does
    not read, defaults to ['OFF'] as well.)  While all three reads
    fail no invocation opens the main modal and a tick changes neither
    the session nor the database.  A failure of the condition read or
    of the reminder read never opens the main modal when the correct
    answers would not, provided the ledger can be read. *)
Theorem failed_reads_degrade (e : env) (s : session) (db : database) :
  nothing_escapes e ->
  (db_error (at_get_last_filter_state e) = true ->
   get_last_filter_state (at_get_last_filter_state e) db
   = (Returns (None, "OFF"), db))
  /\
  (db_error (at_get_due_reminder e) = true ->
   get_due_reminder (at_get_due_reminder e) db = (Returns (None, None), db))
  /\
  (forall c, db_error c = true -> escapes c = false ->
             get_latest_user_control c db = (Returns "OFF", db))
  /\
  (db_error (at_is_event_processed e) = true ->
   forall x,
     is_event_processed (at_is_event_processed e) x db = (Returns false, db))
  /\
  coherent (fst (invoke e s db))
  /\
  (reads_fail e ->
   (main_modal (fst (invoke e s db)) = true -> modal_open_state s = true) /\
   (triggered_by e "interval-component" ->
    invoke e s db = (returned (start_locals s), db)))
  /\
  (db_error (at_is_event_processed e) = false ->
   main_modal (fst (invoke e s db)) = true ->
   main_modal (fst (invoke (with_correct_reads e) s db)) = true).
Proof.
  intros NE. pose proof NE as (E1 & E2 & E3 & E4 & E5 & E6 & E7).
  split; [|split; [|split; [|split; [|split; [|split]]]]].
  - intros D. unfold get_last_filter_state.
    rewrite try_no_escape by assumption. now rewrite D.
  - intros D. unfold get_due_reminder.
    rewrite try_no_escape by assumption. now rewrite D.
  - intros c D E. unfold get_latest_user_control.
    rewrite try_no_escape by assumption. now rewrite D.
  - intros D x. unfold is_event_processed.
    rewrite try_no_escape by assumption. now rewrite D.
  - apply invoke_coherent.
  - intros (D1 & D2 & D3).
    assert (Hlast : seen_last e db = (None, "OFF"))
      by (unfold seen_last; now rewrite D1).
    assert (Hdue : seen_due e db = (None, None))
      by (unfold seen_due; now rewrite D2).
    split.
    + destruct (triggered e) as [|p rest] eqn:Htr.
      * rewrite invoke_nothing_triggered by assumption. cbn. auto.
      * rewrite (main_modal_equation e NE s db p rest Htr).
        rewrite Hlast, Hdue. cbn [fst snd].
        rewrite reminder_guard_off, prompt_guard_off.
        cbn [andb orb]. intros H. now apply andb_true_iff in H.
    + intros (p & rest & Htr & Hid).
      unfold invoke, handle_filter_state_event.
      rewrite (invoke_no_escape e NE s db p rest Htr).
      rewrite Hlast, Hdue, Hid. cbn [fst snd].
      erewrite bind_returns by reflexivity.
      erewrite bind_returns by apply tick_no_click.
      reflexivity.
  - intros D3.
    destruct (triggered e) as [|p rest] eqn:Htr.
    + rewrite !invoke_nothing_triggered by assumption. auto.
    + rewrite (main_modal_equation e NE s db p rest Htr).
      rewrite (main_modal_equation (with_correct_reads e)
                 (with_correct_reads_no_escape e NE) s db p rest Htr).
      destruct (with_correct_reads_seen e db) as (-> & -> & ->).
      unfold seen_last, seen_due.
      destruct (select_last_filter_state db) as [last st].
      destruct (db_error (at_get_last_filter_state e)); cbn [fst snd].
      * rewrite reminder_guard_off, prompt_guard_off.
        destruct (is_click (before_dot p)), (modal_open_state s);
          cbn; intros H; try discriminate H;
          rewrite ?orb_true_r; reflexivity.
      * destruct (db_error (at_get_due_reminder e)); cbn [fst snd].
        -- rewrite reminder_guard_none.
           destruct (is_click (before_dot p)),
             (reminder_guard last st (fst (due_now e db))),
             (prompt_guard (before_dot p) last st
              && negb (seen_processed e last db)),
             (modal_open_state s); cbn; auto.
        -- auto.
Qed.

Lemma failed_reads_degrade_witness :
  let t := Scenario.at_minute 30 in
  let db := Scenario.db_event5 in
  let prompting := mkSession true true false false in
  nothing_escapes (Scenario.outage t) /\
  reads_fail (Scenario.outage t) /\
  get_last_filter_state (at_get_last_filter_state (Scenario.outage t)) db
  = (Returns (None, "OFF"), db) /\
  get_due_reminder (at_get_due_reminder (Scenario.outage t)) db
  = (Returns (None, None), db) /\
  is_event_processed (at_is_event_processed (Scenario.outage t)) (Some 5) db
  = (Returns false, db) /\
  invoke (Scenario.outage t) initial_session db
  = (returned (start_locals initial_session), db) /\
  main_modal (fst (invoke (with_correct_reads (Scenario.condition_unreadable t))
                     prompting Scenario.db_event5_shown)) = true.
Proof.
  intros t db prompting.
  assert (NE : nothing_escapes (Scenario.outage t)) by (repeat split).
  assert (RF : reads_fail (Scenario.outage t)) by (repeat split).
  assert (NE2 : nothing_escapes (Scenario.condition_unreadable t))
    by (repeat split).
  destruct (failed_reads_degrade (Scenario.outage t) initial_session db NE)
    as (H1 & H2 & _ & H3 & _ & H5 & _).
  destruct (failed_reads_degrade (Scenario.condition_unreadable t) prompting
              Scenario.db_event5_shown NE2) as (_ & _ & _ & _ & _ & _ & H6).
  split; [exact NE|]. split; [exact RF|].
  split; [apply H1; reflexivity|].
  split; [apply H2; reflexivity|].
  split; [apply H3; reflexivity|].
  split.
  - apply (proj2 (H5 RF)). now exists "interval-component.n_intervals", [].
  - apply H6; reflexivity.
Defined.

(** With the ledger unreadable, a tick opens the main modal for an
    event the operator has already approved; with the ledger readable
    the same tick changes nothing. *)
Lemma locked_ledger_prompts_again :
  let t := Scenario.at_minute 30 in
  let db := Scenario.db_event5_approved in
  nothing_escapes (Scenario.ledger_locked t) /\
  select_processed (Some 5) db = true /\
  invoke (calm Scenario.tick t) initial_session db
  = (returned (start_locals initial_session), db) /\
  main_modal (fst (invoke (calm Scenario.tick t) initial_session db)) = false /\
  main_modal (fst (invoke (Scenario.ledger_locked t) initial_session db))
  = true /\
  dialog_of (stored (fst (invoke (Scenario.ledger_locked t) initial_session db)))
  = Some PROMPTING.
Proof. repeat split. Qed.

(* ================================================================== *)
(** ** Reminders that never fire                                       *)
(* ================================================================== *)


Section StaleReminder.

Variables (e : env) (db0 : database).
Hypothesis unfired : reminder_fires e db0 = false.










End StaleReminder.

(** C1, where the code departs from it.  The operator deferred event 5
    at 09:02 and the condition cleared at 09:10 (event 6, OFF), so the
    reminder came due at 09:22 for an event that is no longer the
    latest.  The tick of 09:30 finds it due, does not open the modal,
    and leaves it in [reminders]; the tick of 09:40 finds it due
    again. *)
Theorem stale_reminder_left_in_queue :
  let db := Scenario.db_stale_reminder in
  let tick_at m := calm Scenario.tick (Scenario.at_minute m) in
  snd (run [Scenario.st Scenario.fs5 Scenario.tick 0;
            Scenario.st Scenario.fs5 Scenario.defer_20 2;
            Scenario.st Scenario.fs6 Scenario.tick 11]
           initial_session Scenario.empty_db) = db /\
  due_now (tick_at 30) db = (Some 5, Some 1) /\
  select_last_filter_state db = (Some 6, "OFF") /\
  invoke (tick_at 30) initial_session db
  = (returned (start_locals initial_session), db) /\
  In (mkReminder 1 5 "2024-05-17 09:22:00" "20 minutes")
     (reminders (snd (invoke (tick_at 30) initial_session db))) /\
  due_now (tick_at 40) (snd (invoke (tick_at 30) initial_session db))
  = (Some 5, Some 1).
Proof. repeat split. now left. Qed.

(** What the stale row costs: event 7 is deferred at 09:13, its
    reminder is due at 09:33 while event 7 is still ON, but at 09:40
    the query reports the row of event 5, the guard fails, and the
    modal stays closed with both reminders in the table. *)
Lemma stale_reminder_hides_later_ones :
  let after := run Scenario.two_deferrals initial_session Scenario.empty_db in
  select_last_filter_state (snd after) = (Some 7, "ON") /\
  map rm_event_id (reminders (snd after)) = [5; 7] /\
  forallb (is_due "2024-05-17 09:40:00") (reminders (snd after)) = true /\
  dialog_of (fst after) = Some IDLE.
Proof. vm_compute. repeat split. Qed.

(* ================================================================== *)
(** ** Timestamps as sortable strings                                  *)
(* ================================================================== *)

Lemma ascii_compare_refl (c : ascii) : Ascii.compare c c = Eq.
Proof. unfold Ascii.compare. apply N.compare_refl. Qed.

Lemma digit_compare (a b : Z) :
  0 <= a <= 9 -> 0 <= b <= 9 ->
  Ascii.compare (Clock.digit a) (Clock.digit b) = (a ?= b).
Proof.
  intros Ha Hb. unfold Ascii.compare, Clock.digit.
  rewrite !N_ascii_embedding by lia.
  rewrite <- N2Z.inj_compare. rewrite !N2Z.inj_add, !Z2N.id by lia.
  apply Z.add_compare_mono_l.
Qed.

Lemma string_compare_cons (c : ascii) (r1 r2 : string) :
  String.compare (String c r1) (String c r2) = String.compare r1 r2.
Proof. cbn [String.compare]. now rewrite ascii_compare_refl. Qed.

Lemma two_digits_compare (a b : Z) (r1 r2 : string) :
  0 <= a < 100 -> 0 <= b < 100 ->
  String.compare (Clock.two_digits a r1) (Clock.two_digits b r2)
  = match a ?= b with
    | Eq => String.compare r1 r2
    | c => c
    end.
Proof.
  intros Ha Hb. unfold Clock.two_digits. cbn [String.compare].
  assert (0 <= a / 10 <= 9 /\ 0 <= a mod 10 <= 9 /\ a = 10 * (a / 10) + a mod 10)
    as (A1 & A2 & A3)
    by (pose proof (Z.div_mod a 10); Z.div_mod_to_equations; lia).
  assert (0 <= b / 10 <= 9 /\ 0 <= b mod 10 <= 9 /\ b = 10 * (b / 10) + b mod 10)
    as (B1 & B2 & B3)
    by (pose proof (Z.div_mod b 10); Z.div_mod_to_equations; lia).
  rewrite !digit_compare by assumption.
  destruct (Z.compare_spec (a / 10) (b / 10)) as [H1|H1|H1];
    destruct (Z.compare_spec (a mod 10) (b mod 10)) as [H2|H2|H2];
    destruct (Z.compare_spec a b) as [H|H|H];
    try reflexivity; lia.
Qed.

Lemma decimal_four_digits (y : Z) (rest : string) :
  1000 <= y <= 9999 ->
  Clock.decimal y ++ rest
  = Clock.two_digits (y / 100) (Clock.two_digits (y mod 100) rest).
Proof.
  intros Hy. unfold Clock.decimal.
  assert (Hlog : 9 <= Z.log2 y).
  { change 9 with (Z.log2 512). apply Z.log2_le_mono. lia. }
  destruct (Z.to_nat (Z.log2 y)) as [|[|[|k]]] eqn:Hk; try lia.
  cbn [Clock.decimal_aux].
  assert (T1 : (y <? 10) = false) by (apply Z.ltb_ge; lia).
  assert (T2 : (y / 10 <? 10) = false)
    by (apply Z.ltb_ge; Z.div_mod_to_equations; lia).
  assert (T3 : (y / 10 / 10 <? 10) = false)
    by (apply Z.ltb_ge; Z.div_mod_to_equations; lia).
  assert (T4 : (y / 10 / 10 / 10 <? 10) = true)
    by (apply Z.ltb_lt; Z.div_mod_to_equations; lia).
  rewrite T1, T2, T3, T4. unfold Clock.two_digits. cbn [String.append].
  replace (y / 10 / 10 / 10 mod 10) with (y / 100 / 10)
    by (Z.div_mod_to_equations; lia).
  replace (y / 10 / 10 mod 10) with ((y / 100) mod 10)
    by (Z.div_mod_to_equations; lia).
  replace (y / 10 mod 10) with (y mod 100 / 10)
    by (Z.div_mod_to_equations; lia).
  replace (y mod 10) with ((y mod 100) mod 10) at 1
    by (Z.div_mod_to_equations; lia).
  reflexivity.
Qed.

Lemma days_in_month_le_31 (y m : Z) : Clock.days_in_month y m <= 31.
Proof.
  unfold Clock.days_in_month.
  destruct (m =? 2); [destruct (Clock.is_leap y); lia|].
  destruct ((m =? 4) || (m =? 6) || (m =? 9) || (m =? 11)); lia.
Qed.

Section SortableTimestamps.

Variables t1 t2 : Clock.datetime.
Hypothesis V1 : Clock.valid t1.
Hypothesis V2 : Clock.valid t2.
Hypothesis Y1 : Clock.four_digit_year t1.
Hypothesis Y2 : Clock.four_digit_year t2.

Lemma strftime_fixed_width (t : Clock.datetime) :
  Clock.valid t -> Clock.four_digit_year t ->
  Clock.strftime t
  = Clock.two_digits (Clock.year t / 100)
      (Clock.two_digits (Clock.year t mod 100) (String "-"
      (Clock.two_digits (Clock.month t) (String "-"
      (Clock.two_digits (Clock.day t) (String " "
      (Clock.two_digits (Clock.hour t) (String ":"
      (Clock.two_digits (Clock.minute t) (String ":"
      (Clock.two_digits (Clock.second t) ""))))))))))).
Proof.
  intros (Hy & _) Hy4. unfold Clock.four_digit_year, Clock.MAXYEAR in *.
  unfold Clock.strftime. rewrite decimal_four_digits by lia. reflexivity.
Qed.

(** The rendering orders instants as their whole seconds are ordered. *)
Lemma strftime_leb_whole_second :
  (Clock.strftime t1 <=? Clock.strftime t2)%string = true
  <-> Clock.le (Clock.whole_second t1) (Clock.whole_second t2).
Proof.
  rewrite !strftime_fixed_width by assumption.
  destruct V1 as (A1 & A2 & A3 & A4 & A5 & A6 & A7).
  destruct V2 as (B1 & B2 & B3 & B4 & B5 & B6 & B7).
  pose proof (days_in_month_le_31 (Clock.year t1) (Clock.month t1)).
  pose proof (days_in_month_le_31 (Clock.year t2) (Clock.month t2)).
  unfold Clock.four_digit_year, Clock.MINYEAR, Clock.MAXYEAR in *.
  unfold String.leb.
  repeat (rewrite two_digits_compare
            by (try lia; Z.div_mod_to_equations; lia);
          rewrite ?string_compare_cons).
  cbn [String.compare].
  unfold Clock.le, Clock.whole_second, Clock.fields, Clock.lex_le.
  cbn [Clock.year Clock.month Clock.day Clock.hour Clock.minute
       Clock.second Clock.microsecond].
  destruct (Z.compare_spec (Clock.year t1 / 100) (Clock.year t2 / 100));
   [destruct (Z.compare_spec (Clock.year t1 mod 100) (Clock.year t2 mod 100));
    [destruct (Z.compare_spec (Clock.month t1) (Clock.month t2));
     [destruct (Z.compare_spec (Clock.day t1) (Clock.day t2));
      [destruct (Z.compare_spec (Clock.hour t1) (Clock.hour t2));
       [destruct (Z.compare_spec (Clock.minute t1) (Clock.minute t2));
        [destruct (Z.compare_spec (Clock.second t1) (Clock.second t2))
        | | ] | | ] | | ] | | ] | | ] | | ];
    (split; [intros Hs| intros Hle]);
    try reflexivity; try discriminate Hs;
    try (exfalso; Z.div_mod_to_equations; lia);
    Z.div_mod_to_equations; lia.
Qed.

End SortableTimestamps.

Lemma validb_valid (t : Clock.datetime) :
  Clock.validb t = true -> Clock.valid t.
Proof.
  unfold Clock.validb, Clock.valid. intros H.
  repeat (apply andb_prop in H; destruct H as [H ?]).
  repeat match goal with
  | H : (_ <=? _) = true |- _ => apply Z.leb_le in H
  | H : (_ <? _) = true |- _ => apply Z.ltb_lt in H
  end.
  lia.
Qed.

Lemma le_whole_second (t1 t2 : Clock.datetime) :
  Clock.le t1 t2 -> Clock.le (Clock.whole_second t1) (Clock.whole_second t2).
Proof.
  unfold Clock.le, Clock.whole_second, Clock.fields, Clock.lex_le.
  cbn [Clock.year Clock.month Clock.day Clock.hour Clock.minute
       Clock.second Clock.microsecond].
  lia.
Qed.

Lemma whole_second_le (t1 t2 : Clock.datetime) :
  Clock.microsecond t1 = 0 -> 0 <= Clock.microsecond t2 ->
  Clock.le (Clock.whole_second t1) (Clock.whole_second t2) -> Clock.le t1 t2.
Proof.
  unfold Clock.le, Clock.whole_second, Clock.fields, Clock.lex_le.
  cbn [Clock.year Clock.month Clock.day Clock.hour Clock.minute
       Clock.second Clock.microsecond].
  lia.
Qed.

(** C9, as the code has it.  For datetimes with four-digit years the
    rendering [YYYY-MM-DD HH:MM:SS] drops the microseconds and orders
    what is left: the string of [t1] is at or before the string of [t2]
    exactly when [t1], cut to the whole second, is at or before [t2],
    cut to the whole second.  So [t1 <= t2] implies the order of the
    strings, the converse holds when [t1] has no microseconds, and the
    due-reminder query selects a reminder whose [reminder_time] renders
    [t1] exactly when the whole second of [t1] is at or before the
    whole second of now. *)
Theorem sortable_timestamps (t1 t2 : Clock.datetime) :
  Clock.valid t1 -> Clock.valid t2 ->
  Clock.four_digit_year t1 -> Clock.four_digit_year t2 ->
  ((Clock.strftime t1 <=? Clock.strftime t2)%string = true
   <-> Clock.le (Clock.whole_second t1) (Clock.whole_second t2))
  /\
  (Clock.le t1 t2 -> (Clock.strftime t1 <=? Clock.strftime t2)%string = true)
  /\
  (Clock.microsecond t1 = 0 ->
   (Clock.le t1 t2
    <-> (Clock.strftime t1 <=? Clock.strftime t2)%string = true))
  /\
  (forall r,
      rm_reminder_time r = Clock.strftime t1 ->
      (is_due (Clock.strftime t2) r = true
       <-> Clock.le (Clock.whole_second t1) (Clock.whole_second t2))).
Proof.
  intros V1 V2 Y1 Y2.
  pose proof (strftime_leb_whole_second t1 t2 V1 V2 Y1 Y2) as Hs.
  split; [exact Hs|]. split; [|split].
  - intros Hle. apply Hs, le_whole_second, Hle.
  - intros Hmicro. split.
    + intros Hle. apply Hs, le_whole_second, Hle.
    + intros Hstr. apply whole_second_le; [assumption| |now apply Hs].
      destruct V2 as (_ & _ & _ & _ & _ & _ & H). lia.
  - intros r Hr. unfold is_due. rewrite Hr. exact Hs.
Qed.

Lemma sortable_timestamps_witness :
  let due := Clock.mkDatetime 2024 5 17 9 22 0 0 in
  let now_ := Clock.mkDatetime 2024 5 17 9 30 0 123456 in
  Clock.valid due /\ Clock.valid now_ /\
  Clock.four_digit_year due /\ Clock.four_digit_year now_ /\
  Clock.microsecond due = 0 /\
  (Clock.le due now_
   <-> (Clock.strftime due <=? Clock.strftime now_)%string = true) /\
  (is_due (Clock.strftime now_) (mkReminder 1 5 (Clock.strftime due) "20 minutes")
   = true
   <-> Clock.le (Clock.whole_second due) (Clock.whole_second now_)).
Proof.
  intros due now_.
  assert (V1 : Clock.valid due) by (apply validb_valid; reflexivity).
  assert (V2 : Clock.valid now_) by (apply validb_valid; reflexivity).
  assert (Y1 : Clock.four_digit_year due)
    by (unfold Clock.four_digit_year, due, now_; cbn; lia).
  assert (Y2 : Clock.four_digit_year now_)
    by (unfold Clock.four_digit_year, due, now_; cbn; lia).
  destruct (sortable_timestamps due now_ V1 V2 Y1 Y2) as (_ & _ & H3 & H4).
  split; [exact V1|]. split; [exact V2|].
  split; [exact Y1|]. split; [exact Y2|].
  split; [reflexivity|]. split.
  - exact (H3 eq_refl).
  - exact (H4 (mkReminder 1 5 (Clock.strftime due) "20 minutes") eq_refl).
Defined.

(** Two instants of the same second render alike: the later one is
    not at or before the earlier one, yet its string is; and a reminder
    due at the later one is selected by the query at the earlier one. *)
Lemma same_second_renders_alike :
  let t1 := Clock.mkDatetime 2024 5 17 9 22 0 500000 in
  let t2 := Clock.mkDatetime 2024 5 17 9 22 0 200000 in
  Clock.valid t1 /\ Clock.valid t2 /\
  Clock.four_digit_year t1 /\ Clock.four_digit_year t2 /\
  (Clock.strftime t1 <=? Clock.strftime t2)%string = true /\
  ~ Clock.le t1 t2 /\
  is_due (Clock.strftime t2) (mkReminder 1 5 (Clock.strftime t1) "20 minutes")
  = true.
Proof.
  intros t1 t2.
  split; [apply validb_valid; reflexivity|].
  split; [apply validb_valid; reflexivity|].
  split; [unfold Clock.four_digit_year, t1, t2; cbn; lia|].
  split; [unfold Clock.four_digit_year, t1, t2; cbn; lia|].
  split; [reflexivity|]. split; [|reflexivity].
  unfold Clock.le, t1, t2. cbn. lia.
Qed.

(* ================================================================== *)
(** ** Adding a delay to a timestamp                                   *)
(* ================================================================== *)

Example add_minutes_leap_day :
  Clock.add_minutes (Clock.mkDatetime 2024 2 28 23 45 10 0) 20
  = Some (Clock.mkDatetime 2024 2 29 0 5 10 0).
Proof. reflexivity. Qed.

Example add_minutes_no_leap_day :
  Clock.add_minutes (Clock.mkDatetime 2023 2 28 23 45 10 0) 60
  = Some (Clock.mkDatetime 2023 3 1 0 45 10 0).
Proof. reflexivity. Qed.

Example add_minutes_overflow :
  Clock.add_minutes (Clock.mkDatetime 9999 12 31 23 45 0 0) 20 = None.
Proof. reflexivity. Qed.

Lemma days_in_month_ge_28 (y m : Z) : 28 <= Clock.days_in_month y m.
Proof.
  unfold Clock.days_in_month.
  destruct (m =? 2); [destruct (Clock.is_leap y); lia|].
  destruct ((m =? 4) || (m =? 6) || (m =? 9) || (m =? 11)); lia.
Qed.

Lemma next_day_later (y m d : Z) :
  1 <= m <= 12 -> 1 <= d <= Clock.days_in_month y m -> y < Clock.MAXYEAR ->
  exists y' m' d',
    Clock.next_day (y, m, d) = Some (y', m', d') /\
    y <= y' <= Clock.MAXYEAR /\ 1 <= m' <= 12 /\
    1 <= d' <= Clock.days_in_month y' m' /\
    (y < y' \/ (y = y' /\ (m < m' \/ (m = m' /\ d < d')))).
Proof.
  intros Hm Hd Hy. unfold Clock.next_day.
  destruct (d <? Clock.days_in_month y m) eqn:E1.
  - apply Z.ltb_lt in E1. exists y, m, (d + 1). repeat split; lia.
  - destruct (m <? 12) eqn:E2.
    + apply Z.ltb_lt in E2. exists y, (m + 1), 1.
      pose proof (days_in_month_ge_28 y (m + 1)). repeat split; lia.
    + rewrite (proj2 (Z.ltb_lt _ _) Hy). exists (y + 1), 1, 1.
      pose proof (days_in_month_ge_28 (y + 1) 1). repeat split; lia.
Qed.

(** Before the last year of the calendar, a delay of up to an hour
    gives a valid datetime that is later by at least a minute. *)
Lemma add_minutes_later (t : Clock.datetime) (m : Z) :
  Clock.valid t -> Clock.year t < Clock.MAXYEAR -> 0 < m <= 60 ->
  exists due,
    Clock.add_minutes t m = Some due /\
    Clock.valid due /\
    ~ Clock.le (Clock.whole_second due) (Clock.whole_second t).
Proof.
  intros (Hy & Hmo & Hd & Hh & Hmi & Hs & Hu) Hmax Hm.
  unfold Clock.add_minutes.
  set (total := Clock.hour t * 60 + Clock.minute t + m).
  assert (Htotal : Clock.hour t * 60 + Clock.minute t < total <= 1499)
    by (unfold total; lia).
  assert (Hcarry : total / 60 / 24 = 0 \/ total / 60 / 24 = 1)
    by (Z.div_mod_to_equations; lia).
  destruct Hcarry as [Hc | Hc]; rewrite Hc.
  - cbn [Z.to_nat Clock.add_days]. eexists. split; [reflexivity|]. split.
    + unfold Clock.valid. cbn.
      repeat split; try lia; Z.div_mod_to_equations; lia.
    + unfold Clock.le, Clock.whole_second, Clock.fields, Clock.lex_le. cbn.
      Z.div_mod_to_equations. lia.
  - change (Z.to_nat 1) with 1%nat. cbn [Clock.add_days].
    destruct (next_day_later (Clock.year t) (Clock.month t) (Clock.day t)
                Hmo Hd Hmax)
      as (y' & m' & d' & -> & Hy' & Hm' & Hd' & Hlater).
    eexists. split; [reflexivity|]. split.
    + unfold Clock.valid, Clock.MINYEAR in *. cbn.
      repeat split; try lia; Z.div_mod_to_equations; lia.
    + unfold Clock.le, Clock.whole_second, Clock.fields, Clock.lex_le. cbn.
      lia.
Qed.

(** A reminder is not due at the moment it is scheduled. *)
Lemma reminder_not_due_at_once (t : Clock.datetime) (m : Z) id eid label :
  Clock.valid t -> Clock.four_digit_year t -> Clock.year t < Clock.MAXYEAR ->
  0 < m <= 60 ->
  exists due,
    Clock.add_minutes t m = Some due /\
    is_due (Clock.strftime t) (mkReminder id eid (Clock.strftime due) label)
    = false.
Proof.
  intros V Y Hmax Hm.
  destruct (add_minutes_later t m V Hmax Hm) as (due & Hadd & Vdue & Hlater).
  exists due. split; [exact Hadd|].
  unfold is_due. cbn [rm_reminder_time].
  destruct (Clock.strftime due <=? Clock.strftime t)%string eqn:E;
    [|reflexivity].
  exfalso. apply Hlater.
  apply (strftime_leb_whole_second due t Vdue V); [|exact Y|exact E].
  unfold Clock.four_digit_year in *.
  unfold Clock.add_minutes in Hadd.
  destruct (Clock.add_days _ _) as [[[y' m'] d']|] eqn:Hdays; [|discriminate].
  injection Hadd as <-. cbn.
  assert (Hmono : forall n d0 d1,
             Clock.add_days n d0 = Some d1 -> fst (fst d0) <= fst (fst d1)).
  { induction n as [|n IH]; intros d0 d1 H0; cbn in H0.
    - injection H0 as <-. lia.
    - destruct (Clock.next_day d0) as [d2|] eqn:Hn; [|discriminate].
      apply IH in H0. etransitivity; [|exact H0].
      destruct d0 as [[a b] c]. unfold Clock.next_day in Hn.
      destruct (c <? _); [injection Hn as <-; cbn; lia|].
      destruct (b <? 12); [injection Hn as <-; cbn; lia|].
      destruct (a <? Clock.MAXYEAR); [injection Hn as <-; cbn; lia|discriminate]. }
  apply Hmono in Hdays. cbn in Hdays. lia.
Qed.

(* ================================================================== *)
(** ** Writes followed by reads                                        *)
(* ================================================================== *)

Lemma find_app_last {R : Type} (p : R -> bool) (rows : list R) (x : R) :
  find p (rows ++ [x])
  = match find p rows with
    | Some r => Some r
    | None => if p x then Some x else None
    end.
Proof.
  induction rows as [|r rows IH]; cbn; [reflexivity|].
  destruct (p r); [reflexivity|exact IH].
Qed.

Lemma select_processed_insert x n action ts db :
  select_processed x (insert_processed_event n action ts db)
  = pyint_eqb (Some n) x || select_processed x db.
Proof.
  unfold select_processed, insert_processed_event, fetchone.
  cbn [processed_events]. rewrite find_app_last.
  destruct (find _ (processed_events db)); cbn [pe_event_id].
  - now rewrite orb_true_r.
  - rewrite orb_false_r. now destruct (pyint_eqb (Some n) x).
Qed.

(** X1. Once [record_event_as_processed] has gone through for event
    [n], [is_event_processed] answers [True] for [n], whatever the
    action recorded, and answers for every other event as it did
    before. *)
Theorem recorded_event_is_processed (c1 c2 : call) (n : Z)
    (action : string) (x : pyint) (db : database) :
  quiet c1 -> quiet c2 ->
  (record_event_as_processed c1 (Some n) action ;;;
   is_event_processed c2 x) db
  = (Returns (if pyint_eqb x (Some n) then true else select_processed x db),
     insert_processed_event n action (Clock.strftime (now c1)) db).
Proof.
  intros Q1 Q2.
  erewrite bind_returns by (apply record_event_as_processed_quiet; exact Q1).
  rewrite is_event_processed_quiet by exact Q2.
  rewrite select_processed_insert.
  destruct x as [m|]; cbn; [|reflexivity].
  rewrite (Z.eqb_sym n m). now destruct (m =? n).
Qed.

Lemma recorded_event_is_processed_witness :
  let c := mkCall Scenario.t0 false false in
  quiet c /\
  (record_event_as_processed c (Some 5) "REMIND_20" ;;;
   is_event_processed c (Some 5)) Scenario.db_event5
  = (Returns true,
     insert_processed_event 5 "REMIND_20" (Clock.strftime (now c))
       Scenario.db_event5).
Proof.
  intros c.
  assert (Q : quiet c) by (split; reflexivity).
  split; [exact Q|].
  exact (recorded_event_is_processed c c 5 "REMIND_20" (Some 5)
           Scenario.db_event5 Q Q).
Defined.

Lemma order_by_desc_limit_1_app {R : Type} (key : R -> Z) (rows : list R)
    (x : R) :
  (forall r, In r rows -> key r < key x) ->
  order_by_desc_limit_1 key (rows ++ [x]) = Some x.
Proof.
  induction rows as [|r rows IH]; intros H; cbn; [reflexivity|].
  rewrite IH by (intros r' Hr'; apply H; now right).
  assert (Hr : key r < key x) by (apply H; now left).
  apply Z.ltb_lt in Hr. now rewrite Hr.
Qed.

Lemma select_latest_user_control_insert ts state db :
  select_latest_user_control (insert_user_control ts state db) = state.
Proof.
  unfold select_latest_user_control, insert_user_control.
  cbn [user_control]. rewrite order_by_desc_limit_1_app; [reflexivity|].
  intros r Hr. cbn [uc_id].
  apply (proj2 (next_rowid_fresh (seq_user_control db)
                  (map uc_id (user_control db)))).
  now apply in_map.
Qed.

(** X2. Whatever [user_control] holds, the decision that
    [update_user_control_decision] has just inserted is the one that
    [get_latest_user_control] returns: the new row gets the largest
    id. *)
Theorem latest_decision_is_last_written (c1 c2 : call) (state : string)
    (db : database) :
  quiet c1 -> quiet c2 ->
  (update_user_control_decision c1 state ;;; get_latest_user_control c2) db
  = (Returns state, insert_user_control (Clock.strftime (now c1)) state db).
Proof.
  intros Q1 Q2.
  erewrite bind_returns by (apply update_user_control_decision_quiet; exact Q1).
  unfold get_latest_user_control. rewrite try_quiet by exact Q2. cbn [fst snd].
  now rewrite select_latest_user_control_insert.
Qed.

Lemma latest_decision_is_last_written_witness :
  let c := mkCall Scenario.t0 false false in
  quiet c /\
  (update_user_control_decision c "OFF" ;;; get_latest_user_control c)
    Scenario.db_event5_approved
  = (Returns "OFF",
     insert_user_control (Clock.strftime (now c)) "OFF"
       Scenario.db_event5_approved).
Proof.
  intros c.
  assert (Q : quiet c) by (split; reflexivity).
  split; [exact Q|].
  exact (latest_decision_is_last_written c c "OFF"
           Scenario.db_event5_approved Q Q).
Defined.

(* ================================================================== *)
(** ** The fan status                                                  *)
(* ================================================================== *)

Lemma update_fan_status_cases c1 c2 db :
  update_fan_status c1 c2 db
  = if escapes c1 || escapes c2 then fan_unknown
    else if (snd (if db_error c1 then (None, "OFF")
                  else select_last_filter_state db) =? "ON")%string
            && ((if db_error c2 then "OFF"
                 else select_latest_user_control db) =? "ON")%string
         then fan_on else fan_off.
Proof.
  unfold update_fan_status, update_fan_status_body, bind,
    get_last_filter_state, get_latest_user_control, try_except_finally, ret.
  destruct (db_error c1), (escapes c1), (db_error c2), (escapes c2);
    cbn [orb fst snd]; try reflexivity;
    destruct (select_last_filter_state db) as [last st]; cbn [snd];
    try reflexivity;
    match goal with
    | |- context [if ?b then _ else _] => destruct b; reflexivity
    end.
Qed.

(** X3. [update_fan_status] shows "Fan is currently ON" only when the
    latest row of [filter_state] and the latest row of [user_control]
    are both ['ON'], whatever fails; when both reads go through it
    shows it exactly then, and "Fan is currently OFF" otherwise; a read
    whose statement fails shows OFF, and an exception leaving a read
    shows "Fan status unknown". *)
Theorem fan_status_sound (c1 c2 : call) (db : database) :
  (update_fan_status c1 c2 db = fan_on ->
   snd (select_last_filter_state db) = "ON" /\
   select_latest_user_control db = "ON")
  /\
  (quiet c1 -> quiet c2 ->
   update_fan_status c1 c2 db
   = if (snd (select_last_filter_state db) =? "ON")%string
        && (select_latest_user_control db =? "ON")%string
     then fan_on else fan_off)
  /\
  (escapes c1 = false -> escapes c2 = false ->
   db_error c1 = true \/ db_error c2 = true ->
   update_fan_status c1 c2 db = fan_off)
  /\
  (escapes c1 = true \/ escapes c2 = true ->
   update_fan_status c1 c2 db = fan_unknown).
Proof.
  rewrite update_fan_status_cases.
  split; [|split; [|split]].
  - unfold fan_on, fan_off, fan_unknown.
    destruct (escapes c1 || escapes c2); [intros H; discriminate H|].
    destruct (db_error c1); cbn [snd];
      [compare_ids; intros H; discriminate H|].
    destruct (db_error c2);
      [compare_ids; rewrite andb_false_r; cbv iota; intros H; discriminate H|].
    match goal with
    | |- context [(?a =? "ON")%string && (?b =? "ON")%string] =>
        destruct (a =? "ON")%string eqn:E1;
        destruct (b =? "ON")%string eqn:E2
    end; cbn [andb]; try (intros H; discriminate H).
    intros _. split; now apply String.eqb_eq.
  - intros [D1 E1] [D2 E2]. now rewrite D1, D2, E1, E2.
  - intros E1 E2 [D|D]; rewrite E1, E2, D; cbn [orb snd].
    + reflexivity.
    + now rewrite andb_false_r.
  - intros [E|E]; rewrite E; [reflexivity|]. now rewrite orb_true_r.
Qed.

Lemma fan_status_sound_witness :
  let c := mkCall Scenario.t0 false false in
  let locked := mkCall Scenario.t0 true false in
  let broken := mkCall Scenario.t0 false true in
  quiet c /\
  update_fan_status c c Scenario.db_event5_approved = fan_on /\
  snd (select_last_filter_state Scenario.db_event5_approved) = "ON" /\
  select_latest_user_control Scenario.db_event5_approved = "ON" /\
  update_fan_status c locked Scenario.db_event5_approved = fan_off /\
  update_fan_status broken c Scenario.db_event5_approved = fan_unknown.
Proof.
  intros c locked broken.
  assert (Q : quiet c) by (split; reflexivity).
  split; [exact Q|].
  assert (Hon : update_fan_status c c Scenario.db_event5_approved = fan_on).
  { rewrite (proj1 (proj2 (fan_status_sound c c Scenario.db_event5_approved))
               Q Q).
    reflexivity. }
  split; [exact Hon|].
  destruct (proj1 (fan_status_sound c c Scenario.db_event5_approved) Hon)
    as [H1 H2].
  split; [exact H1|]. split; [exact H2|]. split.
  - apply (proj1 (proj2 (proj2 (fan_status_sound c locked
                                  Scenario.db_event5_approved))));
      [reflexivity|reflexivity|now right].
  - apply (proj2 (proj2 (proj2 (fan_status_sound broken c
                                  Scenario.db_event5_approved)))).
    now left.
Defined.

Lemma fan_status_tables c1 c2 db db' :
  filter_state db' = filter_state db ->
  user_control db' = user_control db ->
  update_fan_status c1 c2 db' = update_fan_status c1 c2 db.
Proof.
  intros Hfs Huc. rewrite !update_fan_status_cases.
  unfold select_last_filter_state, select_latest_user_control.
  now rewrite Hfs, Huc.
Qed.

Lemma fan_status_after_decision c1 c2 eid action ts ts' state db :
  quiet c1 -> quiet c2 ->
  update_fan_status c1 c2
    (insert_processed_event eid action ts (insert_user_control ts' state db))
  = if (snd (select_last_filter_state db) =? "ON")%string
       && (state =? "ON")%string
    then fan_on else fan_off.
Proof.
  intros [D1 E1] [D2 E2].
  rewrite update_fan_status_cases, D1, D2, E1, E2. cbn [orb].
  change (select_latest_user_control
            (insert_processed_event eid action ts
               (insert_user_control ts' state db)))
    with (select_latest_user_control (insert_user_control ts' state db)).
  rewrite select_latest_user_control_insert. reflexivity.
Qed.

(** X4. With the latest condition ON: after the operator approves, or
    cancels at the disclaimer, the fan status reads ON; after the
    operator confirms the disclaimer it reads OFF; declining in the
    main modal alone leaves it as it was. *)
Theorem fan_follows_decision (e : env) (s : session) (db : database)
    (eid : Z) (c1 c2 : call) :
  no_faults e -> quiet c1 -> quiet c2 ->
  select_last_filter_state db = (Some eid, "ON") ->
  eid <> 0 ->
  (triggered_by e "enable-fan-filterstate" \/ triggered_by e "disclaimer-no" ->
   update_fan_status c1 c2 (snd (invoke e s db)) = fan_on)
  /\
  (triggered_by e "disclaimer-yes" ->
   update_fan_status c1 c2 (snd (invoke e s db)) = fan_off)
  /\
  (triggered_by e "keep-fan-off-filterstate" ->
   update_fan_status c1 c2 (snd (invoke e s db))
   = update_fan_status c1 c2 db).
Proof.
  intros NF Q1 Q2 Hlast Hne.
  destruct (consume_due_tables e db) as (Hfs & Huc & Hpe).
  assert (Hst : snd (select_last_filter_state (consume_due e db)) = "ON").
  { unfold select_last_filter_state. rewrite Hfs.
    fold (select_last_filter_state db). now rewrite Hlast. }
  split; [|split].
  - intros [(p & rest & Htr & Hid) | (p & rest & Htr & Hid)].
    + run_click Htr Hid Hlast.
      erewrite bind_returns by (apply click_enable; assumption).
      cbn [snd ret]. rewrite fan_status_after_decision by assumption.
      now rewrite Hst.
    + run_click Htr Hid Hlast.
      erewrite bind_returns by (apply click_disclaimer_no; assumption).
      cbn [snd ret]. rewrite fan_status_after_decision by assumption.
      now rewrite Hst.
  - intros (p & rest & Htr & Hid).
    run_click Htr Hid Hlast.
    erewrite bind_returns by (apply click_disclaimer_yes; assumption).
    cbn [snd ret]. rewrite fan_status_after_decision by assumption.
    rewrite Hst. reflexivity.
  - intros (p & rest & Htr & Hid).
    run_click Htr Hid Hlast.
    erewrite bind_returns by apply click_keep_off.
    cbn [snd ret]. now apply fan_status_tables.
Qed.

Lemma fan_follows_decision_witness :
  let c := mkCall (Scenario.at_minute 2) false false in
  let db := Scenario.db_event5_shown in
  let prompting := mkSession true true false false in
  quiet c /\
  update_fan_status c c db = fan_off /\
  update_fan_status c c
    (snd (invoke (calm Scenario.approve (Scenario.at_minute 1)) prompting db))
  = fan_on /\
  update_fan_status c c
    (snd (invoke (calm Scenario.disclaimer_confirm (Scenario.at_minute 1))
            prompting db))
  = fan_off.
Proof.
  intros c db prompting.
  assert (Q : quiet c) by (split; reflexivity).
  assert (H5 : 5 <> 0) by discriminate.
  split; [exact Q|]. split; [reflexivity|]. split.
  - apply (proj1 (fan_follows_decision
                    (calm Scenario.approve (Scenario.at_minute 1))
                    prompting db 5 c c (calm_no_faults _ _) Q Q eq_refl H5)).
    left. now exists "enable-fan-filterstate.n_clicks", [].
  - apply (proj1 (proj2 (fan_follows_decision
                    (calm Scenario.disclaimer_confirm (Scenario.at_minute 1))
                    prompting db 5 c c (calm_no_faults _ _) Q Q eq_refl H5))).
    now exists "disclaimer-yes.n_clicks", [].
Defined.

(* ================================================================== *)
(** ** Scheduling and removing reminders                               *)
(* ================================================================== *)

Lemma add_days_year (n : nat) : forall d0 d1,
  Clock.add_days n d0 = Some d1 -> fst (fst d0) <= fst (fst d1).
Proof.
  induction n as [|n IH]; intros d0 d1 H0; cbn in H0.
  - injection H0 as <-. lia.
  - destruct (Clock.next_day d0) as [d2|] eqn:Hn; [|discriminate].
    apply IH in H0. etransitivity; [|exact H0].
    destruct d0 as [[a b] c]. unfold Clock.next_day in Hn.
    destruct (c <? _); [injection Hn as <-; cbn; lia|].
    destruct (b <? 12); [injection Hn as <-; cbn; lia|].
    destruct (a <? Clock.MAXYEAR); [injection Hn as <-; cbn; lia|discriminate].
Qed.

Lemma add_minutes_year (t due : Clock.datetime) (m : Z) :
  Clock.add_minutes t m = Some due -> Clock.year t <= Clock.year due.
Proof.
  unfold Clock.add_minutes.
  destruct (Clock.add_days _ _) as [[[y' m'] d']|] eqn:Hdays; [|discriminate].
  intros H. injection H as <-. cbn.
  apply add_days_year in Hdays. exact Hdays.
Qed.

Lemma select_due_reminder_insert now_ n time label db :
  select_due_reminder now_ db = (None, None) ->
  select_due_reminder now_ (insert_reminder n time label db)
  = if (time <=? now_)%string
    then (Some n, Some (next_rowid (seq_reminders db)
                          (map rm_reminder_id (reminders db))))
    else (None, None).
Proof.
  unfold select_due_reminder, insert_reminder, fetchone.
  cbn [reminders]. rewrite find_app_last.
  destruct (find _ (reminders db)); [discriminate|]. intros _.
  unfold is_due at 1. cbn [rm_reminder_time].
  now destruct (time <=? now_)%string.
Qed.

(** X5. A reminder scheduled by [add_reminder] with a delay of up to
    an hour (before the last year of the calendar) is not reported by
    [get_due_reminder] at the instant it was scheduled; with no other
    reminder due, [get_due_reminder] reports it, with the event it was
    scheduled for, exactly from the second it falls due. *)
Theorem scheduled_reminder_comes_due (c_add c_due : call) (n m : Z)
    (label : string) (db : database) :
  quiet c_add -> quiet c_due ->
  Clock.valid (now c_add) -> Clock.four_digit_year (now c_add) ->
  Clock.year (now c_add) < Clock.MAXYEAR ->
  0 < m <= 60 ->
  Clock.valid (now c_due) -> Clock.four_digit_year (now c_due) ->
  select_due_reminder (Clock.strftime (now c_due)) db = (None, None) ->
  exists due db',
    Clock.add_minutes (now c_add) m = Some due /\
    add_reminder c_add (Some n) m label db = (Returns tt, db') /\
    ~ Clock.le (Clock.whole_second due) (Clock.whole_second (now c_add)) /\
    (Clock.le (Clock.whole_second due) (Clock.whole_second (now c_due)) ->
     get_due_reminder c_due db'
     = (Returns (Some n, Some (next_rowid (seq_reminders db)
                                 (map rm_reminder_id (reminders db)))), db')) /\
    (~ Clock.le (Clock.whole_second due) (Clock.whole_second (now c_due)) ->
     get_due_reminder c_due db' = (Returns (None, None), db')).
Proof.
  intros Qa Qd Va Ya Hmax Hm Vd Yd Hnone.
  destruct (add_minutes_later (now c_add) m Va Hmax Hm)
    as (due & Hadd & Vdue & Hlater).
  assert (Ydue : Clock.four_digit_year due).
  { unfold Clock.four_digit_year in *.
    apply add_minutes_year in Hadd. lia. }
  exists due. eexists.
  split; [exact Hadd|].
  split; [exact (add_reminder_quiet c_add Qa n m label due db Hadd)|].
  split; [exact Hlater|].
  pose proof (strftime_leb_whole_second due (now c_due) Vdue Vd Ydue Yd) as Hs.
  split; intros Hle;
    rewrite get_due_reminder_quiet by assumption;
    rewrite select_due_reminder_insert by assumption.
  - apply Hs in Hle. now rewrite Hle.
  - assert (E : (Clock.strftime due <=? Clock.strftime (now c_due))%string
                = false)
      by (apply not_true_is_false; intros E; apply Hle, Hs, E).
    now rewrite E.
Qed.

Lemma scheduled_reminder_comes_due_witness :
  let c_add := mkCall (Scenario.at_minute 2) false false in
  let c_due := mkCall (Scenario.at_minute 25) false false in
  let db := Scenario.db_event5_shown in
  let db' := insert_reminder 5 "2024-05-17 09:22:00" "20 minutes" db in
  quiet c_add /\ quiet c_due /\
  select_due_reminder (Clock.strftime (now c_due)) db = (None, None) /\
  add_reminder c_add (Some 5) 20 "20 minutes" db = (Returns tt, db') /\
  get_due_reminder c_due db' = (Returns (Some 5, Some 1), db').
Proof.
  intros c_add c_due db db'.
  assert (Qa : quiet c_add) by (split; reflexivity).
  assert (Qd : quiet c_due) by (split; reflexivity).
  assert (Hm : 0 < 20 <= 60) by lia.
  assert (Hy : Clock.year (now c_add) < Clock.MAXYEAR) by reflexivity.
  assert (Y : forall t, 1000 <= Clock.year t -> Clock.four_digit_year t)
    by (intros t H; exact H).
  assert (Ya : 1000 <= Clock.year (now c_add)) by (cbn; lia).
  assert (Yd : 1000 <= Clock.year (now c_due)) by (cbn; lia).
  split; [exact Qa|]. split; [exact Qd|]. split; [reflexivity|].
  assert (Va : Clock.valid (now c_add)) by (apply validb_valid; reflexivity).
  assert (Vd : Clock.valid (now c_due)) by (apply validb_valid; reflexivity).
  destruct (scheduled_reminder_comes_due c_add c_due 5 20 "20 minutes" db
              Qa Qd Va (Y _ Ya) Hy Hm Vd (Y _ Yd) eq_refl)
    as (due & db1 & Hadd & Hdb & _ & Hdue & _).
  split; [reflexivity|].
  assert (E : due = Clock.mkDatetime 2024 5 17 9 22 0 0)
    by (cbn in Hadd; congruence).
  assert (E1 : db1 = db').
  { assert (H : add_reminder c_add (Some 5) 20 "20 minutes" db
                = (Returns tt, db')) by reflexivity.
    congruence. }
  subst due db1. apply Hdue.
  unfold Clock.le. cbn. lia.
Defined.

Lemma filter_twice {R : Type} (p : R -> bool) (rows : list R) :
  filter p (filter p rows) = filter p rows.
Proof.
  induction rows as [|r rows IH]; [reflexivity|].
  cbn [filter]. destruct (p r) eqn:E; [|exact IH].
  cbn [filter]. rewrite E. now f_equal.
Qed.

Lemma filter_length_one {R : Type} (key : R -> Z) (k : Z) (rows : list R) :
  NoDup (map key rows) ->
  (exists r, In r rows /\ key r = k) ->
  S (List.length (filter (fun r => negb (key r =? k)) rows))
  = List.length rows.
Proof.
  induction rows as [|r rows IH]; intros Hnd (x & Hin & Hk).
  - destruct Hin.
  - cbn [map] in Hnd. apply NoDup_cons_iff in Hnd. destruct Hnd as [Hnotin Hnd'].
    cbn [filter]. destruct (key r =? k) eqn:E; cbn [negb List.length].
    + f_equal. apply Z.eqb_eq in E.
      assert (Hall : forall y, In y rows -> negb (key y =? k) = true).
      { intros y Hy. apply negb_true_iff, Z.eqb_neq. intros Heq.
        apply Hnotin. rewrite E, <- Heq. now apply in_map. }
      clear -Hall. induction rows as [|y rows IH]; [reflexivity|].
      cbn [filter]. rewrite Hall by now left.
      cbn [List.length]. f_equal. apply IH. intros z Hz. apply Hall. now right.
    + f_equal. apply IH; [exact Hnd'|].
      destruct Hin as [<- | Hin].
      * apply Z.eqb_neq in E. contradiction.
      * exists x. now split.
Qed.

(** X6. Once [remove_reminder] has gone through for an id, the table
    holds exactly the reminders with other ids, [get_due_reminder]
    never reports that id again, and removing it once more changes
    nothing; when ids are distinct and the id was present, exactly one
    row has gone. *)
Theorem removed_reminder_is_gone (c1 c2 : call) (rid : Z) (db : database) :
  quiet c1 -> quiet c2 ->
  let db' := delete_reminder (Some rid) db in
  remove_reminder c1 (Some rid) db = (Returns tt, db') /\
  (forall r, In r (reminders db')
             <-> In r (reminders db) /\ rm_reminder_id r <> rid) /\
  (forall ev, get_due_reminder c2 db' <> (Returns (ev, Some rid), db')) /\
  remove_reminder c1 (Some rid) db' = (Returns tt, db') /\
  (NoDup (map rm_reminder_id (reminders db)) ->
   (exists r, In r (reminders db) /\ rm_reminder_id r = rid) ->
   S (List.length (reminders db')) = List.length (reminders db)).
Proof.
  intros Q1 Q2 db'.
  assert (Hin : forall r, In r (reminders db')
                          <-> In r (reminders db) /\ rm_reminder_id r <> rid).
  { intros r. unfold db', delete_reminder; cbn [reminders pyint_eqb].
    rewrite filter_In. split; intros [H1 H2]; (split; [exact H1|]).
    - apply negb_true_iff, Z.eqb_neq in H2. exact H2.
    - now apply negb_true_iff, Z.eqb_neq. }
  split; [now apply remove_reminder_quiet|].
  split; [exact Hin|]. split; [|split].
  - intros ev H. rewrite get_due_reminder_quiet in H by assumption.
    injection H as H. unfold select_due_reminder, fetchone in H.
    destruct (find _ (reminders db')) as [r|] eqn:F; [|discriminate].
    apply find_some in F. destruct F as [F _]. apply Hin in F.
    injection H as _ H. now destruct F.
  - rewrite remove_reminder_quiet by assumption. f_equal.
    unfold db', delete_reminder; cbn [reminders filter_state user_control
      processed_events seq_filter_state seq_user_control
      seq_processed_events seq_reminders pyint_eqb].
    f_equal. apply filter_twice.
  - intros Hnd Hex. unfold db', delete_reminder; cbn [reminders pyint_eqb].
    now apply (filter_length_one rm_reminder_id rid).
Qed.

Lemma removed_reminder_is_gone_witness :
  let c := mkCall (Scenario.at_minute 25) false false in
  let db := Scenario.db_reminder_pending in
  quiet c /\
  NoDup (map rm_reminder_id (reminders db)) /\
  get_due_reminder c db = (Returns (Some 5, Some 1), db) /\
  get_due_reminder c (delete_reminder (Some 1) db)
  <> (Returns (Some 5, Some 1), delete_reminder (Some 1) db) /\
  S (List.length (reminders (delete_reminder (Some 1) db)))
  = List.length (reminders db).
Proof.
  intros c db.
  assert (Q : quiet c) by (split; reflexivity).
  assert (Hnd : NoDup (map rm_reminder_id (reminders db)))
    by (repeat constructor; intros []).
  destruct (removed_reminder_is_gone c c 1 db Q Q)
    as (_ & _ & Hdue & _ & Hlen).
  split; [exact Q|]. split; [exact Hnd|]. split; [reflexivity|].
  split; [apply Hdue|].
  apply Hlen; [exact Hnd|].
  exists (mkReminder 1 5 "2024-05-17 09:22:00" "20 minutes").
  split; [now left|reflexivity].
Defined.

(* ================================================================== *)
(** ** What every invocation keeps                                     *)
(* ================================================================== *)

Lemma triple_of_equation {A : Type} (I : database -> Prop) (m : Py A) (a : A)
    (Q : A -> database -> Prop) X :
  (forall db, m db = (Returns a, db)) ->
  (forall db, I db -> Q a db) ->
  triple I m Q X.
Proof. intros Hm HQ db Hdb. rewrite Hm. auto. Qed.

Lemma triple_bind_ret {A B : Type} (I : database -> Prop) (a : A)
    (k : A -> Py B) (Q : B -> database -> Prop) X :
  triple I (k a) Q X -> triple I (bind (ret a) k) Q X.
Proof. intros H db Hdb. exact (H db Hdb). Qed.

(** An invariant of the database that the statements of the helpers
    keep is kept by the two halves of the callback, whatever fails. *)
Section Keeps.

Variable inv : database -> Prop.
Variable e : env.

Hypothesis keeps_delete :
  forall rid db, inv db -> inv (delete_reminder rid db).
Hypothesis keeps_ledger :
  forall n action ts db, inv db -> inv (insert_processed_event n action ts db).

Lemma keeps_read {A : Type} (c : call) (d : A) (query : database -> A) :
  triple inv (try_except_finally c d (fun db => (query db, db)))
         (fun _ => inv) inv.
Proof. apply triple_try_inv. auto. Qed.

Lemma keeps_remove c rid :
  triple inv (remove_reminder c rid) (fun _ => inv) inv.
Proof. apply triple_try_inv. intros db. apply keeps_delete. Qed.

Lemma keeps_record c x action :
  triple inv (record_event_as_processed c x action) (fun _ => inv) inv.
Proof.
  apply triple_try_inv. intros db Hdb. destruct x; cbn [snd]; auto.
Qed.

Lemma reminder_or_prompt_keeps tid last st due rid l :
  triple inv (reminder_or_prompt e tid last st due rid l) (fun _ => inv) inv.
Proof.
  unfold reminder_or_prompt.
  destruct (truthy due && pyint_eqb due last && (st =? "ON")%string).
  - eapply triple_bind; [apply keeps_remove|]. intros ?.
    apply triple_ret. auto.
  - destruct ((tid =? "interval-component")%string && (st =? "ON")%string
              && truthy last).
    + eapply triple_bind with (Q1 := fun _ => inv);
        [apply keeps_read|]. intros processed.
      destruct (negb processed).
      * eapply triple_bind; [apply keeps_record|]. intros ?.
        apply triple_ret. auto.
      * apply triple_ret. auto.
    + apply triple_ret. auto.
Qed.

(** A tick runs no click handler, so it needs no more. *)
Lemma tick_keeps s db :
  triggered_by e "interval-component" ->
  inv db -> inv (snd (invoke e s db)).
Proof.
  intros (p & rest & Htr & Hid) Hdb.
  unfold invoke, handle_filter_state_event.
  assert (H : triple inv
            (callback_body e (on_alert_shown s) (modal_open_state s)
               (disclaimer_modal_open s) (caution_modal_open s))
            (fun _ => inv) inv).
  { unfold callback_body. rewrite Htr. unfold first_triggered_id.
    apply triple_bind_ret. rewrite Hid.
    eapply triple_bind; [apply keeps_read|]. intros [last st].
    eapply triple_bind; [apply keeps_read|]. intros [due rid].
    eapply triple_bind; [apply reminder_or_prompt_keeps|]. intros l1.
    eapply triple_bind with (Q1 := fun _ => inv).
    - apply (triple_of_equation inv _ l1); [apply tick_no_click|auto].
    - intros l2. apply triple_ret. auto. }
  specialize (H db Hdb).
  destruct (callback_body _ _ _ _ _ db) as [[out|] db']; exact H.
Qed.

Hypothesis keeps_reminder :
  forall n time label db, inv db -> inv (insert_reminder n time label db).
Hypothesis keeps_decision :
  forall ts state db, inv db -> inv (insert_user_control ts state db).

Lemma keeps_guarded (b : bool) (m : Py unit) :
  triple inv m (fun _ => inv) inv ->
  triple inv (if b then m else ret tt) (fun _ => inv) inv.
Proof. intros H. destruct b; [exact H|]. apply triple_ret. auto. Qed.

Lemma keeps_add_reminder c x delay label :
  triple inv (add_reminder c x delay label) (fun _ => inv) inv.
Proof.
  apply triple_try_inv. intros db Hdb.
  destruct (Clock.add_minutes (now c) delay), x; cbn [snd]; auto.
Qed.

Lemma keeps_update c state :
  triple inv (update_user_control_decision c state) (fun _ => inv) inv.
Proof. apply triple_try_inv. intros db. apply keeps_decision. Qed.

Lemma user_clicks_keeps tid last l :
  triple inv (user_clicks e tid last l) (fun _ => inv) inv.
Proof.
  unfold user_clicks.
  repeat match goal with
  | |- triple _ (if (tid =? ?id)%string then _ else _) _ _ =>
      destruct (tid =? id)%string
  | |- triple _ (if truthy _ then _ else _) _ _ => apply keeps_guarded
  | |- triple _ (bind _ _) _ _ => eapply triple_bind; [|intros ?]
  | |- triple _ (ret _) _ _ => apply triple_ret; auto
  | |- triple _ (update_user_control_decision _ _) _ _ => apply keeps_update
  | |- triple _ (record_event_as_processed _ _ _) _ _ => apply keeps_record
  | |- triple _ (add_reminder _ _ _ _) _ _ => apply keeps_add_reminder
  end.
Qed.

Lemma invoke_keeps s db : inv db -> inv (snd (invoke e s db)).
Proof.
  intros Hdb. unfold invoke, handle_filter_state_event.
  assert (H : triple inv
            (callback_body e (on_alert_shown s) (modal_open_state s)
               (disclaimer_modal_open s) (caution_modal_open s))
            (fun _ => inv) inv).
  { unfold callback_body.
    eapply triple_bind with (Q1 := fun _ => inv).
    { unfold first_triggered_id. destruct (triggered e).
      - intros db0 H0. exact H0.
      - apply triple_ret. auto. }
    intros tid.
    eapply triple_bind; [apply keeps_read|]. intros [last st].
    eapply triple_bind; [apply keeps_read|]. intros [due rid].
    eapply triple_bind; [apply reminder_or_prompt_keeps|]. intros l1.
    eapply triple_bind; [apply user_clicks_keeps|]. intros l2.
    apply triple_ret. auto. }
  specialize (H db Hdb).
  destruct (callback_body _ _ _ _ _ db) as [[out|] db']; exact H.
Qed.

End Keeps.

Lemma grown_from_refl db : grown_from db db.
Proof.
  split; [reflexivity|]. split; exists []; now rewrite app_nil_r.
Qed.

(** X7. Whatever fires the callback and whatever fails, an invocation
    leaves [filter_state] as it was and the rows of [user_control] and
    [processed_events] in place: it can only append to these two
    tables.  So along any sequence of invocations, with the sensor
    pipeline writing in between, decisions and ledger rows are never
    removed or changed. *)
Theorem stores_only_grow (e : env) (s : session) (db : database) :
  grown_from db (snd (invoke e s db))
  /\
  forall steps,
    (exists more,
        user_control (snd (run steps s db))
        = (user_control db ++ more)%list) /\
    (exists more,
        processed_events (snd (run steps s db))
        = (processed_events db ++ more)%list).
Proof.
  assert (Hone : forall e s db, grown_from db (snd (invoke e s db))).
  { clear. intros e s db.
    apply (invoke_keeps (grown_from db) e); try apply grown_from_refl.
    - intros rid d H. exact H.
    - intros n action ts d (H1 & H2 & more & H3).
      split; [exact H1|]. split; [exact H2|].
      exists (more ++ [mkProcessed
                         (next_rowid (seq_processed_events d)
                            (map pe_processed_id (processed_events d)))
                         n action ts])%list.
      cbn [insert_processed_event processed_events].
      now rewrite H3, app_assoc.
    - intros n time label d H. exact H.
    - intros ts state d (H1 & (more & H2) & H3).
      split; [exact H1|]. split; [|exact H3].
      exists (more ++ [mkUserControl
                         (next_rowid (seq_user_control d)
                            (map uc_id (user_control d))) ts state])%list.
      cbn [insert_user_control user_control].
      now rewrite H2, app_assoc. }
  split; [apply Hone|].
  intros steps. revert s db.
  induction steps as [|st rest IH]; intros s db; cbn [run].
  - split; exists []; cbn; now rewrite app_nil_r.
  - pose proof (Hone (step_env st) s (sensor_writes st db))
      as (_ & (m1 & H1) & (m2 & H2)).
    destruct (invoke (step_env st) s (sensor_writes st db)) as [out db'].
    cbn [snd] in H1, H2.
    destruct (IH (stored out) db') as ((n1 & G1) & (n2 & G2)).
    split.
    + exists (m1 ++ n1)%list. rewrite G1, H1. cbn [sensor_writes user_control].
      now rewrite app_assoc.
    + exists (m2 ++ n2)%list. rewrite G2, H2.
      cbn [sensor_writes processed_events]. now rewrite app_assoc.
Qed.

(** X8. On a scheduling tick, whatever fails, the callback writes no
    row to [user_control] and creates no reminder: every reminder it
    leaves was there before. *)
Theorem tick_records_no_decision (e : env) (s : session) (db : database) :
  triggered_by e "interval-component" ->
  user_control (snd (invoke e s db)) = user_control db /\
  incl (reminders (snd (invoke e s db))) (reminders db).
Proof.
  intros Htick.
  apply (tick_keeps
           (fun d => user_control d = user_control db
                     /\ incl (reminders d) (reminders db)) e).
  - intros rid d [H1 H2]. split; [exact H1|].
    intros r Hr. apply H2. cbn in Hr. now apply filter_In in Hr.
  - intros n action ts d H. exact H.
  - exact Htick.
  - split; [reflexivity|apply incl_refl].
Qed.

Lemma tick_records_no_decision_witness :
  let e := Scenario.ledger_locked (Scenario.at_minute 25) in
  let db := Scenario.db_reminder_pending in
  triggered_by e "interval-component" /\
  user_control (snd (invoke e initial_session db)) = user_control db /\
  incl (reminders (snd (invoke e initial_session db))) (reminders db) /\
  reminders (snd (invoke e initial_session db)) = [].
Proof.
  intros e db.
  assert (Ht : triggered_by e "interval-component")
    by (now exists "interval-component.n_intervals", []).
  destruct (tick_records_no_decision e initial_session db Ht) as [H1 H2].
  split; [exact Ht|]. split; [exact H1|]. split; [exact H2|]. reflexivity.
Defined.

(* ================================================================== *)
(** ** Primary keys                                                    *)
(* ================================================================== *)

Lemma increasing_from_weaken (lo lo' : Z) (ids : list Z) :
  lo' <= lo -> increasing_from lo ids -> increasing_from lo' ids.
Proof. destruct ids; cbn; [auto|]. intros H [H1 H2]. split; [lia|exact H2]. Qed.

Lemma increasing_from_above (ids : list Z) : forall lo,
  increasing_from lo ids -> forall i, In i ids -> lo < i.
Proof.
  induction ids as [|j ids IH]; intros lo H i Hin; [destruct Hin|].
  destruct H as [H1 H2]. destruct Hin as [<- | Hin]; [exact H1|].
  specialize (IH j H2 i Hin). lia.
Qed.

Lemma increasing_from_NoDup (ids : list Z) : forall lo,
  increasing_from lo ids -> NoDup ids.
Proof.
  induction ids as [|j ids IH]; intros lo H; [constructor|].
  destruct H as [H1 H2]. constructor; [|exact (IH j H2)].
  intros Hin. pose proof (increasing_from_above ids j H2 j Hin). lia.
Qed.

Lemma increasing_from_app (ids : list Z) (x : Z) : forall lo,
  increasing_from lo ids -> lo < x -> (forall i, In i ids -> i < x) ->
  increasing_from lo (ids ++ [x]).
Proof.
  induction ids as [|j ids IH]; intros lo H Hlo Hx; cbn.
  - auto.
  - destruct H as [H1 H2]. split; [exact H1|].
    apply IH; [exact H2| |].
    + apply Hx. now left.
    + intros i Hi. apply Hx. now right.
Qed.

Lemma increasing_from_filter {R : Type} (key : R -> Z) (p : R -> bool)
    (rows : list R) : forall lo,
  increasing_from lo (map key rows) ->
  increasing_from lo (map key (filter p rows)).
Proof.
  induction rows as [|r rows IH]; intros lo H; [exact H|].
  destruct H as [H1 H2]. cbn [filter]. destruct (p r); cbn [map].
  - split; [exact H1|]. now apply IH.
  - apply IH. apply (increasing_from_weaken (key r)); [lia|exact H2].
Qed.

Lemma keys_ok_insert (seq : Z) (ids : list Z) :
  keys_ok seq ids ->
  keys_ok (next_rowid seq ids) (ids ++ [next_rowid seq ids]).
Proof.
  intros (H1 & H2 & H3).
  destruct (next_rowid_fresh seq ids) as [F1 F2].
  split; [|split].
  - apply increasing_from_app; [exact H1|lia|exact F2].
  - intros i Hi. apply in_app_or in Hi. destruct Hi as [Hi | [<- | []]].
    + specialize (F2 i Hi). lia.
    + lia.
  - lia.
Qed.

Lemma well_keyed_invoke e s db :
  well_keyed db -> well_keyed (snd (invoke e s db)).
Proof.
  apply (invoke_keeps well_keyed e).
  - intros rid d (H1 & H2 & (G1 & G2 & G3)).
    split; [exact H1|]. split; [exact H2|].
    cbn [delete_reminder reminders seq_reminders].
    split; [|split].
    + now apply increasing_from_filter.
    + intros i Hi. apply G2. apply in_map_iff in Hi.
      destruct Hi as (r & <- & Hr). apply filter_In in Hr.
      apply in_map. exact (proj1 Hr).
    + exact G3.
  - intros n action ts d (H1 & H2 & H3).
    split; [exact H1|]. split; [|exact H3].
    cbn [insert_processed_event processed_events seq_processed_events].
    rewrite map_app. now apply keys_ok_insert.
  - intros n time label d (H1 & H2 & H3).
    split; [exact H1|]. split; [exact H2|].
    cbn [insert_reminder reminders seq_reminders].
    rewrite map_app. now apply keys_ok_insert.
  - intros ts state d (H1 & H2 & H3).
    split; [|split; [exact H2|exact H3]].
    cbn [insert_user_control user_control seq_user_control].
    rewrite map_app. now apply keys_ok_insert.
Qed.

(** X9. With [AUTOINCREMENT] keys, the tables the callback writes keep
    keys that are positive, increasing in rowid order and bounded by
    the counter, along any sequence of invocations and whatever fails;
    so no id of a reminder, a ledger row or a decision is ever used
    twice, and every reminder that was not there at the start has an
    id above the counter of the start. *)
Theorem keys_stay_distinct (steps : list step) (s : session)
    (db : database) :
  well_keyed db ->
  let db' := snd (run steps s db) in
  well_keyed db' /\
  NoDup (map rm_reminder_id (reminders db')) /\
  NoDup (map pe_processed_id (processed_events db')) /\
  NoDup (map uc_id (user_control db')) /\
  seq_reminders db <= seq_reminders db' /\
  (forall r, In r (reminders db') ->
             In r (reminders db) \/ seq_reminders db < rm_reminder_id r).
Proof.
  intros Hwf db'.
  assert (Hrun : forall steps s db, well_keyed db ->
                                    well_keyed (snd (run steps s db))).
  { clear. induction steps as [|st rest IH]; intros s db H; [exact H|].
    cbn [run].
    pose proof (well_keyed_invoke (step_env st) s (sensor_writes st db) H)
      as Hstep.
    destruct (invoke (step_env st) s (sensor_writes st db)) as [out d].
    now apply IH. }
  assert (Hfresh : forall steps s db,
    seq_reminders db <= seq_reminders (snd (run steps s db)) /\
    forall r, In r (reminders (snd (run steps s db))) ->
              In r (reminders db) \/ seq_reminders db < rm_reminder_id r).
  { clear. induction steps as [|st rest IH]; intros s db; cbn [run].
    - split; [cbn; lia|]. intros r Hr. now left.
    - assert (Hstep :
        seq_reminders db
        <= seq_reminders (snd (invoke (step_env st) s (sensor_writes st db)))
        /\ forall r,
            In r (reminders (snd (invoke (step_env st) s
                                    (sensor_writes st db)))) ->
            In r (reminders db) \/ seq_reminders db < rm_reminder_id r).
      { apply (invoke_keeps
                 (fun d => seq_reminders db <= seq_reminders d /\
                           forall r, In r (reminders d) ->
                                     In r (reminders db)
                                     \/ seq_reminders db < rm_reminder_id r)
                 (step_env st)).
        - intros rid d [H1 H2]. split; [exact H1|].
          intros r Hr. apply H2. cbn in Hr. now apply filter_In in Hr.
        - intros n action ts d H. exact H.
        - intros n time label d [H1 H2].
          destruct (next_rowid_fresh (seq_reminders d)
                      (map rm_reminder_id (reminders d))) as [F1 _].
          cbn [insert_reminder reminders seq_reminders].
          split; [lia|].
          intros r Hr. apply in_app_or in Hr.
          destruct Hr as [Hr | [<- | []]]; [now apply H2|].
          right. cbn [rm_reminder_id]. lia.
        - intros ts state d H. exact H.
        - split; [cbn; lia|]. intros r Hr. now left. }
      destruct (invoke (step_env st) s (sensor_writes st db)) as [out d].
      cbn [snd] in Hstep. destruct Hstep as [S1 S2].
      destruct (IH (stored out) d) as [I1 I2].
      split; [lia|].
      intros r Hr. destruct (I2 r Hr) as [Hd | Hd].
      + now apply S2.
      + right. lia. }
  pose proof (Hrun steps s db Hwf) as (K1 & K2 & K3).
  split; [exact (Hrun steps s db Hwf)|].
  split; [exact (increasing_from_NoDup _ _ (proj1 K3))|].
  split; [exact (increasing_from_NoDup _ _ (proj1 K2))|].
  split; [exact (increasing_from_NoDup _ _ (proj1 K1))|].
  apply Hfresh.
Qed.

Lemma keys_stay_distinct_witness :
  let db' := snd (run Scenario.two_deferrals initial_session
                      Scenario.empty_db) in
  well_keyed Scenario.empty_db /\
  well_keyed db' /\
  NoDup (map rm_reminder_id (reminders db')).
Proof.
  intros db'.
  assert (Hwf : well_keyed Scenario.empty_db).
  { repeat split; cbn; try lia; intros i []. }
  destruct (keys_stay_distinct Scenario.two_deferrals initial_session
              Scenario.empty_db Hwf) as (H1 & H2 & _).
  split; [exact Hwf|]. split; [exact H1|exact H2].
Defined.

(* ================================================================== *)
(** ** What every invocation keeps of the session                      *)
(* ================================================================== *)

(** A property of sessions that holds when the main modal has just
    been opened, and that survives a click handler (which closes the
    main modal and keeps the alert flag), survives every invocation,
    whatever fails. *)
Section SessionKeeps.

Variable good : session -> Prop.
Variable e : env.

Hypothesis good_open : good (mkSession true true false false).
Hypothesis good_click :
  forall a m d c d' c',
    good (mkSession a m d c) -> good (mkSession a false d' c').

Let any : database -> Prop := fun _ => True.

Lemma reminder_or_prompt_good tid last st due rid l :
  good (locals_session l) ->
  triple any (reminder_or_prompt e tid last st due rid l)
         (fun l' _ => good (locals_session l')) any.
Proof.
  intros Hl. unfold reminder_or_prompt.
  destruct (truthy due && pyint_eqb due last && (st =? "ON")%string).
  - eapply triple_bind; [apply every_triple_holds|]. intros ?.
    apply triple_ret. intros ? ?. exact good_open.
  - destruct ((tid =? "interval-component")%string && (st =? "ON")%string
              && truthy last).
    + eapply triple_bind; [apply every_triple_holds|]. intros processed.
      destruct (negb processed).
      * eapply triple_bind; [apply every_triple_holds|]. intros ?.
        apply triple_ret. intros ? ?. exact good_open.
      * apply triple_ret. auto.
    + apply triple_ret. auto.
Qed.

Lemma user_clicks_good tid last l :
  good (locals_session l) ->
  triple any (user_clicks e tid last l)
         (fun l' _ => good (locals_session l')) any.
Proof.
  intros Hl. unfold user_clicks.
  assert (Hc : forall d' c' msg,
             good (locals_session
                     (mkLocals false d' c' msg (updated_alert_shown l)))).
  { intros d' c' msg. destruct l as [m d c msg0 a].
    exact (good_click a m d c d' c' Hl). }
  repeat match goal with
  | |- triple _ (if (tid =? ?id)%string then _ else _) _ _ =>
      destruct (tid =? id)%string
  | |- triple _ (bind _ _) _ _ =>
      eapply triple_bind; [apply every_triple_holds|intros ?]
  | |- triple _ (ret _) _ _ => apply triple_ret; intros ? ?; try apply Hc
  end.
  exact Hl.
Qed.

Lemma invoke_good s db :
  good s -> good (stored (fst (invoke e s db))).
Proof.
  intros Hs. unfold invoke, handle_filter_state_event.
  assert (H : triple any
            (callback_body e (on_alert_shown s) (modal_open_state s)
               (disclaimer_modal_open s) (caution_modal_open s))
            (fun out _ => good (stored out)) any).
  { unfold callback_body.
    eapply triple_bind; [apply every_triple_holds|]. intros tid.
    eapply triple_bind; [apply every_triple_holds|]. intros [last st].
    eapply triple_bind; [apply every_triple_holds|]. intros [due rid].
    eapply triple_bind.
    { apply reminder_or_prompt_good. destruct s; exact Hs. }
    intros l1. cbv beta.
    eapply triple_bind
      with (Q1 := fun l2 _ => good (locals_session l2)).
    { apply (triple_assume (good (locals_session l1))); [auto|]. intros Hl1.
      eapply triple_weaken with (P' := any);
        [apply user_clicks_good; exact Hl1| | |]; cbv beta; auto.
      intros; exact I. }
    intros l2. apply triple_ret. intros db0 H. exact H. }
  specialize (H db I).
  destruct (callback_body _ _ _ _ _ db) as [[out|] db']; cbn.
  - exact H.
  - destruct s; exact Hs.
Qed.

End SessionKeeps.

(** X10. The [on-alert-shown] store is a latch: once true, no
    invocation sets it back to false, whatever fires the callback and
    whatever fails, so it stays true along every sequence of
    invocations; and in every session reachable from the initial one,
    the main modal is open only if the latch is set. *)
Theorem alert_shown_is_a_latch :
  (forall e s db,
      on_alert_shown s = true ->
      on_alert_shown (stored (fst (invoke e s db))) = true)
  /\
  (forall steps s db,
      on_alert_shown s = true ->
      on_alert_shown (fst (run steps s db)) = true)
  /\
  (forall s, reachable s ->
             modal_open_state s = true -> on_alert_shown s = true).
Proof.
  assert (Hone : forall e s db,
             on_alert_shown s = true ->
             on_alert_shown (stored (fst (invoke e s db))) = true).
  { intros e s db.
    apply (invoke_good (fun s' => on_alert_shown s' = true) e).
    - reflexivity.
    - intros a m d c d' c' H. exact H. }
  split; [exact Hone|]. split.
  - induction steps as [|st rest IH]; intros s db Hs; [exact Hs|].
    cbn [run].
    pose proof (Hone (step_env st) s (sensor_writes st db) Hs) as Hstep.
    destruct (invoke (step_env st) s (sensor_writes st db)) as [out db'].
    now apply IH.
  - intros s Hr. induction Hr as [|e s db Hr IH].
    + discriminate.
    + apply (invoke_good
               (fun s' => modal_open_state s' = true
                          -> on_alert_shown s' = true) e).
      * reflexivity.
      * intros a m d c d' c' _ H. discriminate H.
      * exact IH.
Qed.

Lemma alert_shown_is_a_latch_witness :
  let after := run [Scenario.st Scenario.fs5 Scenario.tick 0;
                    Scenario.st Scenario.fs5 Scenario.approve 1;
                    Scenario.st Scenario.fs6 Scenario.tick 11]
                   initial_session Scenario.empty_db in
  on_alert_shown (fst after) = true /\
  dialog_of (fst after) = Some IDLE.
Proof.
  intros after. split; [|reflexivity].
  apply (proj1 (proj2 alert_shown_is_a_latch)
           [Scenario.st Scenario.fs5 Scenario.approve 1;
            Scenario.st Scenario.fs6 Scenario.tick 11]
           (stored (fst (invoke (step_env (Scenario.st Scenario.fs5
                                             Scenario.tick 0))
                           initial_session
                           (sensor_writes (Scenario.st Scenario.fs5
                                             Scenario.tick 0)
                              Scenario.empty_db))))
           (snd (invoke (step_env (Scenario.st Scenario.fs5 Scenario.tick 0))
                   initial_session
                   (sensor_writes (Scenario.st Scenario.fs5 Scenario.tick 0)
                      Scenario.empty_db)))).
  reflexivity.
Defined.

(* ================================================================== *)
(** ** Ticks that repeat                                               *)
(* ================================================================== *)

(** One fault-free tick at which no reminder fires. *)
Lemma quiet_tick e s db :
  no_faults e ->
  triggered_by e "interval-component" ->
  reminder_fires e db = false ->
  (prompt_guard "interval-component" (fst (select_last_filter_state db))
                (snd (select_last_filter_state db))
   && negb (select_processed (fst (select_last_filter_state db)) db) = true /\
   exists n msg,
     fst (select_last_filter_state db) = Some n /\
     invoke e s db
     = (returned (mkLocals true false false msg true),
        insert_processed_event n "SHOWING_MODAL"
          (Clock.strftime (now (at_record_event_as_processed e))) db))
  \/
  (prompt_guard "interval-component" (fst (select_last_filter_state db))
                (snd (select_last_filter_state db))
   && negb (select_processed (fst (select_last_filter_state db)) db) = false /\
   invoke e s db = (returned (start_locals s), db)).
Proof.
  intros NF (p & rest & Htr & Hid) Hr.
  pose proof NF as (Q1 & Q2 & Q3 & Q4 & Q5 & Q6 & Q7).
  unfold invoke, handle_filter_state_event.
  rewrite (invoke_quiet_reads e s db p rest) by assumption.
  rewrite Hid.
  destruct (prompt_guard "interval-component"
              (fst (select_last_filter_state db))
              (snd (select_last_filter_state db))
            && negb (select_processed (fst (select_last_filter_state db)) db))
    eqn:G.
  - left. split; [reflexivity|].
    apply andb_true_iff in G. destruct G as [G1 G2].
    unfold prompt_guard in G1. compare_ids. cbn [andb] in G1.
    apply andb_true_iff in G1. destruct G1 as [Gst Glast].
    apply String.eqb_eq in Gst.
    destruct (fst (select_last_filter_state db)) as [n|] eqn:El;
      [|discriminate Glast].
    assert (Hn : n <> 0).
    { cbn in Glast. now apply negb_true_iff, Z.eqb_neq in Glast. }
    apply negb_true_iff in G2.
    unfold reminder_fires in Hr. rewrite El in Hr.
    exists n. eexists. split; [reflexivity|].
    erewrite bind_returns
      by (apply (prompt_branch e (Some n) _ _ _ _ db n); auto).
    erewrite bind_returns by apply tick_no_click.
    reflexivity.
  - right. split; [reflexivity|].
    erewrite bind_returns.
    2:{ apply no_branch; [assumption|exact Hr|].
        unfold prompt_guard in G. exact G. }
    erewrite bind_returns by apply tick_no_click.
    reflexivity.
Qed.

(** X11. A fault-free tick at which no reminder fires is idempotent:
    repeated under the same circumstances on the database and the
    session it has left, it changes neither.  In particular the ledger
    gets no second [SHOWING_MODAL] row. *)
Theorem tick_is_idempotent (e : env) (s : session) (db : database) :
  no_faults e ->
  triggered_by e "interval-component" ->
  reminder_fires e db = false ->
  let once := invoke e s db in
  let twice := invoke e (stored (fst once)) (snd once) in
  snd twice = snd once /\ stored (fst twice) = stored (fst once).
Proof.
  intros NF Htick Hr once twice. subst twice once.
  destruct (quiet_tick e s db NF Htick Hr)
    as [(G & n & msg & Hl & ->) | (G & ->)]; cbn [fst snd].
  - rewrite tick_on_processed_event; try assumption.
    + split; reflexivity.
    + change (select_last_filter_state (insert_processed_event n _ _ db))
        with (select_last_filter_state db).
      rewrite Hl, select_processed_insert. cbn. now rewrite Z.eqb_refl.
  - destruct (quiet_tick e (stored (returned (start_locals s))) db NF Htick Hr)
      as [(G' & _) | (_ & ->)]; [congruence|].
    split; [reflexivity|]. now destruct s.
Qed.

Lemma tick_is_idempotent_witness :
  let e := calm Scenario.tick Scenario.t0 in
  let once := invoke e initial_session Scenario.db_event5 in
  let twice := invoke e (stored (fst once)) (snd once) in
  reminder_fires e Scenario.db_event5 = false /\
  map pe_action (processed_events (snd once)) = ["SHOWING_MODAL"] /\
  snd twice = snd once /\ stored (fst twice) = stored (fst once).
Proof.
  intros e once twice.
  split; [reflexivity|]. split; [reflexivity|].
  apply (tick_is_idempotent e initial_session Scenario.db_event5
           (calm_no_faults _ _)).
  - now exists "interval-component.n_intervals", [].
  - reflexivity.
Defined.

(* ================================================================== *)
(** ** Clicks without a condition                                      *)
(* ================================================================== *)

Lemma reminder_or_prompt_no_event e tid st due rid l db :
  reminder_or_prompt e tid None st due rid l db = (Returns l, db).
Proof.
  unfold reminder_or_prompt.
  replace (truthy due && pyint_eqb due None) with false
    by (destruct due; cbn; [now rewrite andb_false_r|reflexivity]).
  cbn [andb truthy]. now rewrite andb_false_r.
Qed.

Lemma user_clicks_no_event e tid l db :
  nothing_escapes e ->
  exists l2 db2,
    user_clicks e tid None l db = (Returns l2, db2) /\
    processed_events db2 = processed_events db /\
    reminders db2 = reminders db /\
    ((tid =? "remind-me-filterstate")%string = true ->
     status_message l2 = "Reminder set for 20 minutes." /\ db2 = db
     /\ modal_open l2 = false /\ disclaimer_open l2 = false
     /\ caution_open l2 = false) /\
    ((tid =? "remind-me-hour-filterstate")%string = true ->
     status_message l2 = "Reminder set for 1 hour." /\ db2 = db
     /\ modal_open l2 = false /\ disclaimer_open l2 = false
     /\ caution_open l2 = false).
Proof.
  intros (E1 & E2 & E3 & E4 & E5 & E6 & E7).
  unfold user_clicks. cbn [truthy].
  repeat match goal with
  | |- context [if (tid =? ?id)%string then _ else _] =>
      let T := fresh "T" in
      destruct (tid =? id)%string eqn:T;
      [apply String.eqb_eq in T; subst tid|]
  end;
  unfold bind, update_user_control_decision, ret;
  rewrite ?try_no_escape by assumption;
  try destruct (db_error (at_update_user_control_decision e));
  do 2 eexists;
  (split; [reflexivity|]); (split; [reflexivity|]); (split; [reflexivity|]);
  split; intros Hx;
  first [ discriminate Hx
        | congruence
        | repeat split; reflexivity ].
Qed.

(** X12. While [filter_state] has no row, or cannot be read, no
    invocation writes to the ledger or to the reminders, whatever the
    trigger and whichever statements fail (no exception leaving a
    helper).  In particular a click on "remind me in 20 minutes" or
    "remind me in 1 hour" closes every dialog and reports "Reminder
    set for ..." while scheduling nothing and leaving the database as
    it was. *)
Theorem no_condition_no_reminder (e : env) (s : session) (db : database) :
  nothing_escapes e ->
  filter_state db = [] \/ db_error (at_get_last_filter_state e) = true ->
  processed_events (snd (invoke e s db)) = processed_events db /\
  reminders (snd (invoke e s db)) = reminders db /\
  (triggered_by e "remind-me-filterstate" ->
   exists out,
     invoke e s db = (out, db) /\
     relay_status out = "Reminder set for 20 minutes." /\
     dialog_of (stored out) = Some IDLE) /\
  (triggered_by e "remind-me-hour-filterstate" ->
   exists out,
     invoke e s db = (out, db) /\
     relay_status out = "Reminder set for 1 hour." /\
     dialog_of (stored out) = Some IDLE).
Proof.
  intros NE Hnone.
  assert (Hlast : fst (seen_last e db) = None).
  { unfold seen_last. destruct Hnone as [Hempty | Hfail].
    - destruct (db_error (at_get_last_filter_state e)); [reflexivity|].
      unfold select_last_filter_state. now rewrite Hempty.
    - now rewrite Hfail. }
  destruct (triggered e) as [|p rest] eqn:Htr.
  { rewrite invoke_nothing_triggered by assumption.
    split; [reflexivity|]. split; [reflexivity|].
    split; intros (p & rest & H & _); congruence. }
  unfold invoke, handle_filter_state_event.
  rewrite (invoke_no_escape e NE s db p rest Htr), Hlast.
  erewrite bind_returns by apply reminder_or_prompt_no_event.
  destruct (user_clicks_no_event e (before_dot p) (start_locals s) db NE)
    as (l2 & db2 & Hc & Hpe & Hrm & H20 & H60).
  erewrite bind_returns by exact Hc.
  cbn [snd ret].
  split; [exact Hpe|]. split; [exact Hrm|].
  split; intros (p' & rest' & Htr' & Hid');
    rewrite Htr in Htr'; injection Htr' as <- <-.
  - destruct H20 as (Hmsg & -> & Hm & Hd & Hcc);
      [rewrite Hid'; reflexivity|].
    eexists. split; [reflexivity|].
    cbn. rewrite Hmsg, Hm, Hd, Hcc. split; reflexivity.
  - destruct H60 as (Hmsg & -> & Hm & Hd & Hcc);
      [rewrite Hid'; reflexivity|].
    eexists. split; [reflexivity|].
    cbn. rewrite Hmsg, Hm, Hd, Hcc. split; reflexivity.
Qed.

Lemma no_condition_no_reminder_witness :
  let e := calm Scenario.defer_20 Scenario.t0 in
  let prompting := mkSession true true false false in
  nothing_escapes e /\
  filter_state Scenario.empty_db = [] /\
  exists out,
    invoke e prompting Scenario.empty_db = (out, Scenario.empty_db) /\
    relay_status out = "Reminder set for 20 minutes." /\
    dialog_of (stored out) = Some IDLE.
Proof.
  intros e prompting.
  assert (NE : nothing_escapes e) by (repeat split).
  split; [exact NE|]. split; [reflexivity|].
  apply (proj1 (proj2 (proj2 (no_condition_no_reminder e prompting
                                Scenario.empty_db NE (or_introl eq_refl))))).
  now exists "remind-me-filterstate.n_clicks", [].
Defined.

(* ================================================================== *)
(** ** Reminders that come due on a click                              *)
(* ================================================================== *)

Lemma invoke_click_reads e s db prop_id rest :
  quiet (at_get_last_filter_state e) ->
  quiet (at_get_due_reminder e) ->
  quiet (at_remove_reminder e) ->
  triggered e = prop_id :: rest ->
  (before_dot prop_id =? "interval-component")%string = false ->
  callback_body e (on_alert_shown s) (modal_open_state s)
    (disclaimer_modal_open s) (caution_modal_open s) db
  = (l2 <- user_clicks e (before_dot prop_id)
             (fst (select_last_filter_state db))
             (if reminder_fires e db then reminder_locals else start_locals s) ;;
     ret (returned l2)) (consume_due e db).
Proof.
  intros Q1 Q2 Q6 Htr Htid.
  rewrite (invoke_quiet_reads e s db prop_id rest) by assumption.
  unfold bind at 1.
  rewrite click_reminder_check by assumption.
  unfold consume_due, reminder_fires.
  destruct (truthy (fst (due_now e db))
            && pyint_eqb (fst (due_now e db)) (fst (select_last_filter_state db))
            && (snd (select_last_filter_state db) =? "ON")%string);
    reflexivity.
Qed.

(** X13. When the reminder that the query reports is for the latest
    event, still ON, and the callback is fired by one of the five
    buttons that schedule nothing, the reminder is deleted and yet the
    main modal is closed when the callback returns: that reminder is
    used up without the prompt being shown by this invocation. *)
Theorem answer_click_uses_up_reminder (e : env) (s : session)
    (db : database) (button : string) (r : reminder_row) (eid : Z) :
  no_faults e ->
  In button answers ->
  triggered_by e button ->
  fetchone (is_due (Clock.strftime (now (at_get_due_reminder e))))
           (reminders db) = Some r ->
  rm_event_id r = eid ->
  select_last_filter_state db = (Some eid, "ON") ->
  eid <> 0 ->
  main_modal (fst (invoke e s db)) = false /\
  reminders (snd (invoke e s db))
  = reminders (delete_reminder (Some (rm_reminder_id r)) db) /\
  ~ In r (reminders (snd (invoke e s db))).
Proof.
  intros NF Hb (p & rest & Htr & Hid) Hr He Hlast Hne.
  destruct (first_due_fires e db r eid Hr He Hlast Hne) as [Hdue Hfires].
  assert (Hdb : consume_due e db
                = delete_reminder (Some (rm_reminder_id r)) db).
  { unfold consume_due. now rewrite Hfires, Hdue. }
  assert (Hgone : ~ In r (reminders (delete_reminder
                                       (Some (rm_reminder_id r)) db))).
  { intros Hin. apply delete_reminder_gone in Hin. now destruct Hin. }
  assert (Hmain :
    reminders (snd (invoke e s db))
    = reminders (delete_reminder (Some (rm_reminder_id r)) db)
    /\ main_modal (fst (invoke e s db)) = false).
  { destruct Hb as [<- | [<- | [<- | [<- | [<- | []]]]]];
      run_click Htr Hid Hlast; rewrite Hdb.
    - erewrite bind_returns by (apply click_enable; assumption).
      split; reflexivity.
    - erewrite bind_returns by apply click_keep_off.
      split; reflexivity.
    - erewrite bind_returns by (apply click_disclaimer_yes; assumption).
      split; reflexivity.
    - erewrite bind_returns by (apply click_disclaimer_no; assumption).
      split; reflexivity.
    - erewrite bind_returns by apply click_caution_close.
      split; reflexivity. }
  destruct Hmain as [H1 H2].
  split; [exact H2|]. split; [exact H1|]. now rewrite H1.
Qed.

Lemma answer_click_uses_up_reminder_witness :
  let e := calm Scenario.caution_acknowledge (Scenario.at_minute 25) in
  let db := Scenario.db_reminder_pending in
  let cautioning := mkSession true false false true in
  let after := invoke e cautioning db in
  reminder_fires e db = true /\
  main_modal (fst after) = false /\
  reminders (snd after) = [].
Proof.
  intros e db cautioning after.
  assert (H5 : 5 <> 0) by discriminate.
  destruct (answer_click_uses_up_reminder e cautioning db "caution-close"
              (mkReminder 1 5 "2024-05-17 09:22:00" "20 minutes") 5
              (calm_no_faults _ _)
              (or_intror (or_intror (or_intror (or_intror
                 (or_introl eq_refl)))))
              (ex_intro _ "caution-close.n_clicks"
                 (ex_intro _ [] (conj eq_refl eq_refl)))
              eq_refl eq_refl eq_refl H5) as (H1 & H2 & _).
  split; [reflexivity|]. split; [exact H1|exact H2].
Defined.

(* ================================================================== *)
(** ** Writes that fail                                                *)
(* ================================================================== *)

Lemma add_reminder_nothing c x delay label db :
  escapes c = false ->
  db_error c = true \/ Clock.add_minutes (now c) delay = None ->
  add_reminder c x delay label db = (Returns tt, db).
Proof.
  intros E H. unfold add_reminder. rewrite try_no_escape by assumption.
  destruct (db_error c); [reflexivity|].
  destruct H as [H|H]; [discriminate|]. now rewrite H.
Qed.

Lemma click_remind_nothing e (l : locals) db eid button delay label action :
  In (button, delay, label, action) deferrals ->
  only_add_reminder_fails e ->
  db_error (at_add_reminder e) = true
  \/ Clock.add_minutes (now (at_add_reminder e)) delay = None ->
  eid <> 0 ->
  user_clicks e button (Some eid) l db
  = (Returns (mkLocals false false false
                ("Reminder set for " ++ label ++ ".")
                (updated_alert_shown l)),
     insert_processed_event eid action
       (Clock.strftime (now (at_record_event_as_processed e))) db).
Proof.
  intros Hin (Q1 & Q2 & Q3 & Q4 & E5 & Q6 & Q7) Hfail Hne.
  destruct Hin as [Hin | [Hin | []]]; injection Hin as <- <- <- <-;
    unfold user_clicks; compare_ids;
    rewrite truthy_Some by assumption;
    (erewrite bind_returns;
     [|erewrite bind_returns by (apply add_reminder_nothing; assumption);
       apply record_event_as_processed_quiet; assumption]);
    reflexivity.
Qed.

(** X14. When the insert of [add_reminder] fails, or the due time
    falls outside the calendar, and everything else goes through, a
    click on a deferral button still closes the dialogs and reports
    "Reminder set for ...", stores no reminder, and appends the
    [REMIND_] row to the ledger, after which the event counts as
    processed: the deferral is lost without a word to the user. *)
Theorem failed_deferral_is_silent (e : env) (s : session) (db : database)
    (eid : Z) (st button label action : string) (delay : Z) :
  In (button, delay, label, action) deferrals ->
  only_add_reminder_fails e ->
  db_error (at_add_reminder e) = true
  \/ Clock.add_minutes (now (at_add_reminder e)) delay = None ->
  triggered_by e button ->
  select_last_filter_state db = (Some eid, st) ->
  eid <> 0 ->
  exists out db',
    invoke e s db = (out, db') /\
    dialog_of (stored out) = Some IDLE /\
    relay_status out = "Reminder set for " ++ label ++ "." /\
    reminders db' = reminders (consume_due e db) /\
    (exists pid ts,
        processed_events db'
        = (processed_events db ++ [mkProcessed pid eid action ts])%list) /\
    select_processed (Some eid) db' = true.
Proof.
  intros Hin F Hfail (p & rest & Htr & Hid) Hlast Hne.
  pose proof F as (Q1 & Q2 & Q3 & Q4 & E5 & Q6 & Q7).
  destruct (consume_due_tables e db) as (Hfs & Huc & Hpe).
  assert (Hbtn : (button =? "interval-component")%string = false).
  { destruct Hin as [Hin | [Hin | []]]; injection Hin as <- <- <- <-;
      reflexivity. }
  unfold invoke, handle_filter_state_event.
  erewrite invoke_click_reads
    by (try eassumption; rewrite Hid; exact Hbtn).
  rewrite Hid, Hlast. cbn [fst snd].
  erewrite bind_returns
    by (apply (click_remind_nothing e _ _ eid button delay label action);
        assumption).
  do 2 eexists. split; [reflexivity|].
  split; [reflexivity|]. split; [reflexivity|].
  split; [reflexivity|].
  split; [do 2 eexists; cbn; rewrite Hpe; reflexivity|].
  rewrite select_processed_insert. cbn. now rewrite Z.eqb_refl.
Qed.

Lemma failed_deferral_is_silent_witness :
  let t := Scenario.at_minute 2 in
  let c := mkCall t false false in
  let e := mkEnv Scenario.defer_20 c c c c (mkCall t true false) c c in
  let db := Scenario.db_event5_shown in
  let prompting := mkSession true true false false in
  only_add_reminder_fails e /\
  exists out db',
    invoke e prompting db = (out, db') /\
    dialog_of (stored out) = Some IDLE /\
    relay_status out = "Reminder set for 20 minutes." /\
    reminders db' = [] /\
    select_processed (Some 5) db' = true.
Proof.
  intros t c e db prompting.
  assert (Q : quiet c) by (split; reflexivity).
  assert (F : only_add_reminder_fails e) by (repeat split).
  assert (H5 : 5 <> 0) by discriminate.
  split; [exact F|].
  destruct (failed_deferral_is_silent e prompting db 5 "ON"
              "remind-me-filterstate" "20 minutes" "REMIND_20" 20
              (or_introl eq_refl) F (or_introl eq_refl)
              (ex_intro _ "remind-me-filterstate.n_clicks"
                 (ex_intro _ [] (conj eq_refl eq_refl)))
              eq_refl H5)
    as (out & db' & H1 & H2 & H3 & H4 & _ & H6).
  exists out, db'.
  split; [exact H1|]. split; [exact H2|]. split; [exact H3|].
  split; [exact H4|exact H6].
Defined.

Lemma record_event_as_processed_nothing c x action db :
  escapes c = false -> db_error c = true ->
  record_event_as_processed c x action db = (Returns tt, db).
Proof.
  intros E D. unfold record_event_as_processed.
  rewrite try_no_escape by assumption. now rewrite D.
Qed.

(** X15. When the write of [record_event_as_processed] fails and
    everything else goes through, a tick on an unprocessed ON event
    with no reminder firing opens the prompt and leaves the database
    as it was; the event is still unprocessed, so the next fault-free
    tick opens the prompt for it again and only then records
    [SHOWING_MODAL]. *)
Theorem unrecorded_prompt_is_shown_again (e : env) (s : session)
    (db : database) (n : Z) :
  only_record_fails e ->
  triggered_by e "interval-component" ->
  reminder_fires e db = false ->
  select_last_filter_state db = (Some n, "ON") ->
  n <> 0 ->
  select_processed (Some n) db = false ->
  exists out,
    invoke e s db = (out, db) /\
    main_modal out = true /\
    forall e2,
      no_faults e2 ->
      triggered_by e2 "interval-component" ->
      reminder_fires e2 db = false ->
      main_modal (fst (invoke e2 (stored out) db)) = true /\
      snd (invoke e2 (stored out) db)
      = insert_processed_event n "SHOWING_MODAL"
          (Clock.strftime (now (at_record_event_as_processed e2))) db.
Proof.
  intros (Q1 & Q2 & Q3 & D4 & E4 & Q5 & Q6 & Q7)
    (p & rest & Htr & Hid) Hr Hlast Hn Hp.
  exists (returned (mkLocals true false false
            ("Filter ON detected. Event " ++ Clock.str_of_int n
               ++ ". User attention required.") true)).
  split; [|split; [reflexivity|]].
  - unfold invoke, handle_filter_state_event.
    rewrite (invoke_quiet_reads e s db p rest) by assumption.
    rewrite Hid. unfold reminder_fires in Hr. rewrite Hlast in *.
    cbn [fst snd] in *.
    erewrite bind_returns; [reflexivity|].
    unfold reminder_or_prompt. rewrite Hr.
    rewrite truthy_Some by assumption. compare_ids. cbn [andb].
    erewrite bind_returns by (apply is_event_processed_quiet; assumption).
    rewrite Hp. cbn [negb].
    erewrite bind_returns
      by (apply record_event_as_processed_nothing; assumption).
    reflexivity.
  - intros e2 NF (p2 & rest2 & Htr2 & Hid2) Hr2.
    pose proof NF as (R1 & R2 & R3 & R4 & R5 & R6 & R7).
    unfold invoke, handle_filter_state_event.
    rewrite (invoke_quiet_reads e2 _ db p2 rest2) by assumption.
    rewrite Hid2. unfold reminder_fires in Hr2. rewrite Hlast in *.
    cbn [fst snd] in *.
    erewrite bind_returns
      by (apply (prompt_branch e2 (Some n) _ _ _ _ db n); auto).
    split; reflexivity.
Qed.

Lemma unrecorded_prompt_is_shown_again_witness :
  let c := mkCall Scenario.t0 false false in
  let e := mkEnv Scenario.tick c c c (mkCall Scenario.t0 true false) c c c in
  let e2 := calm Scenario.tick (Scenario.at_minute 1) in
  let db := Scenario.db_event5 in
  only_record_fails e /\
  exists out,
    invoke e initial_session db = (out, db) /\
    main_modal out = true /\
    main_modal (fst (invoke e2 (stored out) db)) = true /\
    processed_events (snd (invoke e2 (stored out) db))
    = [mkProcessed 1 5 "SHOWING_MODAL" "2024-05-17 09:01:00"].
Proof.
  intros c e e2 db.
  assert (F : only_record_fails e) by (repeat split).
  assert (H5 : 5 <> 0) by discriminate.
  assert (T : triggered_by e "interval-component").
  { eexists; eexists; split; reflexivity. }
  assert (T2 : triggered_by e2 "interval-component").
  { eexists; eexists; split; reflexivity. }
  split; [exact F|].
  destruct (unrecorded_prompt_is_shown_again e initial_session db 5
              F T eq_refl eq_refl H5 eq_refl) as (out & H1 & H2 & H3).
  exists out. split; [exact H1|]. split; [exact H2|].
  destruct (H3 e2 (calm_no_faults _ _) T2 eq_refl) as [H4 H5'].
  split; [exact H4|]. rewrite H5'. reflexivity.
Defined.

(* ================================================================== *)
(** ** The colour of the gauge                                         *)
(* ================================================================== *)

(** X16. [get_gauge_color] never moves to a milder colour as the
    index rises: ordered green, yellow, orange, red, the colour of a
    larger index is at least as severe; green is shown exactly below
    50 and red exactly from 150 on. *)
Theorem gauge_colour_is_monotone (a b : Z) :
  a <= b ->
  severity (get_gauge_color a) <= severity (get_gauge_color b) /\
  (get_gauge_color a = "green" <-> a < 50) /\
  (get_gauge_color b = "red" <-> 150 <= b).
Proof.
  intros H. unfold get_gauge_color.
  destruct (Z.ltb_spec a 50), (Z.ltb_spec a 100), (Z.ltb_spec a 150),
    (Z.ltb_spec b 50), (Z.ltb_spec b 100), (Z.ltb_spec b 150);
    try lia;
    (split; [cbn; lia|]);
    (split; split; intros G; try lia; try discriminate G; reflexivity).
Qed.

Lemma gauge_colour_is_monotone_witness :
  severity (get_gauge_color 49) <= severity (get_gauge_color 50) /\
  (get_gauge_color 49 = "green" <-> 49 < 50) /\
  (get_gauge_color 50 = "red" <-> 150 <= 50).
Proof. apply (gauge_colour_is_monotone 49 50). lia. Defined.

(* ================================================================== *)
(** ** The component that fired                                        *)
(* ================================================================== *)

Lemma before_dot_append id tail :
  dot_free id = true -> before_dot (id ++ String "." tail) = id.
Proof.
  induction id as [|c id IH]; intros H; cbn in *.
  - reflexivity.
  - apply andb_true_iff in H. destruct H as [Hc Hid].
    apply negb_true_iff in Hc. rewrite Hc. now rewrite IH.
Qed.

(** X17. Dash names the trigger [<id>.<property>]; for an id without a
    dot, whatever the property, [split(".")[0]] gives the id back, so
    the callback dispatches on that component and on no other. *)
Theorem fired_component_is_recovered (e : env) (id prop : string)
    (rest : list string) (db : database) :
  dot_free id = true ->
  triggered e = (id ++ "." ++ prop) :: rest ->
  first_triggered_id (triggered e) db = (Returns id, db) /\
  triggered_by e id /\
  forall id', triggered_by e id' -> id' = id /\ dot_free id' = true.
Proof.
  intros Hid Htr.
  assert (H : before_dot (id ++ "." ++ prop) = id)
    by (apply (before_dot_append id prop Hid)).
  split; [|split].
  - rewrite Htr. unfold first_triggered_id, ret. now rewrite H.
  - exists (id ++ "." ++ prop), rest. now split.
  - intros id' (p & r & Hp & Hb). rewrite Htr in Hp.
    injection Hp as Hp1 Hp2. subst p.
    rewrite (before_dot_append id prop Hid) in Hb. subst id'. now split.
Qed.

Lemma fired_component_is_recovered_witness :
  let e := calm ["disclaimer-yes.n_clicks"; "interval-component.n_intervals"]
                Scenario.t0 in
  first_triggered_id (triggered e) Scenario.empty_db
  = (Returns "disclaimer-yes", Scenario.empty_db) /\
  triggered_by e "disclaimer-yes".
Proof.
  intros e.
  destruct (fired_component_is_recovered e "disclaimer-yes" "n_clicks"
              ["interval-component.n_intervals"] Scenario.empty_db
              eq_refl eq_refl) as (H1 & H2 & _).
  split; [exact H1|exact H2].
Defined.

(* ================================================================== *)
(** ** Which event an answer is recorded for                           *)
(* ================================================================== *)

Lemma invoke_grows e s db : grown_from db (snd (invoke e s db)).
Proof.
  apply (invoke_keeps (grown_from db) e); try apply grown_from_refl.
  - intros rid d H. exact H.
  - intros n action ts d (H1 & H2 & more & H3).
    split; [exact H1|]. split; [exact H2|].
    exists (more ++ [mkProcessed
                       (next_rowid (seq_processed_events d)
                          (map pe_processed_id (processed_events d)))
                       n action ts])%list.
    cbn [insert_processed_event processed_events].
    now rewrite H3, app_assoc.
  - intros n time label d H. exact H.
  - intros ts state d (H1 & (more & H2) & H3).
    split; [exact H1|]. split; [|exact H3].
    exists (more ++ [mkUserControl
                       (next_rowid (seq_user_control d)
                          (map uc_id (user_control d))) ts state])%list.
    cbn [insert_user_control user_control].
    now rewrite H2, app_assoc.
Qed.

(** As long as the sensor pipeline writes nothing, the latest event
    stays the same along a sequence of invocations. *)
Lemma run_keeps_filter_state steps : forall s db,
  (forall st, In st steps -> sensor_filter_state st = filter_state db) ->
  filter_state (snd (run steps s db)) = filter_state db.
Proof.
  induction steps as [|st rest IH]; intros s db Hs; [reflexivity|].
  cbn [run].
  destruct (invoke_grows (step_env st) s (sensor_writes st db)) as (Hfs & _).
  destruct (invoke (step_env st) s (sensor_writes st db)) as [out db'].
  cbn [snd] in Hfs. cbn [sensor_writes filter_state] in Hfs.
  rewrite (Hs st (or_introl eq_refl)) in Hfs.
  rewrite IH; [exact Hfs|].
  intros st' Hin. rewrite Hfs. apply Hs. now right.
Qed.

Lemma latest_since steps s0 db0 db latest :
  (forall st, In st steps -> sensor_filter_state st = filter_state db0) ->
  snd (run steps s0 db0) = db ->
  select_last_filter_state db = latest ->
  select_last_filter_state db0 = latest.
Proof.
  intros Hs <- <-. unfold select_last_filter_state.
  now rewrite run_keeps_filter_state.
Qed.

Lemma consume_due_fired e db :
  reminder_fires e db = true ->
  consume_due e db = delete_reminder (snd (due_now e db)) db.
Proof. unfold consume_due. now intros ->. Qed.

(** C5.  The handlers record an answer for the event that is the
    latest one when the click arrives, [eid]; they do not remember
    which event the open prompt was for.  It is the event that was
    the latest one at any earlier invocation, the prompting tick in
    particular, since which the sensor pipeline has written nothing.
    With that: approve appends the
    decision ON to [user_control] and [(eid, ON)] to
    [processed_events] and closes every dialog; decline opens the
    disclaimer alone; disclaimer-confirm appends OFF and [(eid, OFF)]
    and opens the caution alone; disclaimer-cancel appends ON and
    [(eid, ON)] and closes every dialog; caution-acknowledge closes
    every dialog.  Decline and caution-acknowledge leave the database
    as the reminder check of the same invocation left it: unchanged
    when no reminder fires, and less the reminder that fired
    otherwise; the reminder check never touches the other tables.
    (The transitions hold from every session, PROMPTING included.) *)
Theorem decision_round_trip (e : env) (s : session) (db : database)
    (eid : Z) (st : string) :
  no_faults e ->
  select_last_filter_state db = (Some eid, st) ->
  eid <> 0 ->
  (triggered_by e "enable-fan-filterstate" ->
   transition e s db IDLE (decided e "ON" eid db))
  /\
  (triggered_by e "keep-fan-off-filterstate" ->
   transition e s db DISCLAIMING (reminder_check_only e db))
  /\
  (triggered_by e "disclaimer-yes" ->
   transition e s db CAUTIONING (decided e "OFF" eid db))
  /\
  (triggered_by e "disclaimer-no" ->
   transition e s db IDLE (decided e "ON" eid db))
  /\
  (triggered_by e "caution-close" ->
   transition e s db IDLE (reminder_check_only e db))
  /\
  (filter_state (consume_due e db) = filter_state db /\
   user_control (consume_due e db) = user_control db /\
   processed_events (consume_due e db) = processed_events db /\
   (reminder_fires e db = false -> consume_due e db = db) /\
   (reminder_fires e db = true ->
    consume_due e db = delete_reminder (snd (due_now e db)) db))
  /\
  (forall steps s0 db0,
      (forall st0, In st0 steps ->
                   sensor_filter_state st0 = filter_state db0) ->
      snd (run steps s0 db0) = db ->
      select_last_filter_state db0 = (Some eid, st)).
Proof.
  intros NF Hlast Hne.
  destruct (consume_due_tables e db) as (Hfs & Huc & Hpe).
  unfold transition, decided, decision_recorded, reminder_check_only.
  split; [|split; [|split; [|split; [|split; [|split]]]]].
  - intros (p & rest & Htr & Hid). run_click Htr Hid Hlast.
    erewrite bind_returns by (apply click_enable; assumption).
    do 2 eexists. split; [reflexivity|]. split; [reflexivity|].
    split; [|split; [exact Hfs|reflexivity]].
    do 4 eexists. cbn. rewrite Huc, Hpe. split; reflexivity.
  - intros (p & rest & Htr & Hid). run_click Htr Hid Hlast.
    erewrite bind_returns by apply click_keep_off.
    do 2 eexists. split; [reflexivity|]. split; reflexivity.
  - intros (p & rest & Htr & Hid). run_click Htr Hid Hlast.
    erewrite bind_returns by (apply click_disclaimer_yes; assumption).
    do 2 eexists. split; [reflexivity|]. split; [reflexivity|].
    split; [|split; [exact Hfs|reflexivity]].
    do 4 eexists. cbn. rewrite Huc, Hpe. split; reflexivity.
  - intros (p & rest & Htr & Hid). run_click Htr Hid Hlast.
    erewrite bind_returns by (apply click_disclaimer_no; assumption).
    do 2 eexists. split; [reflexivity|]. split; [reflexivity|].
    split; [|split; [exact Hfs|reflexivity]].
    do 4 eexists. cbn. rewrite Huc, Hpe. split; reflexivity.
  - intros (p & rest & Htr & Hid). run_click Htr Hid Hlast.
    erewrite bind_returns by apply click_caution_close.
    do 2 eexists. split; [reflexivity|]. split; reflexivity.
  - split; [exact Hfs|]. split; [exact Huc|]. split; [exact Hpe|].
    split; [apply consume_due_idle|apply consume_due_fired].
  - intros steps s0 db0 Hs Hdb.
    exact (latest_since steps s0 db0 db _ Hs Hdb Hlast).
Qed.

Lemma decision_round_trip_witness :
  let prompt := [Scenario.st Scenario.fs5 Scenario.tick 0] in
  let db := snd (run prompt initial_session Scenario.db_event5) in
  let prompting := fst (run prompt initial_session Scenario.db_event5) in
  let at_ ctx := calm ctx (Scenario.at_minute 1) in
  let disclaiming := mkSession true false true false in
  let cautioning := mkSession true false false true in
  dialog_of prompting = Some PROMPTING /\
  select_last_filter_state Scenario.db_event5 = (Some 5, "ON") /\
  transition (at_ Scenario.approve) prompting db IDLE
    (decided (at_ Scenario.approve) "ON" 5 db) /\
  transition (at_ Scenario.decline) prompting db DISCLAIMING
    (fun db' => db' = db) /\
  transition (at_ Scenario.disclaimer_confirm) disclaiming db CAUTIONING
    (decided (at_ Scenario.disclaimer_confirm) "OFF" 5 db) /\
  transition (at_ Scenario.disclaimer_cancel) disclaiming db IDLE
    (decided (at_ Scenario.disclaimer_cancel) "ON" 5 db) /\
  transition (at_ Scenario.caution_acknowledge) cautioning db IDLE
    (fun db' => db' = db).
Proof.
  intros prompt db prompting at_ disclaiming cautioning.
  assert (H5 : 5 <> 0) by discriminate.
  assert (Hl : select_last_filter_state db = (Some 5, "ON")) by reflexivity.
  assert (Hs : forall st0, In st0 prompt ->
                 sensor_filter_state st0 = filter_state Scenario.db_event5).
  { intros st0 [<- | []]. reflexivity. }
  split; [reflexivity|].
  split.
  { exact (proj2 (proj2 (proj2 (proj2 (proj2 (proj2
             (decision_round_trip (at_ Scenario.approve) prompting db
                5 "ON" (calm_no_faults _ _) Hl H5))))))
             prompt initial_session Scenario.db_event5 Hs eq_refl). }
  split.
  { refine (proj1 (decision_round_trip (at_ Scenario.approve) prompting db
                     5 "ON" (calm_no_faults _ _) Hl H5) _).
    now exists "enable-fan-filterstate.n_clicks", []. }
  split.
  { refine (proj1 (proj2 (decision_round_trip (at_ Scenario.decline)
                     prompting db 5 "ON" (calm_no_faults _ _) Hl H5)) _).
    now exists "keep-fan-off-filterstate.n_clicks", []. }
  split.
  { refine (proj1 (proj2 (proj2 (decision_round_trip
                     (at_ Scenario.disclaimer_confirm) disclaiming db 5 "ON"
                     (calm_no_faults _ _) Hl H5))) _).
    now exists "disclaimer-yes.n_clicks", []. }
  split.
  { refine (proj1 (proj2 (proj2 (proj2 (decision_round_trip
                     (at_ Scenario.disclaimer_cancel) disclaiming db 5 "ON"
                     (calm_no_faults _ _) Hl H5)))) _).
    now exists "disclaimer-no.n_clicks", []. }
  refine (proj1 (proj2 (proj2 (proj2 (proj2 (decision_round_trip
                   (at_ Scenario.caution_acknowledge) cautioning db 5 "ON"
                   (calm_no_faults _ _) Hl H5))))) _).
  now exists "caution-close.n_clicks", [].
Defined.

(** The prompt is opened for event 5; the condition clears (event 6,
    OFF) before the operator approves, and the approval is recorded
    for event 6: event 5 gets no [ON] row.  And an acknowledgement of
    the caution that arrives once the reminder for the latest event is
    due deletes that reminder. *)
Lemma answer_recorded_for_newer_event :
  let prompted :=
    run [Scenario.st Scenario.fs5 Scenario.tick 0]
        initial_session Scenario.empty_db in
  let answered :=
    run (Scenario.prompted_then_cleared Scenario.approve)
        initial_session Scenario.empty_db in
  let e := calm Scenario.caution_acknowledge (Scenario.at_minute 25) in
  let cautioning := mkSession true false false true in
  dialog_of (fst prompted) = Some PROMPTING /\
  processed_events (snd prompted)
  = [mkProcessed 1 5 "SHOWING_MODAL" "2024-05-17 09:00:00"] /\
  dialog_of (fst answered) = Some IDLE /\
  user_control (snd answered)
  = [mkUserControl 1 "2024-05-17 09:01:00" "ON"] /\
  processed_events (snd answered)
  = [mkProcessed 1 5 "SHOWING_MODAL" "2024-05-17 09:00:00";
     mkProcessed 2 6 "ON" "2024-05-17 09:01:00"] /\
  reminders Scenario.db_reminder_pending
  = [mkReminder 1 5 "2024-05-17 09:22:00" "20 minutes"] /\
  dialog_of (stored (fst (invoke e cautioning Scenario.db_reminder_pending)))
  = Some IDLE /\
  reminders (snd (invoke e cautioning Scenario.db_reminder_pending)) = [].
Proof. vm_compute. repeat split. Qed.

(** C6.  A click on "remind me in 20 minutes" at time [T], with [eid]
    the latest event when the click arrives, closes every dialog,
    appends exactly one reminder [(eid, T + 20 minutes, "20 minutes")]
    and exactly one ledger row [(eid, REMIND_20)]; afterwards, however
    the ledger grows, a tick with [eid] still the latest event changes
    nothing as long as no reminder fires.  "Remind me in 1 hour" does
    the same with 60 minutes, "1 hour" and [REMIND_60].  The handler
    does not remember which event the prompt was for; [eid] is the
    event that was the latest one at any earlier invocation, the
    prompting tick in particular, since which the sensor pipeline has
    written nothing. *)
Theorem deferral_scheduling (e : env) (s : session) (db : database)
    (eid : Z) (st button label action : string) (delay : Z)
    (due : Clock.datetime) :
  In (button, delay, label, action) deferrals ->
  no_faults e ->
  triggered_by e button ->
  select_last_filter_state db = (Some eid, st) ->
  eid <> 0 ->
  Clock.add_minutes (now (at_add_reminder e)) delay = Some due ->
  transition e s db IDLE (deferred e db eid due label action)
  /\
  (forall steps s0 db0,
      (forall st0, In st0 steps ->
                   sensor_filter_state st0 = filter_state db0) ->
      snd (run steps s0 db0) = db ->
      select_last_filter_state db0 = (Some eid, st)).
Proof.
  intros Hin NF Htr Hlast Hne Hdue. split.
  - exact (defer_click e s db eid st button label action delay due
             Hin NF Htr Hlast Hne Hdue).
  - intros steps s0 db0 Hs Hdb.
    exact (latest_since steps s0 db0 db _ Hs Hdb Hlast).
Qed.

Lemma deferral_scheduling_witness :
  let prompt := [Scenario.st Scenario.fs5 Scenario.tick 0] in
  let db := snd (run prompt initial_session Scenario.db_event5) in
  let prompting := fst (run prompt initial_session Scenario.db_event5) in
  dialog_of prompting = Some PROMPTING /\
  select_last_filter_state Scenario.db_event5 = (Some 5, "ON") /\
  transition (calm Scenario.defer_20 (Scenario.at_minute 2)) prompting db IDLE
    (deferred (calm Scenario.defer_20 (Scenario.at_minute 2)) db 5
       (Clock.mkDatetime 2024 5 17 9 22 0 0) "20 minutes" "REMIND_20")
  /\
  transition (calm Scenario.defer_60 (Scenario.at_minute 2)) prompting db IDLE
    (deferred (calm Scenario.defer_60 (Scenario.at_minute 2)) db 5
       (Clock.mkDatetime 2024 5 17 10 2 0 0) "1 hour" "REMIND_60").
Proof.
  intros prompt db prompting.
  assert (H5 : 5 <> 0) by discriminate.
  assert (Hl : select_last_filter_state db = (Some 5, "ON")) by reflexivity.
  assert (Hs : forall st0, In st0 prompt ->
                 sensor_filter_state st0 = filter_state Scenario.db_event5).
  { intros st0 [<- | []]. reflexivity. }
  assert (T20 : triggered_by (calm Scenario.defer_20 (Scenario.at_minute 2))
                  "remind-me-filterstate")
    by (now exists "remind-me-filterstate.n_clicks", []).
  assert (T60 : triggered_by (calm Scenario.defer_60 (Scenario.at_minute 2))
                  "remind-me-hour-filterstate")
    by (now exists "remind-me-hour-filterstate.n_clicks", []).
  destruct (deferral_scheduling (calm Scenario.defer_20 (Scenario.at_minute 2))
              prompting db 5 "ON" "remind-me-filterstate" "20 minutes"
              "REMIND_20" 20 (Clock.mkDatetime 2024 5 17 9 22 0 0)
              (or_introl eq_refl) (calm_no_faults _ _) T20 Hl H5 eq_refl)
    as [D20 L20].
  destruct (deferral_scheduling (calm Scenario.defer_60 (Scenario.at_minute 2))
              prompting db 5 "ON" "remind-me-hour-filterstate" "1 hour"
              "REMIND_60" 60 (Clock.mkDatetime 2024 5 17 10 2 0 0)
              (or_intror (or_introl eq_refl)) (calm_no_faults _ _) T60 Hl H5
              eq_refl)
    as [D60 _].
  split; [reflexivity|].
  split; [exact (L20 prompt initial_session Scenario.db_event5 Hs eq_refl)|].
  split; [exact D20|exact D60].
Defined.

(** The prompt is opened for event 5; the condition clears (event 6,
    OFF) before the operator asks to be reminded, and both the
    reminder and the [REMIND_20] row are for event 6: nothing is
    scheduled or recorded for event 5. *)
Lemma deferral_recorded_for_newer_event :
  let prompted :=
    run [Scenario.st Scenario.fs5 Scenario.tick 0]
        initial_session Scenario.empty_db in
  let deferred_ :=
    run (Scenario.prompted_then_cleared Scenario.defer_20)
        initial_session Scenario.empty_db in
  dialog_of (fst prompted) = Some PROMPTING /\
  processed_events (snd prompted)
  = [mkProcessed 1 5 "SHOWING_MODAL" "2024-05-17 09:00:00"] /\
  dialog_of (fst deferred_) = Some IDLE /\
  reminders (snd deferred_)
  = [mkReminder 1 6 "2024-05-17 09:21:00" "20 minutes"] /\
  processed_events (snd deferred_)
  = [mkProcessed 1 5 "SHOWING_MODAL" "2024-05-17 09:00:00";
     mkProcessed 2 6 "REMIND_20" "2024-05-17 09:01:00"].
Proof. vm_compute. repeat split. Qed.

(* ================================================================== *)
(** ** Which reminder the check looks at                               *)
(* ================================================================== *)






(* ================================================================== *)
(** ** How often the automatic prompt fires                            *)
(* ================================================================== *)

Lemma is_tick_triggered e :
  is_tick e = true <-> triggered_by e "interval-component".
Proof.
  unfold is_tick, triggered_by. split.
  - destruct (triggered e) as [|p rest]; [discriminate|].
    intros H. apply String.eqb_eq in H. now exists p, rest.
  - intros (p & rest & -> & ->). reflexivity.
Qed.

Lemma auto_prompt_fires_inv e db eid :
  auto_prompt_fires e db eid = true ->
  is_tick e = true /\
  reminder_guard (fst (seen_last e db)) (snd (seen_last e db))
                 (fst (seen_due e db)) = false /\
  fst (seen_last e db) = Some eid /\
  snd (seen_last e db) = "ON" /\
  truthy (Some eid) = true /\
  seen_processed e (Some eid) db = false.
Proof.
  unfold auto_prompt_fires, prompt_guard. compare_ids. cbn [andb].
  intros H.
  repeat match goal with
  | G : _ && _ = true |- _ =>
      apply andb_true_iff in G; destruct G
  end.
  repeat match goal with
  | G : negb _ = true |- _ => apply negb_true_iff in G
  | G : pyint_eqb _ _ = true |- _ => apply pyint_eqb_eq in G
  | G : (_ =? _)%string = true |- _ => apply String.eqb_eq in G
  end.
  repeat split; assumption.
Qed.

(** What a firing does: the main modal opens, and the
    [SHOWING_MODAL] row is appended unless its insert fails. *)
Lemma auto_prompt_outcome e s db eid :
  nothing_escapes e ->
  auto_prompt_fires e db eid = true ->
  invoke e s db
  = (returned (mkLocals true false false
                 ("Filter ON detected. Event " ++ Clock.str_of_int eid
                    ++ ". User attention required.") true),
     if db_error (at_record_event_as_processed e) then db
     else insert_processed_event eid "SHOWING_MODAL"
            (Clock.strftime (now (at_record_event_as_processed e))) db).
Proof.
  intros NE Hf. pose proof NE as (E1 & E2 & E3 & E4 & E5 & E6 & E7).
  apply auto_prompt_fires_inv in Hf.
  destruct Hf as (Ht & Hg & Hlast & Hst & Htruthy & Hp).
  apply is_tick_triggered in Ht. destruct Ht as (p & rest & Htr & Hid).
  unfold invoke, handle_filter_state_event.
  rewrite (invoke_no_escape e NE s db p rest Htr).
  rewrite Hid, Hlast, Hst.
  unfold reminder_guard in Hg. rewrite Hlast, Hst in Hg.
  assert (H1 :
    reminder_or_prompt e "interval-component" (Some eid) "ON"
      (fst (seen_due e db)) (snd (seen_due e db)) (start_locals s) db
    = (Returns (mkLocals true false false
                  ("Filter ON detected. Event " ++ Clock.str_of_int eid
                     ++ ". User attention required.") true),
       if db_error (at_record_event_as_processed e) then db
       else insert_processed_event eid "SHOWING_MODAL"
              (Clock.strftime (now (at_record_event_as_processed e))) db)).
  { unfold reminder_or_prompt. rewrite Hg, Htruthy. compare_ids. cbn [andb].
    unfold bind at 1, is_event_processed.
    rewrite try_no_escape by assumption.
    unfold seen_processed in Hp.
    destruct (db_error (at_is_event_processed e)); cbn [fst snd];
      rewrite ?Hp; cbn [negb];
      unfold bind, record_event_as_processed;
      rewrite try_no_escape by assumption;
      destruct (db_error (at_record_event_as_processed e)); reflexivity. }
  erewrite bind_returns by exact H1.
  erewrite bind_returns by apply tick_no_click.
  reflexivity.
Qed.

Lemma fired_event_is_processed e s db eid :
  ledger_works e ->
  auto_prompt_fires e db eid = true ->
  select_processed (Some eid) (snd (invoke e s db)) = true.
Proof.
  intros (NE & _ & W) Hf.
  rewrite (auto_prompt_outcome e s db eid NE Hf), W. cbn [snd].
  rewrite select_processed_insert. cbn. now rewrite Z.eqb_refl.
Qed.

Lemma processed_event_never_fires e db eid :
  db_error (at_is_event_processed e) = false ->
  select_processed (Some eid) db = true ->
  auto_prompt_fires e db eid = false.
Proof.
  intros R Hp. unfold auto_prompt_fires, seen_processed.
  rewrite R, Hp. apply andb_false_r.
Qed.

Lemma processed_event_stays st s db eid :
  select_processed (Some eid) db = true ->
  select_processed (Some eid)
    (snd (invoke (step_env st) s (sensor_writes st db))) = true.
Proof.
  intros Hp.
  destruct (invoke_grows (step_env st) s (sensor_writes st db))
    as (_ & _ & more & Hmore).
  exact (select_processed_extends eid db _ more Hp Hmore).
Qed.

Lemma firings_once_processed eid steps : forall s db,
  (forall st, In st steps -> ledger_works (step_env st)) ->
  select_processed (Some eid) db = true ->
  firings eid steps s db = 0%nat.
Proof.
  induction steps as [|st rest IH]; intros s db Hw Hp; [reflexivity|].
  cbn [firings].
  pose proof (processed_event_stays st s db eid Hp) as Hp'.
  destruct (Hw st (or_introl eq_refl)) as (_ & R & _).
  rewrite (processed_event_never_fires (step_env st) (sensor_writes st db)
             eid R Hp).
  destruct (invoke (step_env st) s (sensor_writes st db)) as [out db'].
  cbn [snd] in Hp'. cbn [Nat.add].
  apply IH; [|exact Hp']. intros st' Hin. apply Hw. now right.
Qed.

Lemma firings_at_most_once eid steps : forall s db,
  (forall st, In st steps -> ledger_works (step_env st)) ->
  (firings eid steps s db
   <= if select_processed (Some eid) db then 0 else 1)%nat.
Proof.
  induction steps as [|st rest IH]; intros s db Hw.
  - cbn. destruct (select_processed (Some eid) db); lia.
  - destruct (select_processed (Some eid) db) eqn:Hp.
    + rewrite firings_once_processed by assumption. lia.
    + cbn [firings].
      assert (Hrest : forall st', In st' rest -> ledger_works (step_env st'))
        by (intros st' Hin; apply Hw; now right).
      destruct (auto_prompt_fires (step_env st) (sensor_writes st db) eid)
        eqn:Hf.
      * pose proof (fired_event_is_processed (step_env st) s
                      (sensor_writes st db) eid
                      (Hw st (or_introl eq_refl)) Hf) as Hp'.
        destruct (invoke (step_env st) s (sensor_writes st db)) as [out db'].
        cbn [snd] in Hp'.
        rewrite firings_once_processed by assumption. lia.
      * destruct (invoke (step_env st) s (sensor_writes st db)) as [out db'].
        specialize (IH (stored out) db' Hrest).
        destruct (select_processed (Some eid) db'); cbn [Nat.add]; lia.
Qed.

(** A tick that opens the main modal does so through one of the two
    branches. *)
Lemma tick_opening_has_a_cause e s db :
  nothing_escapes e ->
  triggered_by e "interval-component" ->
  modal_open_state s = false ->
  main_modal (fst (invoke e s db)) = true ->
  reminder_guard (fst (seen_last e db)) (snd (seen_last e db))
                 (fst (seen_due e db)) = true
  \/ exists n, auto_prompt_fires e db n = true.
Proof.
  intros NE Htick Hclosed Hopen.
  pose proof (proj2 (is_tick_triggered e) Htick) as Ht.
  destruct Htick as (p & rest & Htr & Hid).
  rewrite (main_modal_equation e NE s db p rest Htr) in Hopen.
  rewrite Hid, Hclosed, orb_false_r in Hopen. cbn [is_click existsb] in Hopen.
  revert Hopen. compare_ids. cbn [orb negb andb]. intros Hopen.
  destruct (reminder_guard (fst (seen_last e db)) (snd (seen_last e db))
              (fst (seen_due e db))) eqn:G; [now left|].
  right. cbn [orb] in Hopen.
  apply andb_true_iff in Hopen. destruct Hopen as [Hpg Hsp].
  destruct (fst (seen_last e db)) as [n|] eqn:Hl.
  - exists n. unfold auto_prompt_fires.
    rewrite Ht, Hl, G, Hpg, Hsp. cbn. now rewrite Z.eqb_refl.
  - unfold prompt_guard in Hpg. cbn in Hpg.
    rewrite andb_false_r in Hpg. discriminate Hpg.
Qed.

(** C3.  The tick-triggered transition fires for an event when a
    tick, with no reminder firing, finds that event the latest one, ON,
    and the ledger check answers "not processed"; then the main modal
    opens and the [SHOWING_MODAL] row is appended, unless its insert
    fails, in which case the database stays as it was.  A tick that
    opens the main modal does so through the reminder branch or
    through this transition.  Along any sequence of invocations (the
    sensor pipeline writing in between) in which no exception leaves a
    helper and the ledger can be read and written, the transition
    fires at most once for an event, and never once the event has a
    row; when only the read is required to succeed, still at most one
    [SHOWING_MODAL] row is appended for the event, and none once it
    has a row.  When the ledger read fails the transition fires
    whatever rows the event has. *)
Theorem auto_prompt_at_most_once (eid : Z) :
  (forall steps s db,
      (forall st, In st steps -> ledger_works (step_env st)) ->
      (firings eid steps s db
       <= if select_processed (Some eid) db then 0 else 1)%nat)
  /\
  (forall steps s db,
      (forall st, In st steps ->
                  db_error (at_is_event_processed (step_env st)) = false) ->
      (shown eid (processed_events (snd (run steps s db)))
       <= shown eid (processed_events db)
          + (if select_processed (Some eid) db then 0 else 1))%nat)
  /\
  (forall e s db,
      nothing_escapes e ->
      auto_prompt_fires e db eid = true ->
      main_modal (fst (invoke e s db)) = true /\
      (db_error (at_record_event_as_processed e) = false ->
       exists pid ts,
         processed_events (snd (invoke e s db))
         = (processed_events db
              ++ [mkProcessed pid eid "SHOWING_MODAL" ts])%list) /\
      (db_error (at_record_event_as_processed e) = true ->
       snd (invoke e s db) = db))
  /\
  (forall e s db,
      nothing_escapes e ->
      triggered_by e "interval-component" ->
      modal_open_state s = false ->
      main_modal (fst (invoke e s db)) = true ->
      reminder_guard (fst (seen_last e db)) (snd (seen_last e db))
                     (fst (seen_due e db)) = true
      \/ exists n, auto_prompt_fires e db n = true)
  /\
  (forall e db,
      db_error (at_is_event_processed e) = false ->
      select_processed (Some eid) db = true ->
      auto_prompt_fires e db eid = false)
  /\
  (forall e db,
      triggered_by e "interval-component" ->
      db_error (at_is_event_processed e) = true ->
      seen_last e db = (Some eid, "ON") ->
      eid <> 0 ->
      reminder_guard (Some eid) "ON" (fst (seen_due e db)) = false ->
      auto_prompt_fires e db eid = true).
Proof.
  split; [|split; [|split; [|split; [|split]]]].
  - intros steps s db Hw. now apply firings_at_most_once.
  - intros steps s db Hread. now apply ledger_row_bound.
  - intros e s db NE Hf.
    rewrite (auto_prompt_outcome e s db eid NE Hf). cbn [fst snd].
    split; [reflexivity|]. split; intros ->; [|reflexivity].
    do 2 eexists. reflexivity.
  - intros e s db. apply tick_opening_has_a_cause.
  - intros e db. apply processed_event_never_fires.
  - intros e db Htick D Hlast Hne G.
    unfold auto_prompt_fires, seen_processed, prompt_guard.
    rewrite (proj2 (is_tick_triggered e) Htick), Hlast, D. cbn [fst snd].
    rewrite G, truthy_Some by assumption. cbn. now rewrite Z.eqb_refl.
Qed.

Lemma auto_prompt_at_most_once_witness :
  let steps := [Scenario.st Scenario.fs5 Scenario.tick 0;
                Scenario.st Scenario.fs5 Scenario.tick 1;
                Scenario.st Scenario.fs5 Scenario.defer_20 2;
                Scenario.st Scenario.fs5 Scenario.tick 3] in
  let tick0 := calm Scenario.tick Scenario.t0 in
  (forall st, In st steps -> ledger_works (step_env st)) /\
  (firings 5 steps initial_session Scenario.empty_db <= 1)%nat /\
  (shown 5 (processed_events
              (snd (run steps initial_session Scenario.empty_db))) <= 1)%nat /\
  auto_prompt_fires tick0 Scenario.db_event5 5 = true /\
  main_modal (fst (invoke tick0 initial_session Scenario.db_event5)) = true /\
  auto_prompt_fires (calm Scenario.tick (Scenario.at_minute 1))
    Scenario.db_event5_shown 5 = false.
Proof.
  intros steps tick0.
  assert (Hw : forall st, In st steps -> ledger_works (step_env st)).
  { intros st [<- | [<- | [<- | [<- | []]]]]; repeat split. }
  assert (Hread : forall st, In st steps ->
            db_error (at_is_event_processed (step_env st)) = false).
  { intros st Hin. now destruct (Hw st Hin) as (_ & R & _). }
  assert (NE : nothing_escapes tick0) by (repeat split).
  destruct (auto_prompt_at_most_once 5) as (H1 & H2 & H3 & _ & H5 & _).
  split; [exact Hw|].
  split; [exact (H1 steps initial_session Scenario.empty_db Hw)|].
  split; [exact (H2 steps initial_session Scenario.empty_db Hread)|].
  split; [reflexivity|].
  split; [exact (proj1 (H3 tick0 initial_session Scenario.db_event5
                          NE eq_refl))|].
  exact (H5 (calm Scenario.tick (Scenario.at_minute 1))
            Scenario.db_event5_shown eq_refl eq_refl).
Defined.

(** Event 5 is prompted at 09:00 and approved at 09:01; no reminder
    is ever scheduled.  At 09:30 a tick finds the ledger locked: the
    transition fires a second time for event 5, the main modal opens
    again and a second [SHOWING_MODAL] row is appended.  And when the
    row of the first prompt cannot be written, the tick that follows
    the operator's answer fires the transition again. *)
Lemma processed_event_prompted_again :
  let before :=
    run [Scenario.st Scenario.fs5 Scenario.tick 0;
         Scenario.st Scenario.fs5 Scenario.approve 1]
        initial_session Scenario.empty_db in
  let after :=
    run Scenario.approved_then_locked initial_session Scenario.empty_db in
  let declined :=
    run [mkStep Scenario.fs5 5 (Scenario.ledger_read_only Scenario.t0);
         Scenario.st Scenario.fs5 Scenario.decline 1]
        initial_session Scenario.empty_db in
  let again :=
    run Scenario.unrecorded_then_declined initial_session Scenario.empty_db in
  dialog_of (fst before) = Some IDLE /\
  select_processed (Some 5) (snd before) = true /\
  reminders (snd before) = [] /\
  dialog_of (fst after) = Some PROMPTING /\
  shown 5 (processed_events (snd after)) = 2%nat /\
  reminders (snd after) = [] /\
  firings 5 Scenario.approved_then_locked initial_session Scenario.empty_db
  = 2%nat /\
  dialog_of (fst declined) = Some DISCLAIMING /\
  processed_events (snd declined) = [] /\
  reminders (snd declined) = [] /\
  dialog_of (fst again) = Some PROMPTING /\
  firings 5 Scenario.unrecorded_then_declined initial_session Scenario.empty_db
  = 2%nat.
Proof. vm_compute. repeat split. Qed.
